(** * crtools: clan dashboard builder (src/crtools/crtools.py)

    A shallow embedding of the Python module and the properties of its
    participation analysis, report assembly and staged publication.

    Python objects decoded from the API are kept as dynamically typed values
    (dictionaries keep their insertion order); every operation that can raise
    in Python returns a [result].  JSON numbers are the API's integer
    counters, so the numeric values of the model are integers. *)

From Stdlib Require Import List String Ascii ZArith Bool Arith Lia.
From Stdlib Require Import Permutation.
Import ListNotations.
Open Scope string_scope.
Open Scope list_scope.

Set Implicit Arguments.
Set Warnings "-register-all".

(** ** Python values and exceptions *)

Inductive value : Type :=
| VNone
| VBool (b : bool)
| VInt (n : Z)
| VStr (s : string)
| VList (l : list value)
| VDict (d : list (string * value)).

Inductive exn : Type :=
| KeyError (key : string)
| TypeError
| AttributeError
| ValueError
| NameError (name : string)
| UnboundLocalError (name : string)
| JSONDecodeError
| RequestException
| TemplateError
| OSError (what : string).

Inductive result (A : Type) : Type :=
| Ok (a : A)
| Err (e : exn).

Arguments Ok {A} a.
Arguments Err {A} e.

Definition rbind {A B : Type} (r : result A) (k : A -> result B) : result B :=
  match r with
  | Ok a => k a
  | Err e => Err e
  end.

Declare Scope result_scope.
Delimit Scope result_scope with result.
Notation "'let*' x ':=' r 'in' k" := (rbind r (fun x => k))
  (at level 10, x pattern, r at level 100, k at level 200) : result_scope.
Open Scope result_scope.

(** ** Dictionaries: association lists in insertion order *)

Definition dict := list (string * value).

Fixpoint dict_get (k : string) (d : dict) : option value :=
  match d with
  | [] => None
  | (k', v) :: d' => if String.eqb k' k then Some v else dict_get k d'
  end.

(** [d[k] = v]: an existing key keeps its position, a new key goes last. *)
Fixpoint dict_set (k : string) (v : value) (d : dict) : dict :=
  match d with
  | [] => [(k, v)]
  | (k', v') :: d' =>
      if String.eqb k' k then (k, v) :: d' else (k', v') :: dict_set k v d'
  end.

(** [o[k]] for a string key. *)
Definition subscript (o : value) (k : string) : result value :=
  match o with
  | VDict d => match dict_get k d with
               | Some v => Ok v
               | None => Err (KeyError k)
               end
  | _ => Err TypeError
  end.

(** [o[k] = v] for a string key; the updated object is returned. *)
Definition setitem (o : value) (k : string) (v : value) : result value :=
  match o with
  | VDict d => Ok (VDict (dict_set k v d))
  | _ => Err TypeError
  end.

Definition bool_int (b : bool) : Z := if b then 1%Z else 0%Z.

(** Python's [==] on decoded values: booleans compare as the integers 0 and
    1, lists element-wise, dictionaries key by key whatever their order. *)
Fixpoint py_eq (a b : value) : bool :=
  match a, b with
  | VNone, VNone => true
  | VBool x, VBool y => Bool.eqb x y
  | VBool x, VInt n => Z.eqb (bool_int x) n
  | VInt n, VBool x => Z.eqb n (bool_int x)
  | VInt n, VInt m => Z.eqb n m
  | VStr s, VStr t => String.eqb s t
  | VList l, VList m =>
      (fix all2 (l m : list value) : bool :=
         match l, m with
         | [], [] => true
         | x :: l', y :: m' => py_eq x y && all2 l' m'
         | _, _ => false
         end) l m
  | VDict d, VDict e =>
      Nat.eqb (List.length d) (List.length e)
      && forallb (fun kv => match dict_get (fst kv) e with
                            | Some v' => py_eq (snd kv) v'
                            | None => false
                            end) d
  | _, _ => false
  end.

(** Python's [<] against an integer. *)
Definition py_lt (a : value) (n : Z) : result bool :=
  match a with
  | VInt m => Ok (Z.ltb m n)
  | VBool x => Ok (Z.ltb (bool_int x) n)
  | _ => Err TypeError
  end.

Fixpoint chars (s : string) : list value :=
  match s with
  | EmptyString => []
  | String c s' => VStr (String c EmptyString) :: chars s'
  end.

(** The elements a [for] loop visits. *)
Definition py_iter (o : value) : result (list value) :=
  match o with
  | VList l => Ok l
  | VStr s => Ok (chars s)
  | VDict d => Ok (map (fun kv => VStr (fst kv)) d)
  | _ => Err TypeError
  end.

(** ** member_warlog (lines 68-86)

    The loop assigns [member['status']] on the participant dictionaries of
    the war log itself, so every function below returns the objects it
    visited next to its result. *)

(** Lines 76-83: the status cascade on a participant whose tag matched. *)
Definition set_status (member : value) : result value :=
  let* c := subscript member "collectionDayBattlesPlayed" in
  if py_eq c (VInt 0) then setitem member "status" (VStr "na")
  else
    let* b := subscript member "battlesPlayed" in
    if py_eq b (VInt 0) then setitem member "status" (VStr "bad")
    else
      let* c' := subscript member "collectionDayBattlesPlayed" in
      let* few := py_lt c' 3 in
      if few then setitem member "status" (VStr "ok")
      else setitem member "status" (VStr "good").

(** Lines 74-84: the scan of one war's participants.  There is no [break]:
    the last participant with the tag is the one kept. *)
Fixpoint scan_participants (member_tag : value) (members : list value)
    (participation : value) : result (value * list value) :=
  match members with
  | [] => Ok (participation, [])
  | member :: rest =>
      let* t := subscript member "tag" in
      if py_eq t member_tag then
        let* member' := set_status member in
        let* (p, rest') := scan_participants member_tag rest member' in
        Ok (p, member' :: rest')
      else
        let* (p, rest') := scan_participants member_tag rest participation in
        Ok (p, member :: rest')
  end.

Definition na_placeholder : value := VDict [("status", VStr "na")].

(** Lines 73-85: one iteration of the outer loop; the second component is
    the war entry as the iteration leaves it. *)
Definition member_warlog_war (member_tag : value) (war : value)
  : result (value * value) :=
  let* ps := subscript war "participants" in
  let* members := py_iter ps in
  let* (p, members') := scan_participants member_tag members na_placeholder in
  match war, ps with
  | VDict d, VList _ =>
      Ok (p, VDict (dict_set "participants" (VList members') d))
  | _, _ => Ok (p, war)
  end.

Fixpoint member_warlog_loop (member_tag : value) (wars : list value)
  : result (list value * list value) :=
  match wars with
  | [] => Ok ([], [])
  | war :: rest =>
      let* (p, war') := member_warlog_war member_tag war in
      let* (out, rest') := member_warlog_loop member_tag rest in
      Ok (p :: out, war' :: rest')
  end.

(** [member_warlog member_tag warlog]: the participation records, and the war
    log as the call leaves it. *)
Definition member_warlog (member_tag : value) (warlog : value)
  : result (list value * value) :=
  let* wars := py_iter warlog in
  let* (out, wars') := member_warlog_loop member_tag wars in
  match warlog with
  | VList _ => Ok (out, VList wars')
  | _ => Ok (out, warlog)
  end.

(** ** member_danger (lines 88-104) *)

Fixpoint count_statuses (member_warlog : list value) (good ok bad : nat)
  : result (nat * nat * nat) :=
  match member_warlog with
  | [] => Ok (good, ok, bad)
  | war :: rest =>
      if py_eq war VNone then count_statuses rest good ok bad
      else
        let* s := subscript war "status" in
        if py_eq s (VStr "good") then count_statuses rest (S good) ok bad
        else if py_eq s (VStr "ok") then count_statuses rest good (S ok) bad
        else if py_eq s (VStr "bad") then count_statuses rest good ok (S bad)
        else count_statuses rest good ok bad
  end.

Definition member_danger (member : value) (member_warlog : list value)
  : result bool :=
  let* (counts, bad) := count_statuses member_warlog 0 0 0 in
  let (good, ok) := counts in
  if Nat.ltb good bad then Ok true
  else if Nat.eqb good 0 then
    let* d := subscript member "donations" in
    if py_eq d (VInt 0) then Ok true else Ok false
  else Ok false.

(** ** Paths, the file system and the outside world

    A path is the list of its components, [os.path.join] appends components,
    and the file system maps paths to nodes.  The empty path stands for the
    empty string. *)

Definition path := list string.

Definition join (p rel : path) : path := p ++ rel.

Fixpoint strip_prefix (p q : path) : option path :=
  match p, q with
  | [], r => Some r
  | x :: p', y :: q' => if String.eqb x y then strip_prefix p' q' else None
  | _ :: _, [] => None
  end.

(** [under p q]: [q] is [p] or lies below it. *)
Definition under (p q : path) : bool :=
  match strip_prefix p q with
  | Some _ => true
  | None => false
  end.

Definition path_eqb (p q : path) : bool :=
  match strip_prefix p q with
  | Some [] => true
  | _ => false
  end.

Definition path_text (p : path) : string := String.concat "/" p.

Inductive node : Type :=
| File (st : Z) (data : string)
| Dir (st : Z).

(** The file system: the entries in use, the first entry of a path being
    the one in force.  A directory scan goes through the entries; a lookup
    reads the file system as a function of the path. *)
Definition filesystem := list (path * node).

Fixpoint fs_get (f : filesystem) (q : path) : option node :=
  match f with
  | [] => None
  | e :: f' => if path_eqb (fst e) q then Some (snd e) else fs_get f' q
  end.

Coercion fs_get : filesystem >-> Funclass.

Definition fs_set (p : path) (n : node) (f : filesystem) : filesystem :=
  (p, n) :: f.

(** The entries whose path passes [keep]. *)
Definition fs_keep (keep : path -> bool) (f : filesystem) : filesystem :=
  filter (fun e => keep (fst e)) f.

Definition fs_rmtree (p : path) (f : filesystem) : filesystem :=
  fs_keep (fun q => negb (under p q)) f.

(** [q] lies below [p] and is not [p]. *)
Definition inside (p q : path) : bool :=
  under p q && negb (path_eqb p q).

(** What a removal of the tree at [p] leaves when it stops early: the
    entries below [p] it got to, [gone], are removed, [p] itself is not. *)
Definition fs_rmpart (gone : path -> bool) (p : path) (f : filesystem)
  : filesystem :=
  fs_keep (fun q => negb (inside p q && gone q)) f.

(** The tree at [src] set down at [dst], the part of it [copied] names by
    its path relative to [src]; nothing else is at or below [dst]. *)
Definition fs_graft (copied : path -> bool) (src dst : path)
    (f : filesystem) : filesystem :=
  flat_map (fun e => match strip_prefix src (fst e) with
                     | Some rel => if copied rel then [(dst ++ rel, snd e)]
                                   else []
                     | None => []
                     end) f
  ++ fs_rmtree dst f.

Definition fs_copytree (src dst : path) (f : filesystem) : filesystem :=
  fs_graft (fun _ => true) src dst f.

(** A copy that stops early has made [dst] and given it the stat of [src];
    of the rest it has copied a part. *)
Definition fs_copypart (copied : path -> bool) (src dst : path)
    (f : filesystem) : filesystem :=
  fs_graft (fun rel => match rel with
                       | [] => true
                       | _ :: _ => copied rel
                       end) src dst f.

(** The directory at [p] has an entry. *)
Definition has_entry (f : filesystem) (p : path) : bool :=
  existsb (fun e => inside p (fst e)) f.

(** The modes of what the module creates: [mkdtemp] makes its directory
    with 0o700; directories and files get 0o777 and 0o666 less a umask of
    0o022. *)
Definition mode_tempdir : Z := 448.
Definition mode_dir : Z := 493.
Definition mode_file : Z := 420.

(** The owner's permission bits of a mode.  The user who runs the module
    owns the trees it works on. *)
Definition owner_r (st : Z) : bool := Z.testbit st 8.
Definition owner_w (st : Z) : bool := Z.testbit st 7.
Definition owner_x (st : Z) : bool := Z.testbit st 6.

(** [shutil.rmtree] scans every directory of the tree, which takes read
    permission, and unlinks the entries of every directory that has some,
    which takes write and search permission on that directory. *)
Definition may_empty (f : filesystem) (q : path) : bool :=
  match f q with
  | Some (Dir st) =>
      owner_r st && (negb (has_entry f q) || (owner_w st && owner_x st))
  | _ => true
  end.

Definition removable (f : filesystem) (p : path) : bool :=
  forallb (fun e => negb (under p (fst e)) || may_empty f (fst e)) f.

(** [shutil.copytree] scans every directory of the tree and opens its
    entries, which takes read permission on the directory and search
    permission when it has entries, and reads every file. *)
Definition may_read (f : filesystem) (q : path) : bool :=
  match f q with
  | Some (Dir st) => owner_r st && (negb (has_entry f q) || owner_x st)
  | Some (File st _) => owner_r st
  | None => true
  end.

Definition readable (f : filesystem) (p : path) : bool :=
  forallb (fun e => negb (under p (fst e)) || may_read f (fst e)) f.

(** [os.mkdir]: the parent has to be a directory.  A path of one component
    is made in the current directory. *)
Definition mkdir (p : path) (f : filesystem) : result unit * filesystem :=
  match p with
  | [] => (Err (OSError "FileNotFoundError"), f)
  | _ :: _ =>
      match f p with
      | Some _ => (Err (OSError "FileExistsError"), f)
      | None =>
          match removelast p with
          | [] => (Ok tt, fs_set p (Dir mode_dir) f)
          | head =>
              match f head with
              | Some (Dir _) => (Ok tt, fs_set p (Dir mode_dir) f)
              | Some (File _ _) => (Err (OSError "NotADirectoryError"), f)
              | None => (Err (OSError "FileNotFoundError"), f)
              end
          end
      end
  end.

(** [os.makedirs]: a missing head is made first, by the same function; the
    recursion is on the length of the path.  The [FileExistsError] that
    [os.makedirs] passes over in its recursive call cannot arise here, the
    call being made for a missing head only. *)
Fixpoint makedirs_fs (n : nat) (p : path) (f : filesystem)
  : result unit * filesystem :=
  match n with
  | O => mkdir p f
  | S n' =>
      match removelast p with
      | [] => mkdir p f
      | head =>
          match f head with
          | Some _ => mkdir p f
          | None => match makedirs_fs n' head f with
                    | (Ok _, f') => mkdir p f'
                    | (Err e, f') => (Err e, f')
                    end
          end
      end
  end.

Record response := { status_code : Z; text : string }.

Record world := {
  fs : filesystem;
  requests : list (string * list (string * string))
}.

Definition with_fs (w : world) (f : filesystem) : world :=
  {| fs := f; requests := requests w |}.

(** The file-system calls of the module, as the keys of the failure oracle. *)
Inductive fsop : Type :=
| Mkdtemp
| Makedirs (p : path)
| Copytree (src dst : path)
| Copyfile (src dst : path)
| OpenW (p : path)
| Write (p : path)
| Read (p : path)
| Copystat (src dst : path)
| Rmtree (p : path).

(** What the module takes from its libraries and its environment. *)
Record externals := {
  (** [requests.get(url, headers=headers)]; [None] when the request raises *)
  http_get : string -> list (string * string) -> option response;
  (** [json.loads]; [None] when the text is not JSON *)
  json_loads : string -> option value;
  (** [json.dumps(obj, indent=4)] *)
  json_dumps : value -> string;
  (** [urllib.parse.quote_plus] *)
  quote_plus : string -> string;
  (** [os.path.expanduser] *)
  expanduser : path -> path;
  (** [os.path.dirname(__file__)] *)
  package_dir : path;
  (** the directory name [tempfile.mkdtemp] picks *)
  mkdtemp_path : path;
  (** [env.get_template(name).render(context)]; [None] when it raises *)
  render : string -> value -> option string;
  (** [datetime.strptime(s, '%Y%m%dT%H%M%S').strftime("%m-%d")] *)
  strptime_strftime : string -> option string;
  (** [datetime.now().strftime('%c')] *)
  now : string;
  (** [__version__] *)
  version : string;
  (** an [OSError] a file-system call raises on top of those the file
      system itself decides *)
  fault : fsop -> option string;
  (** the module runs as root, whom no mode bits stop *)
  root : bool;
  (** when [shutil.copytree src dst] stops early: the part of the tree it
      has copied, by its path relative to [src] *)
  copied : path -> path -> path -> bool;
  (** when [shutil.rmtree p] stops early: the paths below [p] it has
      removed *)
  removed : path -> path -> bool
}.

(** ** State and exceptions *)

Definition M (A : Type) : Type := world -> result A * world.

Definition ret {A : Type} (a : A) : M A := fun w => (Ok a, w).

Definition raise {A : Type} (e : exn) : M A := fun w => (Err e, w).

Definition bind {A B : Type} (m : M A) (k : A -> M B) : M B :=
  fun w => match m w with
           | (Ok a, w') => k a w'
           | (Err e, w') => (Err e, w')
           end.

Definition lift {A : Type} (r : result A) : M A := fun w => (r, w).

Definition of_option {A : Type} (o : option A) (e : exn) : result A :=
  match o with
  | Some a => Ok a
  | None => Err e
  end.

(** [try: body finally: cleanup], the cleanup's own exception winning. *)
Definition try_finally {A : Type} (body : M A) (cleanup : M unit) : M A :=
  fun w => match body w with
           | (r, w') => match cleanup w' with
                        | (Ok _, w'') => (r, w'')
                        | (Err e, w'') => (Err e, w'')
                        end
           end.

Declare Scope io_scope.
Delimit Scope io_scope with io.
Notation "x <- m ;; k" := (bind m (fun x => k))
  (at level 61, m at next level, right associativity) : io_scope.
Notation "' pat <- m ;; k" := (bind m (fun x => match x with pat => k end))
  (at level 61, pat pattern, m at next level, right associativity) : io_scope.
Notation "m ;; k" := (bind m (fun _ => k))
  (at level 61, right associativity) : io_scope.

Section Program.

Variable E : externals.

Open Scope io_scope.

(** A file-system call: the oracle's error first, the call's own otherwise. *)
Definition fscall {A : Type} (op : fsop)
    (act : filesystem -> result A * filesystem) : M A :=
  fun w => match fault E op with
           | Some what => (Err (OSError what), w)
           | None => match act (fs w) with
                     | (r, f') => (r, with_fs w f')
                     end
           end.

Definition node_stat (n : node) : Z :=
  match n with
  | File st _ => st
  | Dir st => st
  end.

Definition node_with_stat (st : Z) (n : node) : node :=
  match n with
  | File _ data => File st data
  | Dir _ => Dir st
  end.

(** [tempfile.mkdtemp] *)
Definition mkdtemp : M path :=
  fscall Mkdtemp (fun f =>
    (Ok (mkdtemp_path E), fs_set (mkdtemp_path E) (Dir mode_tempdir) f)).

(** [os.makedirs] *)
Definition makedirs (p : path) : M unit :=
  fscall (Makedirs p) (fun f => makedirs_fs (List.length p) p f).

(** [shutil.copytree]: [src] is scanned, which takes read permission, and
    [dst], which must not exist, is made with [os.makedirs], missing
    parents included; the entries are copied, and [dst] gets the stat of
    [src].  The errors of the entries are collected and raised at the end,
    so that a copy that fails leaves what it has copied; the oracle's error
    comes before anything is made when [copied] has not even [dst]. *)
Definition copytree (src dst : path) : M unit :=
  fun w =>
    match fs w src, fs w dst with
    | Some (Dir st), None =>
        if negb (root E || owner_r st)
        then (Err (OSError "PermissionError"), w)
        else
          match makedirs_fs (List.length dst) dst (fs w) with
          | (Err e, f') => (Err e, with_fs w f')
          | (Ok _, f') =>
              match fault E (Copytree src dst) with
              | Some what =>
                  if copied E src dst []
                  then (Err (OSError what),
                        with_fs w
                          (fs_copypart (copied E src dst) src dst f'))
                  else (Err (OSError what), w)
              | None =>
                  if root E || readable f' src
                  then (Ok tt, with_fs w (fs_copytree src dst f'))
                  else (Err (OSError "Error"),
                        with_fs w
                          (fs_copypart (copied E src dst) src dst f'))
              end
          end
    | Some (Dir _), Some _ => (Err (OSError "FileExistsError"), w)
    | Some (File _ _), _ => (Err (OSError "NotADirectoryError"), w)
    | None, _ => (Err (OSError "FileNotFoundError"), w)
    end.

(** [shutil.copyfile] *)
Definition copyfile (src dst : path) : M unit :=
  fscall (Copyfile src dst) (fun f =>
    match f src, f dst with
    | Some (File _ data), None => (Ok tt, fs_set dst (File mode_file data) f)
    | Some (File _ data), Some (File st _) =>
        (Ok tt, fs_set dst (File st data) f)
    | Some (File _ _), Some (Dir _) => (Err (OSError "IsADirectoryError"), f)
    | Some (Dir _), _ => (Err (OSError "IsADirectoryError"), f)
    | None, _ => (Err (OSError "FileNotFoundError"), f)
    end).

(** [codecs.open(file_path, 'w', 'utf-8')]: the file is created or emptied. *)
Definition open_w (p : path) : M unit :=
  fscall (OpenW p) (fun f =>
    match f p with
    | Some (Dir _) => (Err (OSError "IsADirectoryError"), f)
    | Some (File st _) => (Ok tt, fs_set p (File st "") f)
    | None => (Ok tt, fs_set p (File mode_file "") f)
    end).

(** [f.write(string)] on a file opened by [open_w]. *)
Definition write (p : path) (s : string) : M unit :=
  fscall (Write p) (fun f =>
    match f p with
    | Some (File st _) => (Ok tt, fs_set p (File st s) f)
    | _ => (Err (OSError "OSError"), f)
    end).

(** [open(p, 'r')] and [read()] *)
Definition read_text (p : path) : M string :=
  fscall (Read p) (fun f =>
    match f p with
    | Some (File _ data) => (Ok data, f)
    | Some (Dir _) => (Err (OSError "IsADirectoryError"), f)
    | None => (Err (OSError "FileNotFoundError"), f)
    end).

(** [os.path.isfile] and [os.path.exists] raise nothing. *)
Definition isfile (p : path) : M bool :=
  fun w => (Ok match fs w p with Some (File _ _) => true | _ => false end, w).

Definition exists_ (p : path) : M bool :=
  fun w => (Ok match fs w p with Some _ => true | None => false end, w).

(** [shutil.copystat]: [dst] takes the mode of [src], which is what
    [rmtree] and [copytree] then go by. *)
Definition copystat (src dst : path) : M unit :=
  fscall (Copystat src dst) (fun f =>
    match f src, f dst with
    | Some n, Some m => (Ok tt, fs_set dst (node_with_stat (node_stat n) m) f)
    | _, _ => (Err (OSError "FileNotFoundError"), f)
    end).

(** [shutil.rmtree]: it raises at the first entry it cannot remove, with
    what it had removed until then gone and [p] still there. *)
Definition rmtree (p : path) : M unit :=
  fun w =>
    match fs w p with
    | Some (Dir _) =>
        match fault E (Rmtree p) with
        | Some what =>
            (Err (OSError what),
             with_fs w (fs_rmpart (removed E p) p (fs w)))
        | None =>
            if root E || removable (fs w) p
            then (Ok tt, with_fs w (fs_rmtree p (fs w)))
            else (Err (OSError "PermissionError"),
                  with_fs w (fs_rmpart (removed E p) p (fs w)))
        end
    | Some (File _ _) => (Err (OSError "NotADirectoryError"), w)
    | None => (Err (OSError "FileNotFoundError"), w)
    end.

(** [requests.get]: every call is recorded. *)
Definition requests_get (url : string) (headers : list (string * string))
  : M response :=
  fun w => (of_option (http_get E url headers) RequestException,
            {| fs := fs w; requests := requests w ++ [(url, headers)] |}).

(** ** write_object_to_file (lines 19-29) *)

(** Line 25, [isinstance(obj, str) or isinstance(obj, unicode)]: the second
    operand names [unicode], which nothing binds. *)
Definition is_text (obj : value) : M bool :=
  match obj with
  | VStr _ => ret true
  | _ => raise (NameError "unicode")
  end.

Definition write_object_to_file (file_path : path) (obj : value) : M unit :=
  open_w file_path ;;
  t <- is_text obj ;;
  let string := if t then match obj with VStr s => s | _ => "" end
                else json_dumps E obj in
  write file_path string.

(** ** get_clan (lines 31-43) and get_warlog (lines 45-57) *)

Definition api_headers (api_key : string) : list (string * string) :=
  [("Accept", "application/json");
   ("authorization", ("Bearer " ++ api_key)%string)].

Definition get_clan (api_key clan_id : string) : M value :=
  let url := ("https://api.clashroyale.com/v1/clans/"
              ++ quote_plus E clan_id)%string in
  r <- requests_get url (api_headers api_key) ;;
  clan <- lift (of_option (json_loads E (text r)) JSONDecodeError) ;;
  ret clan.

Definition get_warlog (api_key clan_id : string) : M value :=
  let url := ("https://api.clashroyale.com/v1/clans/"
              ++ quote_plus E clan_id ++ "/warlog?limit=20")%string in
  r <- requests_get url (api_headers api_key) ;;
  warlog <- lift (of_option (json_loads E (text r)) JSONDecodeError) ;;
  lift (subscript warlog "items").

(** ** warlog_dates (lines 59-65) *)

(** [s.split('.')[0]] *)
Fixpoint before_dot (s : string) : string :=
  match s with
  | EmptyString => EmptyString
  | String c s' => if Ascii.eqb c "." then EmptyString
                   else String c (before_dot s')
  end.

Fixpoint warlog_dates_loop (wars : list value) : result (list value) :=
  match wars with
  | [] => Ok []
  | war :: rest =>
      let* created := subscript war "createdDate" in
      let* stamp := match created with
                    | VStr s => Ok (before_dot s)
                    | _ => Err AttributeError
                    end in
      let* label := of_option (strptime_strftime E stamp) ValueError in
      let* labels := warlog_dates_loop rest in
      Ok (VStr label :: labels)
  end.

Definition warlog_dates (warlog : value) : result (list value) :=
  let* wars := py_iter warlog in
  warlog_dates_loop wars.

(** ** render_dashboard (lines 106-125) *)

(** [clan_name + "Clan Dashboard"] *)
Definition page_title (clan_name : value) : result value :=
  match clan_name with
  | VStr s => Ok (VStr (s ++ "Clan Dashboard")%string)
  | _ => Err TypeError
  end.

Definition render_template (name : string) (context : value) : M string :=
  lift (of_option (render E name context) TemplateError).

Definition render_dashboard (members : list value)
    (clan_name clan_id clan_description clan_min_trophies : value)
    (clan_stats : string) (war_dates : list value) : M string :=
  member_table <- render_template "member-table.html.j2"
    (VDict [("members", VList members);
            ("clan_name", clan_name);
            ("min_trophies", clan_min_trophies);
            ("war_dates", VList war_dates)]) ;;
  title <- lift (page_title clan_name) ;;
  render_template "page.html.j2"
    (VDict [("version", VStr (version E));
            ("page_title", title);
            ("update_date", VStr (now E));
            ("content", VStr member_table);
            ("clan_name", clan_name);
            ("clan_id", clan_id);
            ("clan_description", clan_description);
            ("clan_stats", VStr clan_stats)]).

(** ** build_dashboard (lines 127-214) *)

(** Lines 182-191, one iteration of the member loop.  [member_row] and
    [member] name one object; the war log comes back as [member_warlog]
    leaves it. *)
Definition member_row (member warlog : value) : result (value * value) :=
  let* tag := subscript member "tag" in
  let* (records, warlog') := member_warlog tag warlog in
  let* member := setitem member "warlog" (VList records) in
  let* danger := member_danger member records in
  let* member := setitem member "danger" (VBool danger) in
  let* role := subscript member "role" in
  let* member :=
    if py_eq role (VStr "leader") || py_eq role (VStr "coLeader")
    then setitem member "leadership" (VBool true)
    else setitem member "leadership" (VBool false) in
  let* role := subscript member "role" in
  let* member :=
    if py_eq role (VStr "coLeader")
    then setitem member "role" (VStr "co-leader")
    else Ok member in
  Ok (member, warlog').

Fixpoint member_rows (members : list value) (warlog : value)
  : result (list value * value) :=
  match members with
  | [] => Ok ([], warlog)
  | member :: rest =>
      let* (row, warlog') := member_row member warlog in
      let* (rows, warlog'') := member_rows rest warlog' in
      Ok (row :: rows, warlog'')
  end.

(** Lines 180-191: [member_dash], next to the clan and the war log as the
    loop leaves them (the rows are the clan's own member objects). *)
Definition member_dash (clan warlog : value)
  : result (list value * value * value) :=
  let* member_list := subscript clan "memberList" in
  let* members := py_iter member_list in
  let* (rows, warlog') := member_rows members warlog in
  match clan, member_list with
  | VDict d, VList _ =>
      Ok (rows, VDict (dict_set "memberList" (VList rows) d), warlog')
  | _, _ => Ok (rows, clan, warlog')
  end.

(** Lines 166-173: the description shown on the page. *)
Definition resolve_description (clan : value) (description_path : option path)
  : M value :=
  clan_description <- lift (subscript clan "description") ;;
  match description_path with
  | Some (c :: rest) =>
      let description_path := expanduser E (c :: rest) in
      found <- isfile description_path ;;
      if found then
        content <- read_text description_path ;;
        ret (VStr content)
      else
        ret (VStr ("ERROR: File '" ++ path_text description_path
                   ++ "' does not exist.")%string)
  | _ => ret clan_description
  end.

(** Lines 146-160: the logo or the favicon, the user's or the bundled one. *)
Definition copy_asset (user_path : option path) (bundled dest : path)
  : M unit :=
  match user_path with
  | Some (c :: rest) => copyfile (expanduser E (c :: rest)) dest
  | _ => copyfile (join (package_dir E) bundled) dest
  end.

(** Lines 138-201: everything written below the temporary directory. *)
Definition stage (tempdir : path) (api_key clan_id : string)
    (logo_path favicon_path description_path : option path) : M unit :=
  let log_path := join tempdir ["log"] in
  makedirs log_path ;;
  copytree (join (package_dir E) ["static"]) (join tempdir ["static"]) ;;
  copy_asset logo_path ["static"; "crtools-logo.png"]
             (join tempdir ["clan_logo.png"]) ;;
  copy_asset favicon_path ["static"; "crtools-favicon.ico"]
             (join tempdir ["favicon.ico"]) ;;
  clan <- get_clan api_key clan_id ;;
  write_object_to_file (join log_path ["clan.json"])
                       (VStr (json_dumps E clan)) ;;
  clan_description <- resolve_description clan description_path ;;
  warlog <- get_warlog api_key clan_id ;;
  write_object_to_file (join log_path ["warlog.json"])
                       (VStr (json_dumps E warlog)) ;;
  '(rows, clan, warlog) <- lift (member_dash clan warlog) ;;
  stats_html <- render_template "clan-stats-table.html.j2" clan ;;
  name <- lift (subscript clan "name") ;;
  tag <- lift (subscript clan "tag") ;;
  min_trophies <- lift (subscript clan "requiredTrophies") ;;
  war_dates <- lift (warlog_dates warlog) ;;
  dashboard_html <- render_dashboard rows name tag clan_description
                      min_trophies stats_html war_dates ;;
  write_object_to_file (join tempdir ["index.html"]) (VStr dashboard_html).

(** Lines 205-211: the only place that names the output path. *)
Definition publish (tempdir output_path : path) : M unit :=
  let output_path := expanduser E output_path in
  present <- exists_ output_path ;;
  (if present then
     copystat output_path tempdir ;;
     rmtree output_path
   else ret tt) ;;
  copytree tempdir output_path.

(** The [try] ... [finally] of lines 132-214.  [tempdir] is bound inside the
    [try]: when [mkdtemp] raises, the [finally] clause reads an unbound
    local. *)
Definition build_dashboard (api_key clan_id : string)
    (logo_path favicon_path description_path : option path)
    (output_path : path) : M unit :=
  fun w =>
    match mkdtemp w with
    | (Err _, w') => (Err (UnboundLocalError "tempdir"), w')
    | (Ok tempdir, w') =>
        try_finally
          (stage tempdir api_key clan_id logo_path favicon_path
                 description_path ;;
           publish tempdir output_path)
          (rmtree tempdir) w'
    end.

End Program.

(** ** Reference definitions for the statements

    What the statements compare the code with: the status cascade as a
    function of the two counters, the API's schema as boolean predicates,
    and the effect of a classification on a well-formed war log. *)

Definition cascade (collection_battles battles : Z) : string :=
  if (collection_battles =? 0)%Z then "na"
  else if (battles =? 0)%Z then "bad"
  else if (collection_battles <? 3)%Z then "ok"
  else "good".

Definition tag_matches (member_tag p : value) : bool :=
  match subscript p "tag" with
  | Ok t => py_eq t member_tag
  | Err _ => false
  end.

Definition participant_wf (p : value) : bool :=
  match p with
  | VDict d =>
      match dict_get "tag" d, dict_get "collectionDayBattlesPlayed" d,
            dict_get "battlesPlayed" d with
      | Some _, Some (VInt _), Some (VInt _) => true
      | _, _, _ => false
      end
  | _ => false
  end.

Definition war_wf (war : value) : bool :=
  match war with
  | VDict w => match dict_get "participants" w with
               | Some (VList ps) => forallb participant_wf ps
               | _ => false
               end
  | _ => false
  end.

(** A participant with its status set. *)
Definition classified (p : value) : value :=
  match p with
  | VDict d =>
      match dict_get "collectionDayBattlesPlayed" d,
            dict_get "battlesPlayed" d with
      | Some (VInt c), Some (VInt b) =>
          VDict (dict_set "status" (VStr (cascade c b)) d)
      | _, _ => p
      end
  | _ => p
  end.

Definition participants_of (war : value) : list value :=
  match war with
  | VDict w => match dict_get "participants" w with
               | Some (VList ps) => ps
               | _ => []
               end
  | _ => []
  end.

(** The record kept for a war: the last participant carrying the tag. *)
Definition participation_of (member_tag war : value) : value :=
  fold_left (fun kept p => if tag_matches member_tag p then classified p
                           else kept)
            (participants_of war) na_placeholder.

Definition participant_after (member_tag p : value) : value :=
  if tag_matches member_tag p then classified p else p.

Definition war_after (member_tag war : value) : value :=
  match war with
  | VDict w =>
      VDict (dict_set "participants"
               (VList (map (participant_after member_tag)
                           (participants_of war)))
               w)
  | _ => war
  end.

(** Two participants that differ at most in their [status] key. *)
Definition same_but_status (member_tag p p' : value) : Prop :=
  if tag_matches member_tag p
  then exists d s, p = VDict d /\ p' = VDict (dict_set "status" (VStr s) d)
  else p' = p.

Definition war_same_but_status (member_tag war war' : value) : Prop :=
  exists w ps ps',
    war = VDict w /\ dict_get "participants" w = Some (VList ps) /\
    war' = VDict (dict_set "participants" (VList ps') w) /\
    Forall2 (same_but_status member_tag) ps ps'.

(** Participation records as [member_danger] reads them. *)
Definition record_wf (war : value) : bool :=
  match war with
  | VNone => true
  | VDict d => match dict_get "status" d with
               | Some _ => true
               | None => false
               end
  | _ => false
  end.

Definition has_status (s : string) (war : value) : bool :=
  match war with
  | VDict d => match dict_get "status" d with
               | Some (VStr t) => String.eqb t s
               | _ => false
               end
  | _ => false
  end.

Definition count_status (s : string) (member_warlog : list value) : nat :=
  List.length (filter (has_status s) member_warlog).

Definition member_wf (member : value) : bool :=
  match member with
  | VDict d => match dict_get "tag" d, dict_get "role" d,
                     dict_get "donations" d with
               | Some _, Some _, Some _ => true
               | _, _, _ => false
               end
  | _ => false
  end.

(** A dashboard row against the member it was built from. *)
Definition row_of (member row : value) : Prop :=
  forall role,
    subscript member "role" = Ok role ->
    subscript row "leadership"
    = Ok (VBool (py_eq role (VStr "leader") || py_eq role (VStr "coLeader"))) /\
    subscript row "role"
    = Ok (if py_eq role (VStr "coLeader") then VStr "co-leader" else role).

(** The exceptions a result may carry. *)
Definition raises_only {A : Type} (P : exn -> Prop) (r : result A) : Prop :=
  forall e, r = Err e -> P e.

(** [steps R P m]: from any world, [m] ends in a world related to it by
    [R], and raises only exceptions in [P]. *)
Definition steps {A : Type} (R : world -> world -> Prop) (P : exn -> Prop)
    (m : M A) : Prop :=
  forall w, R w (snd (m w)) /\ raises_only P (fst (m w)).

Definition not_name_error (e : exn) : Prop :=
  match e with
  | NameError _ => False
  | _ => True
  end.

Definition is_dir (n : option node) : Prop :=
  match n with
  | Some (Dir _) => True
  | _ => False
  end.

(** From a file system where [tempdir] is a directory: nothing outside
    [tempdir] changes, and [tempdir] stays a directory. *)
Definition fs_below (tempdir : path) (f f' : filesystem) : Prop :=
  is_dir (f tempdir) ->
  (forall q, under tempdir q = false -> f' q = f q) /\
  is_dir (f' tempdir).

Definition stays_below (tempdir : path) (w w' : world) : Prop :=
  fs_below tempdir (fs w) (fs w').

(** A mode that lets its owner read, write and search. *)
Definition open_mode (st : Z) : bool :=
  owner_r st && owner_w st && owner_x st.

(** Every directory at or below [p] has such a mode. *)
Definition open_dirs (f : filesystem) (p : path) : Prop :=
  forall q st, under p q = true -> f q = Some (Dir st) -> open_mode st = true.

(** From a file system where the directories at or below [tempdir] and
    [static] have open modes, those at or below [tempdir] keep one. *)
Definition fs_open (tempdir static : path) (f f' : filesystem) : Prop :=
  is_dir (f tempdir) -> open_dirs f tempdir -> open_dirs f static ->
  open_dirs f' tempdir.

Definition stays_open (tempdir static : path) (w w' : world) : Prop :=
  stays_below tempdir w w' /\ fs_open tempdir static (fs w) (fs w').

Definition keeps_dir (tempdir : path) (w w' : world) : Prop :=
  is_dir (fs w tempdir) -> is_dir (fs w' tempdir).

(** [p] lies strictly below [tempdir]. *)
Definition below (tempdir p : path) : Prop :=
  under tempdir p = true /\ under p tempdir = false.

(** Neither path lies below the other. *)
Definition unrelated (p q : path) : bool :=
  negb (under p q) && negb (under q p).

(** A 2xx status. *)
Definition is_2xx (r : response) : bool :=
  (200 <=? status_code r)%Z && (status_code r <? 300)%Z.

(** ** Reference definitions for the further properties *)

(** A record that [member_danger] counts neither as good nor as bad. *)
Definition neutral_record (r : value) : Prop :=
  r = VNone \/
  exists d s, r = VDict d /\ dict_get "status" d = Some s /\
              py_eq s (VStr "good") = false /\ py_eq s (VStr "bad") = false.

(** Two counts that agree but for the number of [ok] records. *)
Definition same_good_bad (r1 r2 : result (nat * nat * nat)) : Prop :=
  match r1, r2 with
  | Ok (g1, _, b1), Ok (g2, _, b2) => g1 = g2 /\ b1 = b2
  | Err e1, Err e2 => e1 = e2
  | _, _ => False
  end.

(** A participant the scan passes over: it has a tag, another one. *)
Definition other_tag (member_tag p : value) : Prop :=
  exists t, subscript p "tag" = Ok t /\ py_eq t member_tag = false.

(** A war log that gives every member the records of another one. *)
Definition same_records (wars wars' : list value) : Prop :=
  forallb war_wf wars' = true /\
  forall t, map (participation_of t) wars' = map (participation_of t) wars.

Definition is_ok {A : Type} (r : result A) : bool :=
  match r with
  | Ok _ => true
  | Err _ => false
  end.

(** [asks n m]: [m] issues the requests [n] in this order when it returns,
    and a prefix of them when it raises. *)
Definition asks {A : Type} (n : list (string * list (string * string)))
    (m : M A) : Prop :=
  forall w, exists l rest,
    n = l ++ rest /\ requests (snd (m w)) = requests w ++ l /\
    (is_ok (fst (m w)) = true -> rest = []).

(** The keys the member loop of [build_dashboard] writes. *)
Definition row_keys : list string :=
  ["warlog"; "danger"; "leadership"; "role"].

(** The row the member loop makes of a member dictionary. *)
Definition row_dict (d : dict) (records : list value) (flag : bool)
    (role : value) : dict :=
  let d3 := dict_set "leadership"
              (VBool (py_eq role (VStr "leader")
                      || py_eq role (VStr "coLeader")))
              (dict_set "danger" (VBool flag)
                 (dict_set "warlog" (VList records) d)) in
  if py_eq role (VStr "coLeader") then dict_set "role" (VStr "co-leader") d3
  else d3.

(** What a row owes to the member and to the war log as it was fetched. *)
Definition row_from (wars : list value) (member row : value) : Prop :=
  (forall k, ~ In k row_keys -> subscript row k = subscript member k) /\
  exists tag records warlog' flag,
    subscript member "tag" = Ok tag /\
    member_warlog tag (VList wars) = Ok (records, warlog') /\
    subscript row "warlog" = Ok (VList records) /\
    member_danger member records = Ok flag /\
    subscript row "danger" = Ok (VBool flag).

(** No entry of the file system is at or below [p]: the path is new. *)
Definition vacant (f : filesystem) (p : path) : bool :=
  forallb (fun e => negb (under p (fst e))) f.

(** Every directory entry at or below [p] has an open mode. *)
Definition open_tree (f : filesystem) (p : path) : bool :=
  forallb (fun e => negb (under p (fst e))
                    || match snd e with
                       | Dir st => open_mode st
                       | File _ _ => true
                       end) f.

(** A file with this content, whatever its stat. *)
Definition file_at (w : world) (p : path) (data : string) : Prop :=
  exists st, fs w p = Some (File st data).

(** The file [copy_asset] copies from. *)
Definition asset_source (E : externals) (user_path : option path)
    (bundled : path) : path :=
  match user_path with
  | Some (c :: rest) => expanduser E (c :: rest)
  | _ => join (package_dir E) bundled
  end.

(** ** A small clan, its war log and an environment to run the code in *)

Module Demo.

Definition participant (tag : string) (collection battles : Z) : value :=
  VDict [("tag", VStr tag);
         ("collectionDayBattlesPlayed", VInt collection);
         ("battlesPlayed", VInt battles)].

Definition war (created : string) (ps : list value) : value :=
  VDict [("createdDate", VStr created); ("participants", VList ps)].

Definition warlog : value :=
  VList [war "20240115T103000.000Z"
           [participant "#A" 3 1; participant "#Z" 0 0];
         war "20240113T103000.000Z" [participant "#Z" 2 1];
         war "20240111T103000.000Z" [participant "#A" 3 0]].

Definition wars : list value :=
  match warlog with
  | VList l => l
  | _ => []
  end.

Definition member (tag role : string) (donations : Z) : value :=
  VDict [("tag", VStr tag); ("name", VStr tag); ("role", VStr role);
         ("donations", VInt donations); ("trophies", VInt 4000)].

Definition clan : value :=
  VDict [("tag", VStr "#C"); ("name", VStr "Clan");
         ("description", VStr "from the API");
         ("requiredTrophies", VInt 1000);
         ("memberList", VList [member "#A" "coLeader" 100;
                               member "#B" "member" 0])].

Definition ends_with_warlog (url : string) : bool :=
  match index 0 "/warlog?limit=20" url with
  | Some _ => true
  | None => false
  end.

(** The decoder of this environment knows three documents: the clan and the
    war log by name, and the empty object. *)
Definition env (status : Z) (clan_text : string) : externals :=
  {| http_get := fun url _ =>
       Some {| status_code := status;
               text := if ends_with_warlog url then "warlog" else clan_text |};
     json_loads := fun s =>
       if String.eqb s "clan" then Some clan
       else if String.eqb s "warlog" then Some (VDict [("items", warlog)])
       else if String.eqb s "{}" then Some (VDict [])
       else None;
     json_dumps := fun _ => "{...}";
     quote_plus := fun s => s;
     expanduser := fun p => p;
     package_dir := ["pkg"];
     mkdtemp_path := ["tmp"; "x1traasorg"];
     render := fun name _ => Some ("<" ++ name ++ ">")%string;
     strptime_strftime := fun s => Some (substring 4 2 s ++ "-"
                                         ++ substring 6 2 s)%string;
     now := "Mon Jan 15 10:30:00 2024";
     version := "0.1";
     fault := fun _ => None;
     root := false;
     copied := fun _ _ rel => Nat.leb (List.length rel) 1;
     removed := fun _ _ => false |}.

(** The bundled assets, a description file and the directory for temporary
    files. *)
Definition bundled : filesystem :=
  [(["pkg"], Dir 493);
   (["pkg"; "static"], Dir 493);
   (["pkg"; "static"; "crtools-logo.png"], File 420 "logo");
   (["pkg"; "static"; "crtools-favicon.ico"], File 420 "icon");
   (["home"], Dir 493);
   (["home"; "about.txt"], File 420 "our clan");
   (["tmp"], Dir 511)].

(** An earlier dashboard at [out]. *)
Definition disk : filesystem :=
  bundled ++ [(["out"], Dir 488);
              (["out"; "index.html"], File 420 "old page")].

(** The earlier dashboard in a directory of mode 0o555. *)
Definition locked : filesystem :=
  bundled ++ [(["out"], Dir 365);
              (["out"; "index.html"], File 420 "old page")].

(** An empty directory of mode 0o555 at [out]. *)
Definition sealed : filesystem := bundled ++ [(["out"], Dir 365)].

(** A regular file at [out]. *)
Definition plain : filesystem := bundled ++ [(["out"], File 420 "notes")].

Definition start : world := {| fs := disk; requests := [] |}.

(** An environment with other failures of its file-system calls. *)
Definition failing (E : externals) (bad : fsop -> option string)
  : externals :=
  {| http_get := http_get E; json_loads := json_loads E;
     json_dumps := json_dumps E; quote_plus := quote_plus E;
     expanduser := expanduser E; package_dir := package_dir E;
     mkdtemp_path := mkdtemp_path E; render := render E;
     strptime_strftime := strptime_strftime E; now := now E;
     version := version E; fault := bad; root := root E;
     copied := copied E; removed := removed E |}.

(** A run on [disk] ends in the [PermissionError] of the cleanup, with the
    temporary directory, of mode [mode], and the staged page still there. *)
Definition left_behind (disk : filesystem) (mode : Z) : Prop :=
  let run := build_dashboard (env 200 "clan") "key" "#C" None None None
               ["out"] {| fs := disk; requests := [] |} in
  fst run = Err (OSError "PermissionError") /\
  fs (snd run) ["tmp"; "x1traasorg"] = Some (Dir mode) /\
  fs (snd run) ["tmp"; "x1traasorg"; "index.html"]
  = Some (File 420 "<page.html.j2>").

(** The copy to the output path fails. *)
Definition copy_to_out_fails (op : fsop) : option string :=
  match op with
  | Copytree _ dst => if path_eqb dst ["out"] then Some "ENOSPC" else None
  | _ => None
  end.

End Demo.

(** * Properties *)

Unset Implicit Arguments.

(** ** Runs on the demo clan *)

Example member_warlog_demo :
  fst (match member_warlog (VStr "#A") Demo.warlog with
       | Ok r => r
       | Err _ => ([], VNone)
       end)
  = [VDict [("tag", VStr "#A"); ("collectionDayBattlesPlayed", VInt 3);
            ("battlesPlayed", VInt 1); ("status", VStr "good")];
     VDict [("status", VStr "na")];
     VDict [("tag", VStr "#A"); ("collectionDayBattlesPlayed", VInt 3);
            ("battlesPlayed", VInt 0); ("status", VStr "bad")]].
Proof. reflexivity. Qed.

Example member_danger_no_good_no_donations :
  member_danger (Demo.member "#B" "member" 0)
    [VDict [("status", VStr "ok")]; VDict [("status", VStr "ok")]]
  = Ok true.
Proof. reflexivity. Qed.

Example member_danger_donor_without_wars :
  member_danger (Demo.member "#B" "member" 5) [] = Ok false.
Proof. reflexivity. Qed.

Example before_dot_demo : before_dot "20240115T103000.000Z" = "20240115T103000".
Proof. reflexivity. Qed.

Example write_object_to_file_dict :
  let run := write_object_to_file (Demo.env 200 "clan") ["out"; "index.html"]
               (VDict []) Demo.start in
  fst run = Err (NameError "unicode") /\
  fs (snd run) ["out"; "index.html"] = Some (File 420 "").
Proof. split; reflexivity. Qed.

Example build_dashboard_demo :
  let run := build_dashboard (Demo.env 200 "clan") "key" "#C" None None
               (Some ["home"; "about.txt"]) ["out"] Demo.start in
  fst run = Ok tt /\
  fs (snd run) ["out"; "index.html"] = Some (File 420 "<page.html.j2>") /\
  fs (snd run) ["out"; "clan_logo.png"] = Some (File 420 "logo") /\
  fs (snd run) ["out"; "log"; "warlog.json"] = Some (File 420 "{...}") /\
  fs (snd run) ["tmp"; "x1traasorg"] = None /\
  List.length (requests (snd run)) = 2.
Proof. repeat split; reflexivity. Qed.

Example build_dashboard_mkdtemp_fails :
  let E := Demo.env 200 "clan" in
  let E' := {| http_get := http_get E; json_loads := json_loads E;
               json_dumps := json_dumps E; quote_plus := quote_plus E;
               expanduser := expanduser E; package_dir := package_dir E;
               mkdtemp_path := mkdtemp_path E; render := render E;
               strptime_strftime := strptime_strftime E; now := now E;
               version := version E;
               fault := fun op => match op with
                                  | Mkdtemp => Some "PermissionError"
                                  | _ => None
                                  end;
               root := root E; copied := copied E;
               removed := removed E |} in
  fst (build_dashboard E' "key" "#C" None None None ["out"] Demo.start)
  = Err (UnboundLocalError "tempdir").
Proof. reflexivity. Qed.

(** ** Dictionaries *)

Lemma dict_get_set_same (k : string) (v : value) (d : dict) :
  dict_get k (dict_set k v d) = Some v.
Proof.
  induction d as [|[k' v'] d IH]; simpl.
  - now rewrite String.eqb_refl.
  - destruct (String.eqb k' k) eqn:Hk; simpl.
    + now rewrite String.eqb_refl.
    + now rewrite Hk.
Qed.

Lemma dict_get_set_other (k k' : string) (v : value) (d : dict) :
  k <> k' -> dict_get k' (dict_set k v d) = dict_get k' d.
Proof.
  intros Hne. induction d as [|[k0 v0] d IH]; simpl.
  - destruct (String.eqb k k') eqn:Hk; [|reflexivity].
    apply String.eqb_eq in Hk. contradiction.
  - destruct (String.eqb k0 k) eqn:Hk; simpl.
    + apply String.eqb_eq in Hk. subst k0.
      destruct (String.eqb k k') eqn:Hk'; [|reflexivity].
      apply String.eqb_eq in Hk'. contradiction.
    + now rewrite IH.
Qed.

Ltac other_key :=
  rewrite dict_get_set_other by discriminate.

(** ** The status cascade on a well-formed participant *)

Lemma participant_wf_inv (p : value) :
  participant_wf p = true ->
  exists d t c b,
    p = VDict d /\ dict_get "tag" d = Some t /\
    dict_get "collectionDayBattlesPlayed" d = Some (VInt c) /\
    dict_get "battlesPlayed" d = Some (VInt b).
Proof.
  destruct p as [| | | |l|d]; try discriminate.
  unfold participant_wf.
  destruct (dict_get "tag" d) as [t|] eqn:Ht;
    destruct (dict_get "collectionDayBattlesPlayed" d)
      as [[|x|c|x|x|x]|] eqn:Hc;
    destruct (dict_get "battlesPlayed" d) as [[|y|b|y|y|y]|] eqn:Hb;
    try discriminate.
  intros _. now exists d, t, c, b.
Qed.

Lemma set_status_cascade (d : dict) (c b : Z) :
  dict_get "collectionDayBattlesPlayed" d = Some (VInt c) ->
  dict_get "battlesPlayed" d = Some (VInt b) ->
  set_status (VDict d)
  = Ok (VDict (dict_set "status" (VStr (cascade c b)) d)).
Proof.
  intros Hc Hb. unfold set_status, cascade, subscript.
  rewrite Hc, Hb. cbn [rbind py_eq py_lt].
  destruct (c =? 0)%Z; [reflexivity|].
  destruct (b =? 0)%Z; [reflexivity|].
  destruct (c <? 3)%Z; reflexivity.
Qed.

Lemma set_status_classified (p : value) :
  participant_wf p = true -> set_status p = Ok (classified p).
Proof.
  intros Hwf.
  destruct (participant_wf_inv p Hwf) as (d & t & c & b & -> & _ & Hc & Hb).
  unfold classified. rewrite Hc, Hb. now apply set_status_cascade.
Qed.

Lemma classified_wf (p : value) :
  participant_wf p = true -> participant_wf (classified p) = true.
Proof.
  intros Hwf.
  destruct (participant_wf_inv p Hwf) as (d & t & c & b & -> & Ht & Hc & Hb).
  unfold classified. rewrite Hc, Hb. simpl.
  repeat other_key. now rewrite Ht, Hc, Hb.
Qed.

Lemma classified_tag (member_tag p : value) :
  participant_wf p = true ->
  tag_matches member_tag (classified p) = tag_matches member_tag p.
Proof.
  intros Hwf.
  destruct (participant_wf_inv p Hwf) as (d & t & c & b & -> & Ht & Hc & Hb).
  unfold classified, tag_matches. rewrite Hc, Hb. simpl.
  other_key. reflexivity.
Qed.

Lemma participant_after_wf (member_tag p : value) :
  participant_wf p = true ->
  participant_wf (participant_after member_tag p) = true.
Proof.
  intros Hwf. unfold participant_after.
  destruct (tag_matches member_tag p); [now apply classified_wf | exact Hwf].
Qed.

Lemma dict_set_twice (k : string) (v v' : value) (d : dict) :
  dict_set k v (dict_set k v' d) = dict_set k v d.
Proof.
  induction d as [|[k0 v0] d IH]; simpl.
  - now rewrite String.eqb_refl.
  - destruct (String.eqb k0 k) eqn:Hk; simpl.
    + now rewrite String.eqb_refl.
    + now rewrite Hk, IH.
Qed.

(** The records a call hands out are participants of the war log itself; a
    later call that meets one of them again writes the status it already
    has, so the records held by earlier rows keep their value. *)
Lemma classified_idempotent (p : value) :
  participant_wf p = true -> classified (classified p) = classified p.
Proof.
  intros Hwf.
  destruct (participant_wf_inv p Hwf) as (d & t & c & b & -> & _ & Hc & Hb).
  unfold classified. rewrite Hc, Hb. repeat other_key. rewrite Hc, Hb.
  now rewrite dict_set_twice.
Qed.

(** ** The scan of one war *)

Lemma scan_participants_spec (member_tag : value) (members : list value) :
  forallb participant_wf members = true ->
  forall kept,
    scan_participants member_tag members kept
    = Ok (fold_left (fun kept p => if tag_matches member_tag p
                                   then classified p else kept)
                    members kept,
          map (participant_after member_tag) members).
Proof.
  induction members as [|p members IH]; intros Hwf kept; [reflexivity|].
  simpl in Hwf. apply andb_prop in Hwf as [Hp Hrest].
  pose proof (set_status_classified p Hp) as Hset.
  destruct (participant_wf_inv p Hp) as (d & t & c & b & Hd & Ht & _ & _).
  cbn [scan_participants fold_left map]. unfold participant_after, tag_matches.
  subst p. cbn [subscript]. rewrite Ht. cbn [rbind].
  destruct (py_eq t member_tag).
  - rewrite Hset. cbn [rbind]. rewrite (IH Hrest). reflexivity.
  - rewrite (IH Hrest). reflexivity.
Qed.

Lemma war_wf_inv (war : value) :
  war_wf war = true ->
  exists w ps, war = VDict w /\ dict_get "participants" w = Some (VList ps) /\
               forallb participant_wf ps = true.
Proof.
  destruct war as [| | | |l|w]; try discriminate.
  unfold war_wf.
  destruct (dict_get "participants" w) as [[|x|x|x|ps|x]|] eqn:Hps;
    try discriminate.
  intros H. now exists w, ps.
Qed.

Lemma member_warlog_war_spec (member_tag war : value) :
  war_wf war = true ->
  member_warlog_war member_tag war
  = Ok (participation_of member_tag war, war_after member_tag war).
Proof.
  intros Hwf. destruct (war_wf_inv war Hwf) as (w & ps & -> & Hps & Hall).
  unfold member_warlog_war, participation_of, war_after, participants_of.
  cbn [subscript]. rewrite Hps. cbn [rbind py_iter].
  rewrite (scan_participants_spec member_tag ps Hall). reflexivity.
Qed.

Lemma war_after_wf (member_tag war : value) :
  war_wf war = true -> war_wf (war_after member_tag war) = true.
Proof.
  intros Hwf. destruct (war_wf_inv war Hwf) as (w & ps & -> & Hps & Hall).
  unfold war_after, participants_of. rewrite Hps. simpl.
  rewrite dict_get_set_same.
  rewrite forallb_forall in *. intros p' Hin.
  apply in_map_iff in Hin as (p & <- & Hin).
  apply participant_after_wf. now apply Hall.
Qed.

Lemma member_warlog_loop_spec (member_tag : value) (wars : list value) :
  forallb war_wf wars = true ->
  member_warlog_loop member_tag wars
  = Ok (map (participation_of member_tag) wars,
        map (war_after member_tag) wars).
Proof.
  induction wars as [|war wars IH]; intros Hwf; [reflexivity|].
  simpl in Hwf. apply andb_prop in Hwf as [Hwar Hrest].
  cbn [member_warlog_loop map].
  rewrite (member_warlog_war_spec member_tag war Hwar). cbn [rbind].
  rewrite (IH Hrest). reflexivity.
Qed.

(** On a well-formed war log the code computes [participation_of] war by
    war and leaves [war_after] in place of every war. *)
Lemma member_warlog_spec (member_tag : value) (wars : list value) :
  forallb war_wf wars = true ->
  member_warlog member_tag (VList wars)
  = Ok (map (participation_of member_tag) wars,
        VList (map (war_after member_tag) wars)).
Proof.
  intros Hwf. unfold member_warlog. cbn [py_iter rbind].
  rewrite (member_warlog_loop_spec member_tag wars Hwf). reflexivity.
Qed.

Lemma warlog_after_wf (member_tag : value) (wars : list value) :
  forallb war_wf wars = true ->
  forallb war_wf (map (war_after member_tag) wars) = true.
Proof.
  rewrite !forallb_forall. intros Hwf war' Hin.
  apply in_map_iff in Hin as (war & <- & Hin).
  apply war_after_wf. now apply Hwf.
Qed.

Lemma fold_left_kept (member_tag : value) (ps : list value) (kept : value) :
  Forall (fun p => tag_matches member_tag p = false) ps ->
  fold_left (fun kept p => if tag_matches member_tag p then classified p
                           else kept) ps kept = kept.
Proof.
  intros Hnone. revert kept.
  induction Hnone as [|p ps Hp _ IH]; intros kept; [reflexivity|].
  simpl. rewrite Hp. apply IH.
Qed.

Lemma Forall2_map_right {A B : Type} (R : A -> B -> Prop) (f : A -> B)
    (l : list A) :
  (forall x, In x l -> R x (f x)) -> Forall2 R l (map f l).
Proof.
  induction l as [|x l IH]; intros HR; simpl; constructor.
  - apply HR. now left.
  - apply IH. intros y Hy. apply HR. now right.
Qed.

(** Whatever the war log, a call that returns has produced one record per
    element visited. *)
Lemma member_warlog_loop_length (member_tag : value) (wars : list value) :
  forall records wars',
    member_warlog_loop member_tag wars = Ok (records, wars') ->
    List.length records = List.length wars.
Proof.
  induction wars as [|war wars IH]; intros records wars' Hrun.
  - inversion Hrun. reflexivity.
  - cbn [member_warlog_loop] in Hrun.
    destruct (member_warlog_war member_tag war) as [[p war']|e];
      [|discriminate].
    cbn [rbind] in Hrun.
    destruct (member_warlog_loop member_tag wars) as [[out rest]|e];
      [|discriminate].
    cbn [rbind] in Hrun. inversion Hrun. subst. simpl.
    f_equal. now apply (IH out rest).
Qed.

Lemma member_warlog_length (member_tag warlog : value)
    (records : list value) (warlog' : value) :
  member_warlog member_tag warlog = Ok (records, warlog') ->
  exists wars, py_iter warlog = Ok wars /\
               List.length records = List.length wars.
Proof.
  unfold member_warlog. intros Hrun.
  destruct (py_iter warlog) as [wars|e]; [|discriminate].
  cbn [rbind] in Hrun. exists wars. split; [reflexivity|].
  destruct (member_warlog_loop member_tag wars) as [[out wars']|e] eqn:Hloop;
    [|discriminate].
  cbn [rbind] in Hrun.
  assert (out = records) as <- by (destruct warlog; now inversion Hrun).
  now apply (member_warlog_loop_length member_tag wars out wars').
Qed.

(** ** Claims on member_warlog *)

(** C4: in a war where a participant carries the member's tag, the record
    emitted for that war is that participant with [status] set by the
    cascade, in this order: no collection-day battle gives [na] whatever
    [battlesPlayed] is, else no battle gives [bad], else fewer than three
    collection-day battles give [ok], else [good]. *)
Theorem member_warlog_cascade (member_tag : value) (wars : list value)
    (i : nat) (w : dict) (pre post : list value) (d : dict) (t : value)
    (c b : Z) :
  forallb war_wf wars = true ->
  nth_error wars i = Some (VDict w) ->
  dict_get "participants" w = Some (VList (pre ++ VDict d :: post)) ->
  dict_get "tag" d = Some t ->
  py_eq t member_tag = true ->
  Forall (fun p => tag_matches member_tag p = false) post ->
  dict_get "collectionDayBattlesPlayed" d = Some (VInt c) ->
  dict_get "battlesPlayed" d = Some (VInt b) ->
  exists records warlog',
    member_warlog member_tag (VList wars) = Ok (records, warlog') /\
    nth_error records i
    = Some (VDict (dict_set "status"
                     (VStr (if (c =? 0)%Z then "na"
                            else if (b =? 0)%Z then "bad"
                            else if (c <? 3)%Z then "ok"
                            else "good")) d)).
Proof.
  intros Hwf Hi Hps Ht Hmatch Hpost Hc Hb.
  eexists _, _. split; [now apply member_warlog_spec|].
  rewrite nth_error_map, Hi. cbn [option_map]. f_equal.
  unfold participation_of, participants_of. rewrite Hps.
  rewrite fold_left_app. cbn [fold_left].
  assert (tag_matches member_tag (VDict d) = true) as ->
    by (unfold tag_matches, subscript; now rewrite Ht).
  rewrite (fold_left_kept member_tag post _ Hpost).
  unfold classified. rewrite Hc, Hb. reflexivity.
Qed.

Lemma member_warlog_cascade_witness :
  exists records warlog',
    member_warlog (VStr "#A") Demo.warlog = Ok (records, warlog') /\
    nth_error records 2
    = Some (VDict (dict_set "status" (VStr "bad")
                     [("tag", VStr "#A");
                      ("collectionDayBattlesPlayed", VInt 3);
                      ("battlesPlayed", VInt 0)])).
Proof.
  apply (@member_warlog_cascade (VStr "#A") _ 2
           [("createdDate", VStr "20240111T103000.000Z");
            ("participants", VList [Demo.participant "#A" 3 0])]
           [] [] _ (VStr "#A") 3 0); try reflexivity.
  constructor.
Defined.

(** C5: the call returns one record per war, the record at each position
    being the one the loop body produces for the war at that position. *)
Theorem member_warlog_one_per_war (member_tag : value) (wars : list value) :
  forallb war_wf wars = true ->
  exists records warlog',
    member_warlog member_tag (VList wars) = Ok (records, warlog') /\
    List.length records = List.length wars /\
    forall i war, nth_error wars i = Some war ->
      exists p war',
        member_warlog_war member_tag war = Ok (p, war') /\
        nth_error records i = Some p.
Proof.
  intros Hwf. eexists _, _. split; [now apply member_warlog_spec|].
  split; [apply length_map|].
  intros i war Hi. eexists _, _. split.
  - apply member_warlog_war_spec.
    rewrite forallb_forall in Hwf. apply Hwf. eapply nth_error_In, Hi.
  - rewrite nth_error_map, Hi. reflexivity.
Qed.

Lemma member_warlog_one_per_war_witness :
  exists records warlog',
    member_warlog (VStr "#B") Demo.warlog = Ok (records, warlog') /\
    List.length records = 3 /\
    forall i war, nth_error [Demo.war "20240115T103000.000Z"
                               [Demo.participant "#A" 3 1;
                                Demo.participant "#Z" 0 0];
                             Demo.war "20240113T103000.000Z"
                               [Demo.participant "#Z" 2 1];
                             Demo.war "20240111T103000.000Z"
                               [Demo.participant "#A" 3 0]] i = Some war ->
      exists p war',
        member_warlog_war (VStr "#B") war = Ok (p, war') /\
        nth_error records i = Some p.
Proof.
  apply (@member_warlog_one_per_war (VStr "#B")). reflexivity.
Defined.

(** C6: for a war none of whose participants carries the member's tag, the
    record emitted is the dictionary with the single key [status], bound to
    [na]. *)
Theorem member_warlog_absent (member_tag : value) (wars : list value)
    (i : nat) (w : dict) (ps : list value) :
  forallb war_wf wars = true ->
  nth_error wars i = Some (VDict w) ->
  dict_get "participants" w = Some (VList ps) ->
  Forall (fun p => tag_matches member_tag p = false) ps ->
  exists records warlog',
    member_warlog member_tag (VList wars) = Ok (records, warlog') /\
    nth_error records i = Some (VDict [("status", VStr "na")]).
Proof.
  intros Hwf Hi Hps Hnone.
  eexists _, _. split; [now apply member_warlog_spec|].
  rewrite nth_error_map, Hi. cbn [option_map]. f_equal.
  unfold participation_of, participants_of. rewrite Hps.
  now rewrite (fold_left_kept member_tag ps _ Hnone).
Qed.

Lemma member_warlog_absent_witness :
  exists records warlog',
    member_warlog (VStr "#A") Demo.warlog = Ok (records, warlog') /\
    nth_error records 1 = Some (VDict [("status", VStr "na")]).
Proof.
  apply (@member_warlog_absent (VStr "#A") _ 1
           [("createdDate", VStr "20240113T103000.000Z");
            ("participants", VList [Demo.participant "#Z" 2 1])]
           [Demo.participant "#Z" 2 1]); try reflexivity.
  repeat constructor.
Defined.

Lemma participant_after_same_but_status (member_tag p : value) :
  participant_wf p = true ->
  same_but_status member_tag p (participant_after member_tag p).
Proof.
  intros Hwf. unfold same_but_status, participant_after.
  destruct (tag_matches member_tag p); [|reflexivity].
  destruct (participant_wf_inv p Hwf) as (d & t & c & b & -> & _ & Hc & Hb).
  exists d, (cascade c b). split; [reflexivity|].
  unfold classified. now rewrite Hc, Hb.
Qed.

Lemma war_after_same_but_status (member_tag war : value) :
  war_wf war = true ->
  war_same_but_status member_tag war (war_after member_tag war).
Proof.
  intros Hwf. destruct (war_wf_inv war Hwf) as (w & ps & -> & Hps & Hall).
  exists w, ps, (map (participant_after member_tag) ps).
  repeat split; try assumption.
  - unfold war_after, participants_of. now rewrite Hps.
  - apply Forall2_map_right. intros p Hin.
    apply participant_after_same_but_status.
    rewrite forallb_forall in Hall. now apply Hall.
Qed.

(** C8, as the claim states it, fails: classifying member [#A] over the
    demo war log leaves a war log that is not the one it started from. *)
Lemma member_warlog_mutates_warlog :
  exists records warlog',
    member_warlog (VStr "#A") Demo.warlog = Ok (records, warlog') /\
    warlog' <> Demo.warlog.
Proof.
  eexists _, _. split; [vm_compute; reflexivity|]. discriminate.
Qed.

(** C8, amended: the call leaves the war log with the same wars in the same
    order, every key of a war but [participants] as it was, the same
    participants in the same order, and every participant as it was except
    that those carrying the member's tag have their [status] key set. *)
Theorem member_warlog_frame (member_tag : value) (wars : list value) :
  forallb war_wf wars = true ->
  exists records wars',
    member_warlog member_tag (VList wars) = Ok (records, VList wars') /\
    Forall2 (war_same_but_status member_tag) wars wars'.
Proof.
  intros Hwf. eexists _, _. split; [now apply member_warlog_spec|].
  apply Forall2_map_right. intros war Hin.
  apply war_after_same_but_status.
  rewrite forallb_forall in Hwf. now apply Hwf.
Qed.

Lemma member_warlog_frame_witness :
  exists records wars',
    member_warlog (VStr "#A") Demo.warlog = Ok (records, VList wars') /\
    Forall2 (war_same_but_status (VStr "#A"))
            [Demo.war "20240115T103000.000Z"
               [Demo.participant "#A" 3 1; Demo.participant "#Z" 0 0];
             Demo.war "20240113T103000.000Z" [Demo.participant "#Z" 2 1];
             Demo.war "20240111T103000.000Z" [Demo.participant "#A" 3 0]]
            wars'.
Proof.
  apply (member_warlog_frame (VStr "#A")). reflexivity.
Defined.

(** ** member_danger *)

Lemma py_eq_status (s : value) (name : string) :
  py_eq s (VStr name) = match s with
                        | VStr t => String.eqb t name
                        | _ => false
                        end.
Proof. destruct s; reflexivity. Qed.

Lemma count_statuses_spec (records : list value) :
  forallb record_wf records = true ->
  forall good ok bad,
    count_statuses records good ok bad
    = Ok (good + count_status "good" records,
          ok + count_status "ok" records,
          bad + count_status "bad" records).
Proof.
  unfold count_status.
  induction records as [|war records IH]; intros Hwf good ok bad.
  - simpl. now rewrite !Nat.add_0_r.
  - simpl in Hwf. apply andb_prop in Hwf as [Hwar Hrest].
    cbn [count_statuses filter].
    destruct war as [| | | |l|d]; try discriminate.
    + cbn [py_eq has_status]. now apply IH.
    + unfold record_wf in Hwar.
      destruct (dict_get "status" d) as [s|] eqn:Hs; [|discriminate].
      cbn [py_eq subscript has_status]. rewrite Hs. cbn [rbind].
      rewrite !py_eq_status.
      destruct s as [|x|n|t|l|e]; try now apply IH.
      destruct (String.eqb t "good") eqn:Hgood.
      { apply String.eqb_eq in Hgood. subst t. cbn [String.eqb Ascii.eqb Bool.eqb].
        rewrite (IH Hrest). cbn [List.length]. f_equal. f_equal. f_equal. lia. }
      destruct (String.eqb t "ok") eqn:Hok.
      { apply String.eqb_eq in Hok. subst t. cbn [String.eqb Ascii.eqb Bool.eqb].
        rewrite (IH Hrest). cbn [List.length]. f_equal. f_equal. f_equal. lia. }
      destruct (String.eqb t "bad") eqn:Hbad.
      { rewrite (IH Hrest). cbn [List.length]. f_equal. f_equal. lia. }
      now apply IH.
Qed.

(** C3: the three counters hold the numbers of [good], [ok] and [bad]
    records ([na] records count nowhere); the flag is raised when there are
    more [bad] than [good] records, whoever the member is, and otherwise
    exactly when there is no [good] record and the donation count is zero. *)
Theorem member_danger_correct (member : value) (records : list value) :
  forallb record_wf records = true ->
  count_statuses records 0 0 0
  = Ok (count_status "good" records, count_status "ok" records,
        count_status "bad" records) /\
  (count_status "good" records < count_status "bad" records ->
   member_danger member records = Ok true) /\
  (forall donations,
      subscript member "donations" = Ok donations ->
      member_danger member records
      = Ok (Nat.ltb (count_status "good" records) (count_status "bad" records)
            || Nat.eqb (count_status "good" records) 0
               && py_eq donations (VInt 0))).
Proof.
  intros Hwf.
  pose proof (count_statuses_spec records Hwf 0 0 0) as Hcount.
  cbn [Nat.add] in Hcount. split; [exact Hcount|].
  unfold member_danger. rewrite Hcount. cbn [rbind]. split.
  - intros Hlt. apply Nat.ltb_lt in Hlt. now rewrite Hlt.
  - intros donations Hd.
    destruct (Nat.ltb (count_status "good" records)
                      (count_status "bad" records)); [reflexivity|].
    destruct (Nat.eqb (count_status "good" records) 0); [|reflexivity].
    rewrite Hd. cbn [rbind orb andb].
    now destruct (py_eq donations (VInt 0)).
Qed.

Lemma member_danger_correct_witness :
  member_danger (Demo.member "#A" "member" 100)
    [VDict [("status", VStr "bad")]; VDict [("status", VStr "good")];
     VDict [("status", VStr "bad")]; VDict [("status", VStr "na")];
     VDict [("status", VStr "bad")]]
  = Ok true.
Proof.
  apply (member_danger_correct (Demo.member "#A" "member" 100)
           [VDict [("status", VStr "bad")]; VDict [("status", VStr "good")];
            VDict [("status", VStr "bad")]; VDict [("status", VStr "na")];
            VDict [("status", VStr "bad")]]).
  - reflexivity.
  - vm_compute. lia.
Defined.

Lemma member_danger_returns (member : value) (records : list value)
    (donations : value) :
  forallb record_wf records = true ->
  subscript member "donations" = Ok donations ->
  exists flag, member_danger member records = Ok flag.
Proof.
  intros Hwf Hd. unfold member_danger.
  rewrite (count_statuses_spec records Hwf 0 0 0). cbn [rbind Nat.add].
  destruct (Nat.ltb _ _); [now exists true|].
  destruct (Nat.eqb _ _); [|now exists false].
  rewrite Hd. cbn [rbind].
  destruct (py_eq donations (VInt 0)); [now exists true | now exists false].
Qed.

Lemma participation_fold_wf (member_tag : value) (ps : list value) :
  forallb participant_wf ps = true ->
  forall kept,
    record_wf kept = true ->
    record_wf (fold_left (fun kept p => if tag_matches member_tag p
                                        then classified p else kept)
                         ps kept) = true.
Proof.
  induction ps as [|p ps IH]; intros Hwf kept Hkept; [exact Hkept|].
  simpl in Hwf. apply andb_prop in Hwf as [Hp Hrest].
  cbn [fold_left]. apply (IH Hrest).
  destruct (tag_matches member_tag p); [|exact Hkept].
  destruct (participant_wf_inv p Hp) as (d & t & c & b & -> & _ & Hc & Hb).
  unfold classified. rewrite Hc, Hb. unfold record_wf.
  now rewrite dict_get_set_same.
Qed.

Lemma participation_of_wf (member_tag : value) (wars : list value) :
  forallb war_wf wars = true ->
  forallb record_wf (map (participation_of member_tag) wars) = true.
Proof.
  rewrite !forallb_forall. intros Hwf p Hin.
  apply in_map_iff in Hin as (war & <- & Hin).
  destruct (war_wf_inv war (Hwf war Hin)) as (w & ps & -> & Hps & Hall).
  unfold participation_of, participants_of. rewrite Hps.
  now apply participation_fold_wf.
Qed.

(** ** The member loop of build_dashboard *)

Lemma member_wf_inv (member : value) :
  member_wf member = true ->
  exists d t r n,
    member = VDict d /\ dict_get "tag" d = Some t /\
    dict_get "role" d = Some r /\ dict_get "donations" d = Some n.
Proof.
  destruct member as [| | | |l|d]; try discriminate.
  unfold member_wf.
  destruct (dict_get "tag" d) as [t|] eqn:Ht;
    destruct (dict_get "role" d) as [r|] eqn:Hr;
    destruct (dict_get "donations" d) as [n|] eqn:Hn; try discriminate.
  intros _. now exists d, t, r, n.
Qed.

Lemma member_row_spec (member : value) (wars : list value) :
  member_wf member = true ->
  forallb war_wf wars = true ->
  exists row wars',
    member_row member (VList wars) = Ok (row, VList wars') /\
    forallb war_wf wars' = true /\
    row_of member row.
Proof.
  intros Hm Hwf.
  destruct (member_wf_inv member Hm) as (d & t & r & n & -> & Ht & Hr & Hn).
  unfold member_row. cbn [subscript]. rewrite Ht. cbn [rbind].
  rewrite (member_warlog_spec t wars Hwf). cbn [rbind setitem].
  set (records := map (participation_of t) wars).
  set (d1 := dict_set "warlog" (VList records) d).
  destruct (member_danger_returns (VDict d1) records n) as [flag Hflag].
  { now apply participation_of_wf. }
  { unfold d1. cbn [subscript]. other_key. now rewrite Hn. }
  rewrite Hflag. cbn [rbind setitem].
  set (d2 := dict_set "danger" (VBool flag) d1).
  assert (dict_get "role" d2 = Some r) as Hr2.
  { unfold d2, d1. repeat other_key. exact Hr. }
  cbn [subscript]. rewrite Hr2. cbn [rbind].
  remember (py_eq r (VStr "leader") || py_eq r (VStr "coLeader")) as lead
    eqn:Hlead.
  assert ((if lead then Ok (VDict (dict_set "leadership" (VBool true) d2))
           else Ok (VDict (dict_set "leadership" (VBool false) d2)))
          = Ok (VDict (dict_set "leadership" (VBool lead) d2))) as ->
    by now destruct lead.
  cbn [rbind subscript].
  set (d3 := dict_set "leadership" (VBool lead) d2).
  assert (dict_get "role" d3 = Some r) as Hr3.
  { unfold d3. other_key. exact Hr2. }
  rewrite Hr3. cbn [rbind].
  assert (dict_get "leadership" d3 = Some (VBool lead)) as Hl3
    by apply dict_get_set_same.
  clearbody d3.
  destruct (py_eq r (VStr "coLeader")) eqn:Hco; cbn [setitem rbind];
    eexists _, _; (split; [reflexivity|]);
    (split; [now apply warlog_after_wf|]);
    intros role Hrole; cbn [subscript] in Hrole; rewrite Hr in Hrole;
    inversion Hrole; subst role; rewrite Hco, <- Hlead; cbn [subscript].
  - rewrite dict_get_set_same. other_key. now rewrite Hl3.
  - now rewrite Hr3, Hl3.
Qed.

Lemma member_rows_spec (members : list value) :
  forallb member_wf members = true ->
  forall wars,
    forallb war_wf wars = true ->
    exists rows wars',
      member_rows members (VList wars) = Ok (rows, VList wars') /\
      forallb war_wf wars' = true /\
      Forall2 row_of members rows.
Proof.
  induction members as [|member members IH]; intros Hm wars Hwf.
  - exists [], wars. repeat split; [exact Hwf | constructor].
  - simpl in Hm. apply andb_prop in Hm as [Hmember Hrest].
    destruct (member_row_spec member wars Hmember Hwf)
      as (row & wars1 & Hrow & Hwf1 & Hof).
    destruct (IH Hrest wars1 Hwf1) as (rows & wars2 & Hrows & Hwf2 & Hall).
    exists (row :: rows), wars2. cbn [member_rows].
    rewrite Hrow. cbn [rbind]. rewrite Hrows. cbn [rbind].
    repeat split; [exact Hwf2 | now constructor].
Qed.

(** C7: every row of the dashboard has [leadership] true exactly when the
    role the member came with is [leader] or [coLeader], and shows that role
    with [coLeader] rewritten to [co-leader]; the flag is the one of the
    role before the rewrite. *)
Theorem member_dash_leadership (clan : dict) (members wars : list value) :
  dict_get "memberList" clan = Some (VList members) ->
  forallb member_wf members = true ->
  forallb war_wf wars = true ->
  exists rows clan' warlog',
    member_dash (VDict clan) (VList wars) = Ok (rows, clan', warlog') /\
    Forall2
      (fun member row =>
         forall role,
           subscript member "role" = Ok role ->
           subscript row "leadership"
           = Ok (VBool (py_eq role (VStr "leader")
                        || py_eq role (VStr "coLeader"))) /\
           subscript row "role"
           = Ok (if py_eq role (VStr "coLeader") then VStr "co-leader"
                 else role))
      members rows.
Proof.
  intros Hlist Hm Hwf.
  destruct (member_rows_spec members Hm wars Hwf)
    as (rows & wars' & Hrows & _ & Hall).
  unfold member_dash. cbn [subscript]. rewrite Hlist. cbn [rbind py_iter].
  rewrite Hrows. cbn [rbind].
  eexists _, _, _. split; [reflexivity | exact Hall].
Qed.

Lemma member_dash_leadership_witness :
  exists rows clan' warlog',
    member_dash Demo.clan Demo.warlog = Ok (rows, clan', warlog') /\
    Forall2
      (fun member row =>
         forall role,
           subscript member "role" = Ok role ->
           subscript row "leadership"
           = Ok (VBool (py_eq role (VStr "leader")
                        || py_eq role (VStr "coLeader"))) /\
           subscript row "role"
           = Ok (if py_eq role (VStr "coLeader") then VStr "co-leader"
                 else role))
      [Demo.member "#A" "coLeader" 100; Demo.member "#B" "member" 0] rows.
Proof.
  apply (member_dash_leadership
           [("tag", VStr "#C"); ("name", VStr "Clan");
            ("description", VStr "from the API");
            ("requiredTrophies", VInt 1000);
            ("memberList", VList [Demo.member "#A" "coLeader" 100;
                                  Demo.member "#B" "member" 0])]);
    reflexivity.
Defined.

(** ** Paths *)

Lemma strip_prefix_app (p r : path) : strip_prefix p (p ++ r) = Some r.
Proof.
  induction p as [|x p IH]; simpl; [reflexivity|].
  now rewrite String.eqb_refl.
Qed.

Lemma strip_prefix_inv (p q r : path) :
  strip_prefix p q = Some r -> q = p ++ r.
Proof.
  revert q. induction p as [|x p IH]; intros q H; simpl in *.
  - now inversion H.
  - destruct q as [|y q]; [discriminate|].
    destruct (String.eqb x y) eqn:Hxy; [|discriminate].
    apply String.eqb_eq in Hxy. subst y. f_equal. now apply IH.
Qed.

Lemma under_app (p r : path) : under p (p ++ r) = true.
Proof. unfold under. now rewrite strip_prefix_app. Qed.

Lemma under_refl (p : path) : under p p = true.
Proof. rewrite <- (app_nil_r p) at 2. apply under_app. Qed.

Lemma under_inv (p q : path) : under p q = true -> exists r, q = p ++ r.
Proof.
  unfold under. destruct (strip_prefix p q) as [r|] eqn:H; [|discriminate].
  intros _. exists r. now apply strip_prefix_inv.
Qed.

Lemma under_trans (a b c : path) :
  under a b = true -> under b c = true -> under a c = true.
Proof.
  intros Hab Hbc.
  destruct (under_inv a b Hab) as [r ->].
  destruct (under_inv _ c Hbc) as [s ->].
  rewrite <- app_assoc. apply under_app.
Qed.

Lemma under_below (p : path) (x : string) (r : path) :
  under (p ++ x :: r) p = false.
Proof.
  destruct (under (p ++ x :: r) p) eqn:H; [|reflexivity].
  apply under_inv in H as [s Hs].
  apply (f_equal (@List.length string)) in Hs.
  rewrite !length_app in Hs. simpl in Hs. lia.
Qed.

Lemma path_eqb_eq (p q : path) : path_eqb p q = true -> p = q.
Proof.
  unfold path_eqb. destruct (strip_prefix p q) as [[|x r]|] eqn:H;
    try discriminate.
  intros _. apply strip_prefix_inv in H. now rewrite app_nil_r in H.
Qed.

Lemma path_eqb_refl (p : path) : path_eqb p p = true.
Proof.
  unfold path_eqb. rewrite <- (app_nil_r p) at 2.
  now rewrite strip_prefix_app.
Qed.

Lemma under_comparable (a b q : path) :
  under a q = true -> under b q = true ->
  under a b = true \/ under b a = true.
Proof.
  revert b q. induction a as [|x a IH]; intros b q Ha Hb.
  - now left.
  - destruct b as [|y b]; [now right|].
    destruct q as [|z q]; [discriminate|].
    unfold under in *. simpl in *.
    destruct (String.eqb x z) eqn:Hxz; [|discriminate].
    destruct (String.eqb y z) eqn:Hyz; [|discriminate].
    apply String.eqb_eq in Hxz, Hyz. subst x y.
    rewrite String.eqb_refl. now apply (IH b q).
Qed.

Lemma unrelated_outside (a b q : path) :
  unrelated a b = true -> under b q = true -> under a q = false.
Proof.
  unfold unrelated. intros Hun Hb.
  apply andb_prop in Hun as [Hab Hba].
  destruct (under a q) eqn:Ha; [|reflexivity].
  destruct (under_comparable a b q Ha Hb) as [H|H]; rewrite H in *;
    discriminate.
Qed.

(** ** The file system as a function of the path *)

Lemma fs_set_at (p : path) (n : node) (f : filesystem) (q : path) :
  fs_set p n f q = if path_eqb p q then Some n else f q.
Proof. reflexivity. Qed.

Lemma fs_keep_at (keep : path -> bool) (f : filesystem) (q : path) :
  fs_keep keep f q = if keep q then f q else None.
Proof.
  unfold fs_keep. induction f as [|e f IH]; cbn [filter fs_get].
  - now destruct (keep q).
  - destruct (keep (fst e)) eqn:He; cbn [fs_get];
      destruct (path_eqb (fst e) q) eqn:Heq.
    + apply path_eqb_eq in Heq. subst q. now rewrite He.
    + exact IH.
    + apply path_eqb_eq in Heq. subst q. rewrite IH. now rewrite He.
    + exact IH.
Qed.

Lemma fs_rmtree_at (p : path) (f : filesystem) (q : path) :
  fs_rmtree p f q = if under p q then None else f q.
Proof. unfold fs_rmtree. rewrite fs_keep_at. now destruct (under p q). Qed.

Lemma fs_rmpart_at (gone : path -> bool) (p : path) (f : filesystem)
    (q : path) :
  fs_rmpart gone p f q = if inside p q && gone q then None else f q.
Proof.
  unfold fs_rmpart. rewrite fs_keep_at. now destruct (inside p q && gone q).
Qed.

Lemma fs_get_app (f g : filesystem) (q : path) :
  fs_get (f ++ g) q = match f q with
                      | Some n => Some n
                      | None => g q
                      end.
Proof.
  induction f as [|e f IH]; cbn [app fs_get]; [reflexivity|].
  now destruct (path_eqb (fst e) q).
Qed.

Lemma path_eqb_neq (p q : path) : p <> q -> path_eqb p q = false.
Proof.
  intros Hne. destruct (path_eqb p q) eqn:Heq; [|reflexivity].
  apply path_eqb_eq in Heq. contradiction.
Qed.

Lemma fs_graft_at (copied : path -> bool) (src dst : path) (f : filesystem)
    (q : path) :
  fs_graft copied src dst f q
  = match strip_prefix dst q with
    | Some rel => if copied rel then f (src ++ rel) else None
    | None => f q
    end.
Proof.
  unfold fs_graft. rewrite fs_get_app, fs_rmtree_at. unfold under.
  match goal with
  | |- context [fs_get (flat_map ?g f) q] =>
      assert (fs_get (flat_map g f) q
              = match strip_prefix dst q with
                | Some rel => if copied rel then f (src ++ rel) else None
                | None => None
                end) as ->
  end.
  2:{ destruct (strip_prefix dst q) as [rel|]; [|reflexivity].
      destruct (copied rel); [|reflexivity].
      now destruct (f (src ++ rel)). }
  induction f as [|e f IH]; cbn [flat_map].
  - cbn [fs_get]. destruct (strip_prefix dst q) as [rel|]; [|reflexivity].
    now destruct (copied rel).
  - rewrite fs_get_app, IH. clear IH. cbn [fs_get].
    destruct (strip_prefix src (fst e)) as [rel'|] eqn:Hsrc.
    + apply strip_prefix_inv in Hsrc.
      destruct (copied rel') eqn:Hc.
      * cbn [fs_get fst snd].
        destruct (path_eqb (dst ++ rel') q) eqn:Heq.
        -- apply path_eqb_eq in Heq. subst q.
           now rewrite strip_prefix_app, Hc, Hsrc, path_eqb_refl.
        -- destruct (strip_prefix dst q) as [rel|] eqn:Hdst; [|reflexivity].
           destruct (copied rel); [|reflexivity].
           rewrite path_eqb_neq; [reflexivity|].
           rewrite Hsrc. intros Heq'. apply app_inv_head in Heq'. subst rel'.
           apply strip_prefix_inv in Hdst. subst q.
           now rewrite path_eqb_refl in Heq.
      * cbn [fs_get].
        destruct (strip_prefix dst q) as [rel|] eqn:Hdst; [|reflexivity].
        destruct (copied rel) eqn:Hc'; [|reflexivity].
        rewrite path_eqb_neq; [reflexivity|].
        rewrite Hsrc. intros Heq'. apply app_inv_head in Heq'. congruence.
    + cbn [fs_get].
      destruct (strip_prefix dst q) as [rel|] eqn:Hdst; [|reflexivity].
      destruct (copied rel); [|reflexivity].
      rewrite path_eqb_neq; [reflexivity|].
      intros Heq'. rewrite Heq', strip_prefix_app in Hsrc. discriminate.
Qed.

Lemma fs_copytree_at (src dst : path) (f : filesystem) (q : path) :
  fs_copytree src dst f q
  = match strip_prefix dst q with
    | Some rel => f (src ++ rel)
    | None => f q
    end.
Proof. unfold fs_copytree. now rewrite fs_graft_at. Qed.

Lemma fs_copypart_at (copied : path -> bool) (src dst : path)
    (f : filesystem) (q : path) :
  fs_copypart copied src dst f q
  = match strip_prefix dst q with
    | Some [] => f src
    | Some (x :: rel) => if copied (x :: rel) then f (src ++ x :: rel)
                         else None
    | None => f q
    end.
Proof.
  unfold fs_copypart. rewrite fs_graft_at.
  destruct (strip_prefix dst q) as [[|x rel]|]; try reflexivity.
  now rewrite app_nil_r.
Qed.

Lemma has_entry_below (f : filesystem) (p q : path) (n : node) :
  f q = Some n -> inside p q = true -> has_entry f p = true.
Proof.
  intros Hq Hin. unfold has_entry. induction f as [|e f IH];
    cbn [fs_get existsb] in *; [discriminate|].
  destruct (path_eqb (fst e) q) eqn:Heq.
  - apply path_eqb_eq in Heq. subst q. now rewrite Hin.
  - rewrite (IH Hq). apply orb_true_r.
Qed.

(** ** What a computation may change and may raise *)

Lemma raises_only_ok {A : Type} (P : exn -> Prop) (a : A) :
  raises_only P (Ok a).
Proof. intros e H. discriminate. Qed.

Lemma raises_only_err {A : Type} (P : exn -> Prop) (e : exn) :
  P e -> raises_only P (@Err A e).
Proof. intros HP e' H. now inversion H; subst. Qed.

Lemma raises_only_rbind {A B : Type} (P : exn -> Prop) (r : result A)
    (k : A -> result B) :
  raises_only P r -> (forall a, raises_only P (k a)) ->
  raises_only P (rbind r k).
Proof.
  intros Hr Hk. destruct r as [a|e]; simpl; [apply Hk|].
  apply raises_only_err. now apply Hr.
Qed.

Section Steps.

Variable R : world -> world -> Prop.
Variable P : exn -> Prop.
Hypothesis R_refl : forall w, R w w.
Hypothesis R_trans : forall w1 w2 w3, R w1 w2 -> R w2 w3 -> R w1 w3.

Lemma steps_ret {A : Type} (a : A) : steps R P (ret a).
Proof. intros w. split; [apply R_refl | apply raises_only_ok]. Qed.

Lemma steps_lift {A : Type} (r : result A) :
  raises_only P r -> steps R P (lift r).
Proof. intros Hr w. split; [apply R_refl | exact Hr]. Qed.

Lemma steps_bind {A B : Type} (m : M A) (k : A -> M B) :
  steps R P m -> (forall a, steps R P (k a)) -> steps R P (bind m k).
Proof.
  intros Hm Hk w. unfold bind. destruct (Hm w) as [HR HP].
  destruct (m w) as [[a|e] w']; simpl in *.
  - destruct (Hk a w') as [HR' HP']. split; [|exact HP'].
    eapply R_trans; eassumption.
  - split; [exact HR|]. apply raises_only_err. now apply HP.
Qed.

Lemma steps_if {A : Type} (b : bool) (m1 m2 : M A) :
  steps R P m1 -> steps R P m2 -> steps R P (if b then m1 else m2).
Proof. now destruct b. Qed.

End Steps.


(** ** No function of the analysis raises a [NameError] *)

Ltac nne :=
  repeat match goal with
         | |- raises_only _ (Ok _) => apply raises_only_ok
         | |- raises_only _ (Err _) => apply raises_only_err; exact I
         | |- raises_only _ (rbind _ _) => apply raises_only_rbind; [|intros]
         | |- raises_only _ (match ?x with _ => _ end) => destruct x
         | H : _ |- _ => solve [apply H]
         end.

Lemma subscript_nne (o : value) (k : string) :
  raises_only not_name_error (subscript o k).
Proof. unfold subscript. nne. Qed.

Lemma setitem_nne (o : value) (k : string) (v : value) :
  raises_only not_name_error (setitem o k v).
Proof. unfold setitem. nne. Qed.

Lemma py_lt_nne (a : value) (n : Z) : raises_only not_name_error (py_lt a n).
Proof. unfold py_lt. nne. Qed.

Lemma py_iter_nne (o : value) : raises_only not_name_error (py_iter o).
Proof. unfold py_iter. nne. Qed.

Lemma of_option_nne {A : Type} (o : option A) (e : exn) :
  not_name_error e -> raises_only not_name_error (of_option o e).
Proof.
  intros He. destruct o; simpl; [apply raises_only_ok|].
  now apply raises_only_err.
Qed.

Create HintDb nne.
#[local] Hint Resolve subscript_nne setitem_nne py_lt_nne py_iter_nne : nne.

Ltac nne' := repeat (nne; try solve [auto with nne]).

Lemma set_status_nne (member : value) :
  raises_only not_name_error (set_status member).
Proof. unfold set_status. nne'. Qed.

#[local] Hint Resolve set_status_nne : nne.

Lemma scan_participants_nne (member_tag : value) (members : list value) :
  forall kept,
    raises_only not_name_error (scan_participants member_tag members kept).
Proof.
  induction members as [|member members IH]; intros kept;
    cbn [scan_participants]; nne'.
Qed.

#[local] Hint Resolve scan_participants_nne : nne.

Lemma member_warlog_war_nne (member_tag war : value) :
  raises_only not_name_error (member_warlog_war member_tag war).
Proof. unfold member_warlog_war. nne'. Qed.

#[local] Hint Resolve member_warlog_war_nne : nne.

Lemma member_warlog_loop_nne (member_tag : value) (wars : list value) :
  raises_only not_name_error (member_warlog_loop member_tag wars).
Proof.
  induction wars as [|war wars IH]; cbn [member_warlog_loop]; nne'.
Qed.

#[local] Hint Resolve member_warlog_loop_nne : nne.

Lemma member_warlog_nne (member_tag warlog : value) :
  raises_only not_name_error (member_warlog member_tag warlog).
Proof. unfold member_warlog. nne'. Qed.

#[local] Hint Resolve member_warlog_nne : nne.

Lemma count_statuses_nne (records : list value) :
  forall good ok bad,
    raises_only not_name_error (count_statuses records good ok bad).
Proof.
  induction records as [|war records IH]; intros good ok bad;
    cbn [count_statuses]; nne'.
Qed.

#[local] Hint Resolve count_statuses_nne : nne.

Lemma member_danger_nne (member : value) (records : list value) :
  raises_only not_name_error (member_danger member records).
Proof. unfold member_danger. nne'. Qed.

#[local] Hint Resolve member_danger_nne : nne.

Lemma member_row_nne (member warlog : value) :
  raises_only not_name_error (member_row member warlog).
Proof. unfold member_row. nne'. Qed.

#[local] Hint Resolve member_row_nne : nne.

Lemma member_rows_nne (members : list value) :
  forall warlog, raises_only not_name_error (member_rows members warlog).
Proof.
  induction members as [|member members IH]; intros warlog;
    cbn [member_rows]; nne'.
Qed.

#[local] Hint Resolve member_rows_nne : nne.

Lemma member_dash_nne (clan warlog : value) :
  raises_only not_name_error (member_dash clan warlog).
Proof. unfold member_dash. nne'. Qed.

Lemma page_title_nne (clan_name : value) :
  raises_only not_name_error (page_title clan_name).
Proof. unfold page_title. nne. Qed.

Lemma warlog_dates_nne (E : externals) (warlog : value) :
  raises_only not_name_error (warlog_dates E warlog).
Proof.
  unfold warlog_dates. apply raises_only_rbind; [apply py_iter_nne|].
  intros wars. induction wars as [|war wars IH]; cbn [warlog_dates_loop].
  - apply raises_only_ok.
  - apply raises_only_rbind; [apply subscript_nne|]. intros created.
    apply raises_only_rbind; [destruct created; nne|]. intros stamp.
    apply raises_only_rbind; [now apply of_option_nne|]. intros label.
    apply raises_only_rbind; [exact IH|]. intros labels.
    apply raises_only_ok.
Qed.

(** ** The staging steps stay below the temporary directory *)

Lemma with_fs_same (w : world) : with_fs w (fs w) = w.
Proof. now destruct w. Qed.

Lemma fs_below_refl (tempdir : path) (f : filesystem) : fs_below tempdir f f.
Proof. intros Hdir. split; auto. Qed.

Lemma fs_below_trans (tempdir : path) (f1 f2 f3 : filesystem) :
  fs_below tempdir f1 f2 -> fs_below tempdir f2 f3 -> fs_below tempdir f1 f3.
Proof.
  intros H12 H23 Hdir. destruct (H12 Hdir) as [F12 D12].
  destruct (H23 D12) as [F23 D23]. split; [|exact D23].
  intros q Hq. now rewrite F23, F12.
Qed.

Lemma stays_below_refl (tempdir : path) (w : world) : stays_below tempdir w w.
Proof. apply fs_below_refl. Qed.

Lemma stays_below_trans (tempdir : path) (w1 w2 w3 : world) :
  stays_below tempdir w1 w2 -> stays_below tempdir w2 w3 ->
  stays_below tempdir w1 w3.
Proof. apply fs_below_trans. Qed.

Lemma keeps_dir_refl (tempdir : path) (w : world) : keeps_dir tempdir w w.
Proof. unfold keeps_dir. auto. Qed.

Lemma keeps_dir_trans (tempdir : path) (w1 w2 w3 : world) :
  keeps_dir tempdir w1 w2 -> keeps_dir tempdir w2 w3 -> keeps_dir tempdir w1 w3.
Proof. unfold keeps_dir. auto. Qed.

Lemma below_app (tempdir : path) (x : string) (r : path) :
  below tempdir (tempdir ++ x :: r).
Proof. split; [apply under_app | apply under_below]. Qed.

Lemma below_inv (tempdir p : path) :
  below tempdir p -> exists x r, p = tempdir ++ x :: r.
Proof.
  intros [Hin Hstrict]. apply under_inv in Hin as [[|x r] ->]; [|eauto].
  rewrite app_nil_r, under_refl in Hstrict. discriminate.
Qed.

Lemma inside_app (p : path) (x : string) (r : path) :
  inside p (p ++ x :: r) = true.
Proof.
  unfold inside. rewrite under_app. rewrite path_eqb_neq; [reflexivity|].
  intros H. rewrite <- (app_nil_r p) in H at 1. apply app_inv_head in H.
  discriminate.
Qed.

Lemma inside_under (p q : path) : inside p q = true -> under p q = true.
Proof. unfold inside. intros H. now apply andb_prop in H as [H _]. Qed.

Lemma inside_irrefl (p : path) : inside p p = false.
Proof. unfold inside. now rewrite under_refl, path_eqb_refl. Qed.

Ltac below_tac :=
  unfold join; rewrite <- ?app_assoc; cbn [app]; apply below_app.

(** *** os.mkdir and os.makedirs *)

Lemma mkdir_changes (p : path) (f f' : filesystem) (r : result unit) :
  mkdir p f = (r, f') ->
  f' = f \/ (f p = None /\ f' = fs_set p (Dir mode_dir) f).
Proof.
  unfold mkdir. destruct p as [|x p]; [intros H; inversion H; now left|].
  destruct (f (x :: p)) eqn:Hp; [intros H; inversion H; now left|].
  destruct (removelast (x :: p)) as [|y h].
  - intros H. inversion H. right. now split.
  - destruct (f (y :: h)) as [[st d|st]|]; intros H; inversion H; auto.
Qed.

Lemma mkdir_at (p : path) (f f' : filesystem) (r : result unit) :
  mkdir p f = (r, f') ->
  forall q, f' q = f q \/
            (q = p /\ f q = None /\ f' q = Some (Dir mode_dir)).
Proof.
  intros H q. apply mkdir_changes in H as [->|[Hp ->]]; [now left|].
  rewrite fs_set_at. destruct (path_eqb p q) eqn:Heq; [|now left].
  apply path_eqb_eq in Heq. subst q. now right.
Qed.

Lemma mkdir_raises (p : path) (f : filesystem) :
  raises_only not_name_error (fst (mkdir p f)).
Proof.
  unfold mkdir.
  repeat match goal with
         | |- context [match ?x with _ => _ end] => destruct x
         end;
    cbn [fst]; first [apply raises_only_ok | now apply raises_only_err].
Qed.

Lemma makedirs_fs_top (n : nat) (p : path) (f : filesystem) :
  removelast p = [] -> makedirs_fs n p f = mkdir p f.
Proof. intros H. destruct n; cbn [makedirs_fs]; [reflexivity|]. now rewrite H. Qed.

Lemma makedirs_fs_head (n : nat) (p : path) (f : filesystem) :
  removelast p <> [] ->
  makedirs_fs (S n) p f
  = match f (removelast p) with
    | Some _ => mkdir p f
    | None => match makedirs_fs n (removelast p) f with
              | (Ok _, f') => mkdir p f'
              | (Err e, f') => (Err e, f')
              end
    end.
Proof.
  intros H. cbn [makedirs_fs]. destruct (removelast p); [contradiction|].
  reflexivity.
Qed.

Lemma under_removelast (p : path) : under (removelast p) p = true.
Proof.
  destruct p as [|x p]; [reflexivity|].
  rewrite (app_removelast_last EmptyString (l := x :: p)) at 2
    by discriminate.
  apply under_app.
Qed.

Lemma makedirs_fs_raises (n : nat) (p : path) (f : filesystem) :
  raises_only not_name_error (fst (makedirs_fs n p f)).
Proof.
  revert p f. induction n as [|n IH]; intros p f; [apply mkdir_raises|].
  destruct (removelast p) as [|y h] eqn:Hh.
  - rewrite makedirs_fs_top by exact Hh. apply mkdir_raises.
  - rewrite makedirs_fs_head by (rewrite Hh; discriminate).
    destruct (f (removelast p)); [apply mkdir_raises|].
    specialize (IH (removelast p) f).
    destruct (makedirs_fs n (removelast p) f) as [[u|e] f1];
      [apply mkdir_raises | exact IH].
Qed.

(** [os.makedirs] makes directories only, with the default mode, at the
    path and at the parents of it that were missing. *)
Lemma makedirs_fs_changes (n : nat) (p : path) (f f' : filesystem)
    (r : result unit) :
  makedirs_fs n p f = (r, f') ->
  forall q, f' q = f q \/
            (under q p = true /\ f q = None /\ f' q = Some (Dir mode_dir)).
Proof.
  revert p f f' r. induction n as [|n IH]; intros p f f' r H q.
  - destruct (mkdir_at _ _ _ _ H q) as [Hq|(-> & Hq)]; [now left|].
    right. now rewrite under_refl.
  - assert (forall f0, mkdir p f0 = (r, f') ->
                       (f0 q = f q \/
                        (under q (removelast p) = true /\ f q = None /\
                         f0 q = Some (Dir mode_dir))) ->
                       f' q = f q \/
                       (under q p = true /\ f q = None /\
                        f' q = Some (Dir mode_dir))) as Hlast.
    { intros f0 Hmk Hq0.
      destruct (mkdir_at _ _ _ _ Hmk q) as [Hq|(-> & Hnone & Hq)].
      - rewrite Hq. destruct Hq0 as [Hq0|(Hu & Hq0)]; [now left|].
        right. split; [|exact Hq0].
        exact (under_trans _ _ _ Hu (under_removelast p)).
      - right. rewrite under_refl. split; [reflexivity|]. split; [|exact Hq].
        destruct Hq0 as [Hq0|(_ & Hq0 & _)]; congruence. }
    destruct (removelast p) as [|y h] eqn:Hh.
    + rewrite makedirs_fs_top in H by exact Hh. apply (Hlast f H). now left.
    + rewrite makedirs_fs_head in H by (rewrite Hh; discriminate).
      rewrite Hh in H.
      destruct (f (y :: h)); [apply (Hlast f H); now left|].
      destruct (makedirs_fs n (y :: h) f) as [[u|e] f1] eqn:Hrec.
      * apply (Hlast f1 H). apply (IH _ _ _ _ Hrec).
      * inversion H. subst r f'.
        destruct (IH _ _ _ _ Hrec q) as [Hq|(Hu & Hq)]; [now left|].
        right. split; [|exact Hq].
        rewrite <- Hh in Hu.
        exact (under_trans _ _ _ Hu (under_removelast p)).
Qed.

(** Below a path that exists, [os.makedirs] makes nothing above it. *)
Lemma makedirs_fs_below (n : nat) (tempdir : path) (x : string)
    (rest : path) (f f' : filesystem) (r : result unit) :
  f tempdir <> None ->
  makedirs_fs n (tempdir ++ x :: rest) f = (r, f') ->
  forall q, f' q = f q \/
            (inside tempdir q = true /\ f q = None /\
             f' q = Some (Dir mode_dir)).
Proof.
  intros Htd. revert rest f' r.
  assert (forall rest f0 f' r,
             mkdir (tempdir ++ x :: rest) f0 = (r, f') ->
             (forall q, f0 q = f q \/
                        (inside tempdir q = true /\ f q = None /\
                         f0 q = Some (Dir mode_dir))) ->
             forall q, f' q = f q \/
                       (inside tempdir q = true /\ f q = None /\
                        f' q = Some (Dir mode_dir))) as Hlast.
  { intros rest f0 f' r Hmk H0 q.
    destruct (mkdir_at _ _ _ _ Hmk q) as [->|(-> & Hnone & Hq)];
      [apply H0|].
    right. split; [apply inside_app|]. split; [|exact Hq].
    destruct (H0 (tempdir ++ x :: rest)) as [H|(_ & H & _)]; congruence. }
  induction n as [|n IH]; intros rest f' r H.
  - apply (Hlast rest f f' r H). now left.
  - destruct rest as [|y rest].
    + destruct tempdir as [|a t].
      * rewrite makedirs_fs_top in H by reflexivity.
        apply (Hlast [] f f' r H). now left.
      * rewrite makedirs_fs_head in H
          by (rewrite removelast_app by discriminate; discriminate).
        rewrite removelast_app in H by discriminate.
        cbn [removelast] in H. rewrite app_nil_r in H.
        destruct (f (a :: t)); [|contradiction].
        apply (Hlast [] f f' r H). now left.
    + assert (removelast (tempdir ++ x :: y :: rest)
              = tempdir ++ x :: removelast (y :: rest)) as Hh.
      { now rewrite removelast_app by discriminate. }
      rewrite makedirs_fs_head in H
        by (rewrite Hh; destruct tempdir; discriminate).
      rewrite Hh in H.
      destruct (f (tempdir ++ x :: removelast (y :: rest)));
        [apply (Hlast _ f f' r H); now left|].
      destruct (makedirs_fs n (tempdir ++ x :: removelast (y :: rest)) f)
        as [[u|e] f1] eqn:Hrec.
      * apply (Hlast _ f1 f' r H). exact (IH _ _ _ Hrec).
      * inversion H. subst r f'. exact (IH _ _ _ Hrec).
Qed.

Lemma is_dir_exists (n : option node) : is_dir n -> n <> None.
Proof. now destruct n. Qed.

Lemma makedirs_fs_stays_below (n : nat) (tempdir p : path)
    (f : filesystem) :
  below tempdir p -> fs_below tempdir f (snd (makedirs_fs n p f)).
Proof.
  intros Hp Hdir. apply below_inv in Hp as (x & rest & ->).
  destruct (makedirs_fs n (tempdir ++ x :: rest) f) as [r f'] eqn:Hrun.
  pose proof (makedirs_fs_below _ _ _ _ _ _ _ (is_dir_exists _ Hdir) Hrun)
    as Hch.
  cbn [snd]. split.
  - intros q Hq. destruct (Hch q) as [H|(Hin & _)]; [exact H|].
    apply inside_under in Hin. congruence.
  - destruct (Hch tempdir) as [->|(Hin & _)]; [exact Hdir|].
    now rewrite inside_irrefl in Hin.
Qed.

Lemma set_fs_below (tempdir p : path) (n : node) (f : filesystem) :
  below tempdir p -> fs_below tempdir f (fs_set p n f).
Proof.
  intros [Hin Hstrict] Hdir. split.
  - intros q Hq. rewrite fs_set_at.
    destruct (path_eqb p q) eqn:Hpq; [|reflexivity].
    apply path_eqb_eq in Hpq. subst q. congruence.
  - rewrite fs_set_at. destruct (path_eqb p tempdir) eqn:Hpq; [|exact Hdir].
    apply path_eqb_eq in Hpq. subst p. rewrite under_refl in Hstrict.
    discriminate.
Qed.

Lemma graft_fs_below (tempdir : path) (part : path -> bool)
    (src dst : path) (f : filesystem) :
  below tempdir dst -> fs_below tempdir f (fs_graft part src dst f).
Proof.
  intros [Hin Hstrict] Hdir. split.
  - intros q Hq. rewrite fs_graft_at.
    destruct (strip_prefix dst q) as [rel|] eqn:Hrel; [|reflexivity].
    assert (under dst q = true) as Hdq by (unfold under; now rewrite Hrel).
    rewrite (under_trans _ _ _ Hin Hdq) in Hq. discriminate.
  - rewrite fs_graft_at. unfold under in Hstrict.
    now destruct (strip_prefix dst tempdir).
Qed.

(** *** What shutil.copytree and shutil.rmtree may do *)

(** [copytree] raises an [OSError] or returns, issues no request, and
    leaves the file system as it was, or as [os.makedirs] left it, or with
    a part of the tree set down on that. *)
Lemma copytree_shape (E : externals) (src dst : path) (w : world) :
  raises_only not_name_error (fst (copytree E src dst w)) /\
  requests (snd (copytree E src dst w)) = requests w /\
  (fs (snd (copytree E src dst w)) = fs w \/
   exists r f',
     makedirs_fs (List.length dst) dst (fs w) = (r, f') /\
     (fs (snd (copytree E src dst w)) = f' \/
      exists part, fs (snd (copytree E src dst w))
                   = fs_graft part src dst f')).
Proof.
  unfold copytree.
  destruct (fs w src) as [[st data|st]|];
    try (repeat split; [now apply raises_only_err | now left]).
  destruct (fs w dst) as [m|];
    try (repeat split; [now apply raises_only_err | now left]).
  destruct (negb (root E || owner_r st));
    try (repeat split; [now apply raises_only_err | now left]).
  pose proof (makedirs_fs_raises (List.length dst) dst (fs w)) as Hraise.
  destruct (makedirs_fs (List.length dst) dst (fs w)) as [[u|e] f'] eqn:Hmk;
    cbn [fst] in Hraise.
  2:{ repeat split; [exact Hraise|]. right. exists (Err e), f'.
      split; [reflexivity | now left]. }
  destruct (fault E (Copytree src dst)) as [what|].
  - destruct (copied E src dst []).
    + repeat split; [now apply raises_only_err|]. right.
      exists (Ok u), f'. split; [reflexivity|]. right. eexists.
      reflexivity.
    + repeat split; [now apply raises_only_err | now left].
  - destruct (root E || readable f' src).
    + repeat split; [apply raises_only_ok|]. right.
      exists (Ok u), f'. split; [reflexivity|]. right. eexists.
      reflexivity.
    + repeat split; [now apply raises_only_err|]. right.
      exists (Ok u), f'. split; [reflexivity|]. right. eexists.
      reflexivity.
Qed.

(** [rmtree] raises an [OSError] or returns, issues no request, and keeps
    of the file system a part that has everything outside the tree. *)
Lemma rmtree_shape (E : externals) (p : path) (w : world) :
  raises_only not_name_error (fst (rmtree E p w)) /\
  requests (snd (rmtree E p w)) = requests w /\
  (fs (snd (rmtree E p w)) = fs w \/
   exists keep,
     (forall q, under p q = false -> keep q = true) /\
     fs (snd (rmtree E p w)) = fs_keep keep (fs w)).
Proof.
  assert (forall gone q, under p q = false ->
                         negb (inside p q && gone q) = true) as Hpart.
  { intros gone q Hq. unfold inside. now rewrite Hq. }
  assert (forall q, under p q = false -> negb (under p q) = true) as Hall.
  { intros q Hq. now rewrite Hq. }
  unfold rmtree.
  destruct (fs w p) as [[st data|st]|];
    try (repeat split; [now apply raises_only_err | now left]).
  destruct (fault E (Rmtree p)) as [what|].
  - repeat split; [now apply raises_only_err|]. right. eexists.
    split; [apply (Hpart (removed E p)) | reflexivity].
  - destruct (root E || removable (fs w) p).
    + repeat split; [apply raises_only_ok|]. right. eexists.
      split; [apply Hall | reflexivity].
    + repeat split; [now apply raises_only_err|]. right. eexists.
      split; [apply (Hpart (removed E p)) | reflexivity].
Qed.

Section Staging.

Variable E : externals.
Variable tempdir : path.

Local Abbreviation staged := (steps (stays_below tempdir) not_name_error).

Lemma fscall_staged {A : Type} (op : fsop)
    (act : filesystem -> result A * filesystem) :
  (forall w, stays_below tempdir w (with_fs w (snd (act (fs w)))) /\
             raises_only not_name_error (fst (act (fs w)))) ->
  staged (fscall E op act).
Proof.
  intros Hact w. unfold fscall. destruct (fault E op) as [what|].
  - split; [apply stays_below_refl | now apply raises_only_err].
  - specialize (Hact w). destruct (act (fs w)) as [r f']. exact Hact.
Qed.

Ltac fs_cases :=
  repeat match goal with
         | |- context [match ?x with _ => _ end] => destruct x
         end;
  cbn [fst snd]; rewrite ?with_fs_same;
  (split;
   [first [apply stays_below_refl | now apply set_fs_below]
   | first [apply raises_only_ok | now apply raises_only_err]]).

Lemma makedirs_staged (p : path) : below tempdir p -> staged (makedirs E p).
Proof.
  intros Hp. apply fscall_staged. intros w. split.
  - now apply makedirs_fs_stays_below.
  - apply makedirs_fs_raises.
Qed.

Lemma copytree_staged (src dst : path) :
  below tempdir dst -> staged (copytree E src dst).
Proof.
  intros Hp w.
  destruct (copytree_shape E src dst w) as (Hraise & _ & Hfs).
  split; [|exact Hraise]. unfold stays_below.
  destruct Hfs as [->|(r & f' & Hmk & Hfs)]; [apply fs_below_refl|].
  pose proof (makedirs_fs_stays_below (List.length dst) tempdir dst (fs w)
                Hp) as Hbelow.
  rewrite Hmk in Hbelow. cbn [snd] in Hbelow.
  destruct Hfs as [->|(part & ->)]; [exact Hbelow|].
  eapply fs_below_trans; [exact Hbelow|]. now apply graft_fs_below.
Qed.

Lemma copyfile_staged (src dst : path) :
  below tempdir dst -> staged (copyfile E src dst).
Proof. intros Hp. apply fscall_staged. intros w. fs_cases. Qed.

Lemma open_w_staged (p : path) : below tempdir p -> staged (open_w E p).
Proof. intros Hp. apply fscall_staged. intros w. fs_cases. Qed.

Lemma write_staged (p : path) (s : string) :
  below tempdir p -> staged (write E p s).
Proof. intros Hp. apply fscall_staged. intros w. fs_cases. Qed.

Lemma read_text_staged (p : path) : staged (read_text E p).
Proof. apply fscall_staged. intros w. fs_cases. Qed.

Lemma isfile_staged (p : path) : staged (isfile p).
Proof.
  intros w. split; [apply stays_below_refl | apply raises_only_ok].
Qed.

Lemma requests_get_staged (url : string) (headers : list (string * string)) :
  staged (requests_get E url headers).
Proof.
  intros w. split.
  - split; auto.
  - now apply of_option_nne.
Qed.

Lemma staged_bind {A B : Type} (m : M A) (k : A -> M B) :
  staged m -> (forall a, staged (k a)) -> staged (bind m k).
Proof.
  apply steps_bind, stays_below_trans.
Qed.

Lemma staged_ret {A : Type} (a : A) : staged (ret a).
Proof. apply steps_ret, stays_below_refl. Qed.

Lemma staged_lift {A : Type} (r : result A) :
  raises_only not_name_error r -> staged (lift r).
Proof. apply steps_lift, stays_below_refl. Qed.

(** The call sites of [write_object_to_file] pass text. *)
Lemma write_text_staged (p : path) (s : string) :
  below tempdir p -> staged (write_object_to_file E p (VStr s)).
Proof.
  intros Hp. unfold write_object_to_file.
  apply staged_bind; [now apply open_w_staged|]. intros _.
  apply staged_bind; [apply staged_ret|]. intros t.
  now apply write_staged.
Qed.

Lemma get_clan_staged (api_key clan_id : string) :
  staged (get_clan E api_key clan_id).
Proof.
  unfold get_clan.
  apply staged_bind; [apply requests_get_staged|]. intros r.
  apply staged_bind; [now apply staged_lift, of_option_nne|]. intros clan.
  apply staged_ret.
Qed.

Lemma get_warlog_staged (api_key clan_id : string) :
  staged (get_warlog E api_key clan_id).
Proof.
  unfold get_warlog.
  apply staged_bind; [apply requests_get_staged|]. intros r.
  apply staged_bind; [now apply staged_lift, of_option_nne|]. intros warlog.
  apply staged_lift, subscript_nne.
Qed.

Lemma render_template_staged (name : string) (context : value) :
  staged (render_template E name context).
Proof. now apply staged_lift, of_option_nne. Qed.

Lemma render_dashboard_staged (members : list value)
    (clan_name clan_id clan_description clan_min_trophies : value)
    (clan_stats : string) (war_dates : list value) :
  staged (render_dashboard E members clan_name clan_id clan_description
            clan_min_trophies clan_stats war_dates).
Proof.
  unfold render_dashboard.
  apply staged_bind; [apply render_template_staged|]. intros member_table.
  apply staged_bind; [apply staged_lift, page_title_nne|]. intros title.
  apply render_template_staged.
Qed.

Lemma resolve_description_staged (clan : value)
    (description_path : option path) :
  staged (resolve_description E clan description_path).
Proof.
  unfold resolve_description.
  apply staged_bind; [apply staged_lift, subscript_nne|]. intros description.
  destruct description_path as [[|c rest]|]; try apply staged_ret.
  apply staged_bind; [apply isfile_staged|]. intros found.
  destruct found; [|apply staged_ret].
  apply staged_bind; [apply read_text_staged|]. intros content.
  apply staged_ret.
Qed.

Lemma copy_asset_staged (user_path : option path) (bundled dest : path) :
  below tempdir dest -> staged (copy_asset E user_path bundled dest).
Proof.
  intros Hd. unfold copy_asset.
  destruct user_path as [[|c rest]|]; now apply copyfile_staged.
Qed.

Lemma stage_staged (api_key clan_id : string)
    (logo_path favicon_path description_path : option path) :
  staged (stage E tempdir api_key clan_id logo_path favicon_path
            description_path).
Proof.
  unfold stage.
  apply staged_bind; [apply makedirs_staged; below_tac|]. intros _.
  apply staged_bind; [apply copytree_staged; below_tac|]. intros _.
  apply staged_bind; [apply copy_asset_staged; below_tac|]. intros _.
  apply staged_bind; [apply copy_asset_staged; below_tac|]. intros _.
  apply staged_bind; [apply get_clan_staged|]. intros clan.
  apply staged_bind; [apply write_text_staged; below_tac|]. intros _.
  apply staged_bind; [apply resolve_description_staged|]. intros description.
  apply staged_bind; [apply get_warlog_staged|]. intros warlog.
  apply staged_bind; [apply write_text_staged; below_tac|]. intros _.
  apply staged_bind; [apply staged_lift, member_dash_nne|].
  intros [[rows clan'] warlog'].
  apply staged_bind; [apply render_template_staged|]. intros stats_html.
  apply staged_bind; [apply staged_lift, subscript_nne|]. intros name.
  apply staged_bind; [apply staged_lift, subscript_nne|]. intros tag.
  apply staged_bind; [apply staged_lift, subscript_nne|]. intros trophies.
  apply staged_bind; [apply staged_lift, warlog_dates_nne|]. intros dates.
  apply staged_bind; [apply render_dashboard_staged|]. intros html.
  apply write_text_staged. below_tac.
Qed.

End Staging.

(** ** The publish step and the cleanup *)

Lemma fscall_steps (E : externals) (R : world -> world -> Prop)
    {A : Type} (op : fsop) (act : filesystem -> result A * filesystem) :
  (forall w, R w w) ->
  (forall w, R w (with_fs w (snd (act (fs w)))) /\
             raises_only not_name_error (fst (act (fs w)))) ->
  steps R not_name_error (fscall E op act).
Proof.
  intros Hrefl Hact w. unfold fscall. destruct (fault E op) as [what|].
  - split; [apply Hrefl | now apply raises_only_err].
  - specialize (Hact w). destruct (act (fs w)) as [r f']. exact Hact.
Qed.

Lemma makedirs_fs_keeps (n : nat) (p : path) (f : filesystem) (q : path) :
  f q <> None -> snd (makedirs_fs n p f) q = f q.
Proof.
  intros Hq. destruct (makedirs_fs n p f) as [r f'] eqn:Hrun. cbn [snd].
  destruct (makedirs_fs_changes _ _ _ _ _ Hrun q) as [H|(_ & H & _)];
    [exact H | contradiction].
Qed.

Section Publishing.

Variable E : externals.
Variable tempdir : path.
Variable out : path.
Hypothesis apart : unrelated tempdir out = true.

Local Abbreviation published := (steps (keeps_dir tempdir) not_name_error).

Lemma out_not_above : under out tempdir = false.
Proof.
  unfold unrelated in apart. apply andb_prop in apart as [_ H].
  now destruct (under out tempdir).
Qed.

Lemma copystat_published : published (copystat E out tempdir).
Proof.
  apply fscall_steps; [apply keeps_dir_refl|]. intros w.
  destruct (fs w out) as [n|] eqn:Hout;
    [destruct (fs w tempdir) as [m|] eqn:Htmp|];
    cbn [fst snd]; rewrite ?with_fs_same;
    (split; [|first [apply raises_only_ok | now apply raises_only_err]]);
    try apply keeps_dir_refl.
  unfold keeps_dir. cbn [fs with_fs]. rewrite fs_set_at.
  rewrite path_eqb_refl, Htmp. now destruct m.
Qed.

Lemma rmtree_published : published (rmtree E out).
Proof.
  intros w. destruct (rmtree_shape E out w) as (Hraise & _ & Hfs).
  split; [|exact Hraise]. unfold keeps_dir.
  destruct Hfs as [->|(keep & Hkeep & ->)]; [auto|].
  rewrite fs_keep_at. now rewrite (Hkeep _ out_not_above).
Qed.

Lemma copytree_published : published (copytree E tempdir out).
Proof.
  intros w. destruct (copytree_shape E tempdir out w) as (Hraise & _ & Hfs).
  split; [|exact Hraise]. unfold keeps_dir. intros Hdir.
  destruct Hfs as [->|(r & f' & Hmk & Hfs)]; [exact Hdir|].
  assert (is_dir (f' tempdir)) as Hdir'.
  { pose proof (makedirs_fs_keeps (List.length out) out (fs w) tempdir
                  (is_dir_exists _ Hdir)) as H.
    rewrite Hmk in H. cbn [snd] in H. now rewrite H. }
  destruct Hfs as [->|(part & ->)]; [exact Hdir'|].
  rewrite fs_graft_at.
  pose proof out_not_above as Hnot. unfold under in Hnot.
  now destruct (strip_prefix out tempdir).
Qed.

Lemma publish_published (output_path : path) :
  expanduser E output_path = out ->
  published (publish E tempdir output_path).
Proof.
  intros Hout. unfold publish. rewrite Hout.
  apply steps_bind; [apply keeps_dir_trans | |].
  - intros w. split; [apply keeps_dir_refl | apply raises_only_ok].
  - intros present.
    apply steps_bind; [apply keeps_dir_trans | |].
    + destruct present; [|apply steps_ret, keeps_dir_refl].
      apply steps_bind; [apply keeps_dir_trans | apply copystat_published|].
      intros _. apply rmtree_published.
    + intros _. apply copytree_published.
Qed.

End Publishing.

Lemma cleanup_removes (E : externals) (tempdir : path) (w : world) :
  fault E (Rmtree tempdir) = None ->
  is_dir (fs w tempdir) ->
  root E || removable (fs w) tempdir = true ->
  rmtree E tempdir w = (Ok tt, with_fs w (fs_rmtree tempdir (fs w))).
Proof.
  intros Hfault Hdir Hmay. unfold rmtree. rewrite Hfault, Hmay.
  now destruct (fs w tempdir) as [[st data|st]|].
Qed.

(** ** build_dashboard *)

Lemma mkdtemp_ok (E : externals) (w : world) :
  fault E Mkdtemp = None ->
  mkdtemp E w
  = (Ok (mkdtemp_path E),
     with_fs w (fs_set (mkdtemp_path E) (Dir mode_tempdir) (fs w))).
Proof. intros H. unfold mkdtemp, fscall. now rewrite H. Qed.

Lemma mkdtemp_dir (E : externals) (w : world) :
  is_dir (fs (with_fs w (fs_set (mkdtemp_path E) (Dir mode_tempdir) (fs w)))
             (mkdtemp_path E)).
Proof. cbn [fs with_fs]. rewrite fs_set_at. now rewrite path_eqb_refl. Qed.

Lemma mkdtemp_fails (E : externals) (w : world) (what : string) :
  fault E Mkdtemp = Some what -> mkdtemp E w = (Err (OSError what), w).
Proof. intros H. unfold mkdtemp, fscall. now rewrite H. Qed.

(** C1 fails on the code, against the comments of lines 130 and 213: the
    publish step copies the mode of an existing output path onto the
    temporary directory before anything else, and the cleanup then goes by
    that mode.  With an earlier output directory of mode 0o555 the removal
    of the output and the cleanup both raise [PermissionError]; with an
    empty such directory the dashboard is published and the cleanup raises;
    with a regular file at the output path the temporary directory gets a
    mode without the search bit.  Each time the run ends in the cleanup's
    [PermissionError] with the temporary directory and the staged page
    still there. *)
Theorem build_dashboard_leaves_tempdir :
  Demo.left_behind Demo.locked 365 /\
  Demo.left_behind Demo.sealed 365 /\
  Demo.left_behind Demo.plain 420 /\
  fs (snd (build_dashboard (Demo.env 200 "clan") "key" "#C" None None None
             ["out"] {| fs := Demo.sealed; requests := [] |}))
     ["out"; "index.html"]
  = Some (File 420 "<page.html.j2>").
Proof. unfold Demo.left_behind. repeat split; vm_compute; reflexivity. Qed.

(** *** No [NameError] from the publish step or the cleanup *)

Section Quiet.

Variable E : externals.

Local Abbreviation quiet := (steps (fun _ _ : world => True) not_name_error).

Lemma quiet_bind {A B : Type} (m : M A) (k : A -> M B) :
  quiet m -> (forall a, quiet (k a)) -> quiet (bind m k).
Proof. apply steps_bind. auto. Qed.

Lemma fscall_quiet {A : Type} (op : fsop)
    (act : filesystem -> result A * filesystem) :
  (forall f, raises_only not_name_error (fst (act f))) ->
  quiet (fscall E op act).
Proof.
  intros Hact. apply fscall_steps; [auto|].
  intros w. split; [exact I | apply Hact].
Qed.

Ltac os_errors :=
  apply fscall_quiet; intros f;
  repeat match goal with
         | |- context [match ?x with _ => _ end] => destruct x
         end;
  cbn [fst]; first [apply raises_only_ok | now apply raises_only_err].

Lemma copystat_quiet (src dst : path) : quiet (copystat E src dst).
Proof. os_errors. Qed.

Lemma rmtree_quiet (p : path) : quiet (rmtree E p).
Proof. intros w. split; [exact I | apply rmtree_shape]. Qed.

Lemma copytree_quiet (src dst : path) : quiet (copytree E src dst).
Proof. intros w. split; [exact I | apply copytree_shape]. Qed.

Lemma publish_quiet (tempdir output_path : path) :
  quiet (publish E tempdir output_path).
Proof.
  unfold publish.
  apply quiet_bind; [intros w; split; [exact I | apply raises_only_ok]|].
  intros present. apply quiet_bind; [|intros _; apply copytree_quiet].
  destruct present; [|apply steps_ret; auto].
  apply quiet_bind; [apply copystat_quiet | intros _; apply rmtree_quiet].
Qed.

End Quiet.

(** No run of [build_dashboard] ends in a [NameError]: every call of
    [write_object_to_file] in it passes text. *)
Lemma build_dashboard_nne (E : externals) (api_key clan_id : string)
    (logo_path favicon_path description_path : option path)
    (output_path : path) (w : world) :
  raises_only not_name_error
    (fst (build_dashboard E api_key clan_id logo_path favicon_path
            description_path output_path w)).
Proof.
  unfold build_dashboard.
  destruct (mkdtemp E w) as [[tempdir|e] w1]; [|now apply raises_only_err].
  unfold try_finally, bind.
  destruct (stage_staged E tempdir api_key clan_id logo_path favicon_path
              description_path w1) as [_ Hstage].
  destruct (stage E tempdir api_key clan_id logo_path favicon_path
              description_path w1) as [[u|e] w2]; cbn [fst] in Hstage.
  - destruct (publish_quiet E tempdir output_path w2) as [_ Hpublish].
    destruct (publish E tempdir output_path w2) as [r w3];
      cbn [fst] in Hpublish.
    destruct (rmtree_quiet E tempdir w3) as [_ Hclean].
    destruct (rmtree E tempdir w3) as [[u'|e] w4]; cbn [fst] in *.
    + exact Hpublish.
    + apply raises_only_err. now apply Hclean.
  - destruct (rmtree_quiet E tempdir w2) as [_ Hclean].
    destruct (rmtree E tempdir w2) as [[u'|e'] w4]; cbn [fst] in *.
    + exact Hstage.
    + apply raises_only_err. now apply Hclean.
Qed.

(** ** write_object_to_file *)

Lemma write_text_run (E : externals) (p : path) (s : string) (w : world) :
  fault E (OpenW p) = None -> fault E (Write p) = None ->
  ~ is_dir (fs w p) ->
  write_object_to_file E p (VStr s) w
  = (Ok tt,
     with_fs w
       (fs_set p (File match fs w p with
                       | Some n => node_stat n
                       | None => mode_file
                       end s)
          (fs_set p (File match fs w p with
                          | Some n => node_stat n
                          | None => mode_file
                          end "") (fs w)))).
Proof.
  intros Hopen Hwrite Hnodir.
  unfold write_object_to_file, bind, open_w, write, fscall, is_text, ret.
  rewrite Hopen.
  destruct (fs w p) as [[st data|st]|] eqn:Hp.
  - rewrite Hwrite. cbn [fs with_fs]. rewrite fs_set_at.
    now rewrite path_eqb_refl.
  - exfalso. apply Hnodir. exact I.
  - rewrite Hwrite. cbn [fs with_fs]. rewrite fs_set_at.
    now rewrite path_eqb_refl.
Qed.

(** C10: a string is written as it is; for any other object the type check
    raises [NameError] on [unicode] once the file has been opened, the
    world being as the opening left it, so that [json.dumps] is never
    reached; and [build_dashboard], whose three calls pass text, never ends
    in a [NameError]. *)
Theorem write_object_to_file_text_only (E : externals) :
  (forall p s w,
      fault E (OpenW p) = None -> fault E (Write p) = None ->
      ~ is_dir (fs w p) ->
      fst (write_object_to_file E p (VStr s) w) = Ok tt /\
      (exists st, fs (snd (write_object_to_file E p (VStr s) w)) p
                  = Some (File st s)) /\
      forall q, q <> p ->
                fs (snd (write_object_to_file E p (VStr s) w)) q = fs w q) /\
  (forall p obj w,
      (forall s, obj <> VStr s) ->
      write_object_to_file E p obj w
      = match open_w E p w with
        | (Ok _, w') => (Err (NameError "unicode"), w')
        | (Err e, w') => (Err e, w')
        end) /\
  (forall api_key clan_id logo_path favicon_path description_path
          output_path w,
      fst (build_dashboard E api_key clan_id logo_path favicon_path
             description_path output_path w) <> Err (NameError "unicode")).
Proof.
  split; [|split].
  - intros p s w Hopen Hwrite Hnodir.
    rewrite (write_text_run E p s w Hopen Hwrite Hnodir).
    cbn [fst snd fs with_fs]. split; [reflexivity|]. split.
    + eexists. rewrite fs_set_at. now rewrite path_eqb_refl.
    + intros q Hne. rewrite !fs_set_at.
      destruct (path_eqb p q) eqn:Heq; [|reflexivity].
      apply path_eqb_eq in Heq. congruence.
  - intros p obj w Hobj. unfold write_object_to_file, bind.
    destruct (open_w E p w) as [[u|e] w']; [|reflexivity].
    destruct obj; try reflexivity. now contradiction (Hobj s).
  - intros api_key clan_id logo_path favicon_path description_path
           output_path w Hraise.
    exact (build_dashboard_nne E api_key clan_id logo_path favicon_path
             description_path output_path w _ Hraise).
Qed.

Lemma write_object_to_file_text_only_witness :
  fst (write_object_to_file (Demo.env 200 "clan") ["out"; "index.html"]
         (VStr "new page") Demo.start) = Ok tt /\
  (exists st,
      fs (snd (write_object_to_file (Demo.env 200 "clan")
                 ["out"; "index.html"] (VStr "new page") Demo.start))
         ["out"; "index.html"] = Some (File st "new page")) /\
  forall q,
    q <> ["out"; "index.html"] ->
    fs (snd (write_object_to_file (Demo.env 200 "clan")
               ["out"; "index.html"] (VStr "new page") Demo.start)) q
    = Demo.disk q.
Proof.
  apply (proj1 (write_object_to_file_text_only (Demo.env 200 "clan"))
           ["out"; "index.html"] "new page" Demo.start);
    try reflexivity.
  intros H. exact H.
Defined.

(** ** Description resolution *)

(** C9: with a description in the clan data, a supplied path that names a
    file after expansion gives the file's text, a supplied path that names
    no file gives the error text with the expanded path in it, and no path
    gives the clan's own description; none of the three raises. *)
Theorem resolve_description_cases (E : externals) (clan description : value)
    (w : world) :
  subscript clan "description" = Ok description ->
  (forall c rest st data,
      fs w (expanduser E (c :: rest)) = Some (File st data) ->
      fault E (Read (expanduser E (c :: rest))) = None ->
      resolve_description E clan (Some (c :: rest)) w = (Ok (VStr data), w)) /\
  (forall c rest,
      (forall st data, fs w (expanduser E (c :: rest)) <> Some (File st data)) ->
      resolve_description E clan (Some (c :: rest)) w
      = (Ok (VStr ("ERROR: File '" ++ path_text (expanduser E (c :: rest))
                   ++ "' does not exist.")%string), w)) /\
  resolve_description E clan None w = (Ok description, w) /\
  resolve_description E clan (Some []) w = (Ok description, w).
Proof.
  intros Hdesc. unfold resolve_description, bind, lift. rewrite Hdesc.
  repeat split.
  - intros c rest st data Hfile Hread.
    unfold isfile, read_text, fscall, ret. rewrite Hfile, Hread, Hfile.
    now rewrite with_fs_same.
  - intros c rest Hnone. unfold isfile, ret.
    destruct (fs w (expanduser E (c :: rest))) as [[st data|st]|] eqn:Hp;
      try reflexivity.
    now contradiction (Hnone st data).
Qed.

Lemma resolve_description_cases_witness :
  resolve_description (Demo.env 200 "clan") Demo.clan
    (Some ["home"; "about.txt"]) Demo.start
  = (Ok (VStr "our clan"), Demo.start).
Proof.
  apply (proj1 (resolve_description_cases (Demo.env 200 "clan") Demo.clan
                  (VStr "from the API") Demo.start eq_refl)
           "home" ["about.txt"] 420%Z "our clan");
    reflexivity.
Defined.

(** ** get_clan and get_warlog *)

(** C2, as the claim states it, fails: a 404 response whose body is JSON
    makes [get_clan] return the decoded body. *)
Lemma get_clan_returns_on_404 :
  exists r,
    http_get (Demo.env 404 "{}") "https://api.clashroyale.com/v1/clans/#C"
             (api_headers "key") = Some r /\
    is_2xx r = false /\
    fst (get_clan (Demo.env 404 "{}") "key" "#C" Demo.start) = Ok (VDict []).
Proof.
  eexists. split; [reflexivity|]. split; reflexivity.
Qed.

(** C2, amended: each fetch issues one request; it raises when the request
    raises or when the body does not decode as JSON ([get_warlog] also when
    the decoded body has no [items]); the status of the response plays no
    part, and a decodable body is returned whatever the status. *)
Theorem fetch_semantics (E : externals) (api_key clan_id : string)
    (w : world) :
  get_clan E api_key clan_id w
  = (match http_get E ("https://api.clashroyale.com/v1/clans/"
                       ++ quote_plus E clan_id)%string
                    (api_headers api_key) with
     | None => Err RequestException
     | Some r => match json_loads E (text r) with
                 | None => Err JSONDecodeError
                 | Some clan => Ok clan
                 end
     end,
     {| fs := fs w;
        requests := requests w
                    ++ [(("https://api.clashroyale.com/v1/clans/"
                          ++ quote_plus E clan_id)%string,
                         api_headers api_key)] |}) /\
  get_warlog E api_key clan_id w
  = (match http_get E ("https://api.clashroyale.com/v1/clans/"
                       ++ quote_plus E clan_id
                       ++ "/warlog?limit=20")%string
                    (api_headers api_key) with
     | None => Err RequestException
     | Some r => match json_loads E (text r) with
                 | None => Err JSONDecodeError
                 | Some warlog => subscript warlog "items"
                 end
     end,
     {| fs := fs w;
        requests := requests w
                    ++ [(("https://api.clashroyale.com/v1/clans/"
                          ++ quote_plus E clan_id
                          ++ "/warlog?limit=20")%string,
                         api_headers api_key)] |}).
Proof.
  unfold get_clan, get_warlog, bind, requests_get, lift, ret, of_option.
  split.
  - destruct (http_get E _ _) as [r|]; [|reflexivity].
    now destruct (json_loads E (text r)).
  - destruct (http_get E _ _) as [r|]; [|reflexivity].
    now destruct (json_loads E (text r)).
Qed.

(** * Further properties *)

(** ** The status cascade at its edges *)

Lemma scan_passes_over (member_tag : value) (ps : list value) :
  Forall (other_tag member_tag) ps ->
  forall kept, scan_participants member_tag ps kept = Ok (kept, ps).
Proof.
  intros Hother. induction Hother as [|p ps (t & Ht & Hne) _ IH];
    intros kept; [reflexivity|].
  cbn [scan_participants]. rewrite Ht. cbn [rbind]. rewrite Hne, IH.
  reflexivity.
Qed.

Lemma scan_participants_app (member_tag : value) (pre : list value) :
  forallb participant_wf pre = true ->
  forall rest kept,
    scan_participants member_tag (pre ++ rest) kept
    = let* (p, rest') :=
        scan_participants member_tag rest
          (fold_left (fun kept p => if tag_matches member_tag p
                                    then classified p else kept) pre kept) in
      Ok (p, map (participant_after member_tag) pre ++ rest').
Proof.
  induction pre as [|q pre IH]; intros Hwf rest kept.
  - cbn [app fold_left map].
    destruct (scan_participants member_tag rest kept) as [[p rest']|e];
      reflexivity.
  - simpl in Hwf. apply andb_prop in Hwf as [Hq Hpre].
    pose proof (set_status_classified q Hq) as Hset.
    destruct (participant_wf_inv q Hq) as (d & t & c & b & Hd & Ht & _ & _).
    subst q.
    assert (tag_matches member_tag (VDict d) = py_eq t member_tag) as Htm
      by (unfold tag_matches; cbn [subscript]; now rewrite Ht).
    assert (participant_after member_tag (VDict d)
            = if py_eq t member_tag then classified (VDict d) else VDict d)
      as Hpa by (unfold participant_after; now rewrite Htm).
    cbn [app scan_participants fold_left map]. rewrite Hpa, Htm.
    cbn [subscript]. rewrite Ht. cbn [rbind].
    destruct (py_eq t member_tag).
    + rewrite Hset. cbn [rbind]. rewrite (IH Hpre).
      destruct (scan_participants member_tag rest _) as [[p rest']|e];
        reflexivity.
    + rewrite (IH Hpre).
      destruct (scan_participants member_tag rest _) as [[p rest']|e];
        reflexivity.
Qed.

(** X1: a participant carrying the member's tag with no collection-day
    battle is recorded as [na] even when it has no [battlesPlayed] key;
    with collection-day battles the missing key raises [KeyError]. *)
Theorem member_warlog_war_battles_lazy (member_tag : value) (w : dict)
    (pre post : list value) (d : dict) (t c : value) :
  dict_get "participants" w = Some (VList (pre ++ VDict d :: post)) ->
  forallb participant_wf pre = true ->
  Forall (other_tag member_tag) post ->
  dict_get "tag" d = Some t ->
  py_eq t member_tag = true ->
  dict_get "collectionDayBattlesPlayed" d = Some c ->
  dict_get "battlesPlayed" d = None ->
  (py_eq c (VInt 0) = true ->
   exists war',
     member_warlog_war member_tag (VDict w)
     = Ok (VDict (dict_set "status" (VStr "na") d), war')) /\
  (py_eq c (VInt 0) = false ->
   member_warlog_war member_tag (VDict w) = Err (KeyError "battlesPlayed")).
Proof.
  intros Hps Hpre Hpost Ht Hmatch Hc Hb.
  unfold member_warlog_war. cbn [subscript]. rewrite Hps. cbn [rbind py_iter].
  rewrite (scan_participants_app member_tag pre Hpre).
  cbn [scan_participants subscript]. rewrite Ht. cbn [rbind]. rewrite Hmatch.
  unfold set_status. cbn [subscript]. rewrite Hc. cbn [rbind].
  split; intros Hzero; rewrite Hzero.
  - cbn [setitem rbind]. rewrite (scan_passes_over member_tag post Hpost).
    cbn [rbind]. eexists. reflexivity.
  - rewrite Hb. reflexivity.
Qed.

Lemma member_warlog_war_battles_lazy_witness :
  exists war',
    member_warlog_war (VStr "#A")
      (VDict [("participants",
               VList [Demo.participant "#Z" 1 1;
                      VDict [("tag", VStr "#A");
                             ("collectionDayBattlesPlayed", VInt 0)]])])
    = Ok (VDict (dict_set "status" (VStr "na")
                   [("tag", VStr "#A");
                    ("collectionDayBattlesPlayed", VInt 0)]), war').
Proof.
  apply (proj1 (member_warlog_war_battles_lazy (VStr "#A")
                  [("participants",
                    VList [Demo.participant "#Z" 1 1;
                           VDict [("tag", VStr "#A");
                                  ("collectionDayBattlesPlayed", VInt 0)]])]
                  [Demo.participant "#Z" 1 1] []
                  [("tag", VStr "#A"); ("collectionDayBattlesPlayed", VInt 0)]
                  (VStr "#A") (VInt 0)
                  eq_refl eq_refl (Forall_nil _) eq_refl eq_refl eq_refl
                  eq_refl)).
  reflexivity.
Defined.

(** ** Errors of member_warlog *)

Lemma member_warlog_loop_app (member_tag : value) (pre : list value) :
  forallb war_wf pre = true ->
  forall rest,
    member_warlog_loop member_tag (pre ++ rest)
    = let* (out, rest') := member_warlog_loop member_tag rest in
      Ok (map (participation_of member_tag) pre ++ out,
          map (war_after member_tag) pre ++ rest').
Proof.
  induction pre as [|war pre IH]; intros Hwf rest.
  - cbn [app map].
    destruct (member_warlog_loop member_tag rest) as [[out rest']|e];
      reflexivity.
  - simpl in Hwf. apply andb_prop in Hwf as [Hwar Hpre].
    cbn [app member_warlog_loop map].
    rewrite (member_warlog_war_spec member_tag war Hwar). cbn [rbind].
    rewrite (IH Hpre).
    destruct (member_warlog_loop member_tag rest) as [[out rest']|e];
      reflexivity.
Qed.

(** X2: the first war that has no participant list, or a participant of it
    that has no tag, makes the whole call raise that lookup's exception,
    whoever the member is and whatever the later wars are. *)
Theorem member_warlog_missing_key (member_tag : value)
    (pre post : list value) (war : value) :
  forallb war_wf pre = true ->
  (forall e,
      subscript war "participants" = Err e ->
      member_warlog member_tag (VList (pre ++ war :: post)) = Err e) /\
  (forall w ps p qs e,
      war = VDict w ->
      dict_get "participants" w = Some (VList (ps ++ p :: qs)) ->
      forallb participant_wf ps = true ->
      subscript p "tag" = Err e ->
      member_warlog member_tag (VList (pre ++ war :: post)) = Err e).
Proof.
  intros Hpre. split.
  - intros e Herr. unfold member_warlog. cbn [py_iter rbind].
    rewrite (member_warlog_loop_app member_tag pre Hpre).
    cbn [member_warlog_loop]. unfold member_warlog_war. rewrite Herr.
    reflexivity.
  - intros w ps p qs e -> Hps Hwf Herr. unfold member_warlog.
    cbn [py_iter rbind].
    rewrite (member_warlog_loop_app member_tag pre Hpre).
    cbn [member_warlog_loop]. unfold member_warlog_war.
    cbn [subscript]. rewrite Hps. cbn [rbind py_iter].
    rewrite (scan_participants_app member_tag ps Hwf).
    cbn [scan_participants]. rewrite Herr. reflexivity.
Qed.

Lemma member_warlog_missing_key_witness :
  member_warlog (VStr "#A")
    (VList [Demo.war "20240115T103000.000Z" [Demo.participant "#A" 3 1];
            VDict [("createdDate", VStr "20240113T103000.000Z")];
            Demo.war "20240111T103000.000Z" [Demo.participant "#A" 3 0]])
  = Err (KeyError "participants").
Proof.
  apply (proj1 (member_warlog_missing_key (VStr "#A")
                  [Demo.war "20240115T103000.000Z"
                     [Demo.participant "#A" 3 1]]
                  [Demo.war "20240111T103000.000Z"
                     [Demo.participant "#A" 3 0]]
                  (VDict [("createdDate", VStr "20240113T103000.000Z")])
                  eq_refl)).
  reflexivity.
Defined.

(** ** Classifying twice, and for two members *)

Lemma participant_after_tag (t1 t2 p : value) :
  participant_wf p = true ->
  tag_matches t1 (participant_after t2 p) = tag_matches t1 p.
Proof.
  intros Hwf. unfold participant_after.
  destruct (tag_matches t2 p); [now apply classified_tag | reflexivity].
Qed.

Lemma classified_after (t p : value) :
  participant_wf p = true ->
  classified (participant_after t p) = classified p.
Proof.
  intros Hwf. unfold participant_after.
  destruct (tag_matches t p); [now apply classified_idempotent | reflexivity].
Qed.

Lemma participant_after_comm (t1 t2 p : value) :
  participant_wf p = true ->
  participant_after t1 (participant_after t2 p)
  = participant_after t2 (participant_after t1 p).
Proof.
  intros Hwf. unfold participant_after at 1 3.
  rewrite !participant_after_tag, !classified_after by exact Hwf.
  unfold participant_after.
  destruct (tag_matches t1 p), (tag_matches t2 p); reflexivity.
Qed.

Lemma participants_of_after (t war : value) :
  war_wf war = true ->
  participants_of (war_after t war)
  = map (participant_after t) (participants_of war).
Proof.
  intros Hwf. destruct (war_wf_inv war Hwf) as (w & ps & -> & Hps & Hall).
  unfold war_after, participants_of. rewrite Hps.
  now rewrite dict_get_set_same.
Qed.

Lemma fold_after (t1 t2 : value) (ps : list value) :
  forallb participant_wf ps = true ->
  forall kept,
    fold_left (fun kept p => if tag_matches t1 p then classified p else kept)
              (map (participant_after t2) ps) kept
    = fold_left (fun kept p => if tag_matches t1 p then classified p
                               else kept) ps kept.
Proof.
  induction ps as [|p ps IH]; intros Hwf kept; [reflexivity|].
  simpl in Hwf. apply andb_prop in Hwf as [Hp Hps].
  cbn [map fold_left].
  rewrite participant_after_tag, classified_after by exact Hp.
  now apply IH.
Qed.

Lemma participation_of_after (t1 t2 war : value) :
  war_wf war = true ->
  participation_of t1 (war_after t2 war) = participation_of t1 war.
Proof.
  intros Hwf. unfold participation_of.
  rewrite (participants_of_after t2 war Hwf).
  destruct (war_wf_inv war Hwf) as (w & ps & -> & Hps & Hall).
  unfold participants_of. rewrite Hps. now apply fold_after.
Qed.

Lemma war_after_eq (t : value) (w : dict) (ps : list value) :
  dict_get "participants" w = Some (VList ps) ->
  war_after t (VDict w)
  = VDict (dict_set "participants" (VList (map (participant_after t) ps)) w).
Proof.
  intros Hps. unfold war_after, participants_of. now rewrite Hps.
Qed.

Lemma war_after_twice (t1 t2 : value) (w : dict) (ps : list value) :
  dict_get "participants" w = Some (VList ps) ->
  war_after t1 (war_after t2 (VDict w))
  = VDict (dict_set "participants"
             (VList (map (participant_after t1)
                       (map (participant_after t2) ps))) w).
Proof.
  intros Hps. rewrite (war_after_eq t2 w ps Hps).
  rewrite (war_after_eq t1 _ _ (dict_get_set_same _ _ _)).
  now rewrite dict_set_twice.
Qed.

Lemma war_after_comm (t1 t2 war : value) :
  war_wf war = true ->
  war_after t1 (war_after t2 war) = war_after t2 (war_after t1 war).
Proof.
  intros Hwf.
  destruct (war_wf_inv war Hwf) as (w & ps & -> & Hps & Hall).
  rewrite !(war_after_twice _ _ w ps Hps). f_equal. f_equal. f_equal.
  rewrite !map_map. apply map_ext_in. intros p Hin.
  apply participant_after_comm.
  rewrite forallb_forall in Hall. now apply Hall.
Qed.

Lemma war_after_idempotent (t war : value) :
  war_wf war = true -> war_after t (war_after t war) = war_after t war.
Proof.
  intros Hwf.
  destruct (war_wf_inv war Hwf) as (w & ps & -> & Hps & Hall).
  rewrite (war_after_twice _ _ w ps Hps), (war_after_eq t w ps Hps).
  f_equal. f_equal. f_equal.
  rewrite map_map. apply map_ext_in. intros p Hin.
  assert (participant_wf p = true) as Hp
    by (rewrite forallb_forall in Hall; now apply Hall).
  unfold participant_after at 1.
  rewrite participant_after_tag, classified_after by exact Hp.
  unfold participant_after. now destruct (tag_matches t p).
Qed.

(** X3: classifying the same member again gives the same records and
    changes nothing more in the war log. *)
Theorem member_warlog_idempotent (member_tag : value) (wars : list value)
    (records : list value) (warlog' : value) :
  forallb war_wf wars = true ->
  member_warlog member_tag (VList wars) = Ok (records, warlog') ->
  member_warlog member_tag warlog' = Ok (records, warlog').
Proof.
  intros Hwf Hrun. rewrite (member_warlog_spec member_tag wars Hwf) in Hrun.
  inversion Hrun. subst records warlog'.
  rewrite (member_warlog_spec member_tag _ (warlog_after_wf member_tag _ Hwf)).
  rewrite !map_map. f_equal. f_equal.
  - apply map_ext_in. intros war Hin. apply participation_of_after.
    rewrite forallb_forall in Hwf. now apply Hwf.
  - f_equal. apply map_ext_in. intros war Hin. apply war_after_idempotent.
    rewrite forallb_forall in Hwf. now apply Hwf.
Qed.

Lemma member_warlog_idempotent_witness :
  member_warlog (VStr "#A")
    (VList (map (war_after (VStr "#A")) Demo.wars))
  = Ok (map (participation_of (VStr "#A")) Demo.wars,
        VList (map (war_after (VStr "#A")) Demo.wars)).
Proof.
  apply (member_warlog_idempotent (VStr "#A") Demo.wars); reflexivity.
Defined.

(** X4: the records of a member are the same whether or not another member
    was classified on the war log before, and the war log two
    classifications leave does not depend on their order. *)
Theorem member_warlog_independent (t1 t2 : value) (wars : list value)
    (r1 r2 : list value) (w1 w2 : value) :
  forallb war_wf wars = true ->
  member_warlog t1 (VList wars) = Ok (r1, w1) ->
  member_warlog t2 (VList wars) = Ok (r2, w2) ->
  exists w12,
    member_warlog t1 w2 = Ok (r1, w12) /\
    member_warlog t2 w1 = Ok (r2, w12).
Proof.
  intros Hwf H1 H2.
  rewrite (member_warlog_spec t1 wars Hwf) in H1.
  rewrite (member_warlog_spec t2 wars Hwf) in H2.
  inversion H1. inversion H2. subst r1 w1 r2 w2.
  rewrite (member_warlog_spec t1 _ (warlog_after_wf t2 _ Hwf)).
  rewrite (member_warlog_spec t2 _ (warlog_after_wf t1 _ Hwf)).
  rewrite forallb_forall in Hwf.
  eexists. split.
  - rewrite map_map. f_equal. f_equal.
    apply map_ext_in. intros war Hin. apply participation_of_after.
    now apply Hwf.
  - rewrite !map_map. f_equal. f_equal.
    + apply map_ext_in. intros war Hin. apply participation_of_after.
      now apply Hwf.
    + f_equal. apply map_ext_in. intros war Hin. apply war_after_comm.
      now apply Hwf.
Qed.

Lemma member_warlog_independent_witness :
  exists w12,
    member_warlog (VStr "#A")
      (VList (map (war_after (VStr "#Z")) Demo.wars))
    = Ok (map (participation_of (VStr "#A")) Demo.wars, w12) /\
    member_warlog (VStr "#Z")
      (VList (map (war_after (VStr "#A")) Demo.wars))
    = Ok (map (participation_of (VStr "#Z")) Demo.wars, w12).
Proof.
  apply (member_warlog_independent (VStr "#A") (VStr "#Z") Demo.wars);
    reflexivity.
Defined.

(** ** member_danger: what it reads and what it ignores *)

(** X5: [member['donations']] is read only when no record is good and no
    record is bad: with a good record and no more bad than good ones the
    result is [False] for any member object, and with neither the lookup's
    exception is the call's. *)
Theorem member_danger_donations_lazy (member : value) (records : list value) :
  forallb record_wf records = true ->
  (0 < count_status "good" records ->
   count_status "bad" records <= count_status "good" records ->
   member_danger member records = Ok false) /\
  (count_status "good" records = 0 ->
   count_status "bad" records = 0 ->
   forall e,
     subscript member "donations" = Err e ->
     member_danger member records = Err e).
Proof.
  intros Hwf. unfold member_danger.
  rewrite (count_statuses_spec records Hwf 0 0 0). cbn [rbind Nat.add].
  split.
  - intros Hgood Hbad.
    destruct (Nat.ltb_spec (count_status "good" records)
                           (count_status "bad" records)); [lia|].
    destruct (Nat.eqb_spec (count_status "good" records) 0); [lia|].
    reflexivity.
  - intros Hgood Hbad e Herr. rewrite Hgood, Hbad. cbn [Nat.ltb Nat.leb Nat.eqb].
    now rewrite Herr.
Qed.

Lemma member_danger_donations_lazy_witness :
  member_danger VNone
    [VDict [("status", VStr "good")]; VDict [("status", VStr "bad")]]
  = Ok false.
Proof.
  apply (proj1 (member_danger_donations_lazy VNone
                  [VDict [("status", VStr "good")];
                   VDict [("status", VStr "bad")]] eq_refl));
    vm_compute; lia.
Defined.

Lemma dict_set_same_value (k : string) (v : value) (d : dict) :
  dict_get k d = Some v -> dict_set k v d = d.
Proof.
  induction d as [|[k' v'] d IH]; simpl; [discriminate|].
  destruct (String.eqb k' k) eqn:Hk.
  - apply String.eqb_eq in Hk. subst k'. intros H. now inversion H.
  - intros H. now rewrite IH.
Qed.

Lemma count_status_all_na (s : string) (n : nat) :
  s <> "na" -> count_status s (repeat na_placeholder n) = 0.
Proof.
  intros Hs. unfold count_status.
  assert (has_status s na_placeholder = String.eqb "na" s) as Hna
    by reflexivity.
  induction n as [|n IH]; [reflexivity|].
  cbn [repeat filter]. rewrite Hna.
  destruct (String.eqb "na" s) eqn:Heq; [|exact IH].
  apply String.eqb_eq in Heq. congruence.
Qed.

(** X6: for a member that took part in no war of the log, the call of
    [member_warlog] leaves the war log as it is and gives one [na] record
    per war, and [member_danger] on these records is decided by the
    donations alone: it is [True] exactly when they are zero. *)
Theorem absent_member_danger (member member_tag : value)
    (wars : list value) (donations : value) :
  forallb war_wf wars = true ->
  (forall war p, In war wars -> In p (participants_of war) ->
                 tag_matches member_tag p = false) ->
  subscript member "donations" = Ok donations ->
  member_warlog member_tag (VList wars)
  = Ok (repeat na_placeholder (List.length wars), VList wars) /\
  member_danger member (repeat na_placeholder (List.length wars))
  = Ok (py_eq donations (VInt 0)).
Proof.
  intros Hwf Habsent Hd. split.
  - rewrite (member_warlog_spec member_tag wars Hwf).
    rewrite forallb_forall in Hwf.
    assert (forall war, In war wars ->
              participation_of member_tag war = na_placeholder /\
              war_after member_tag war = war) as Hwar.
    { intros war Hin.
      destruct (war_wf_inv war (Hwf war Hin)) as (w & ps & -> & Hps & Hall).
      assert (Forall (fun p => tag_matches member_tag p = false) ps) as Hnone.
      { apply Forall_forall. intros p Hp. apply (Habsent _ p Hin).
        unfold participants_of. now rewrite Hps. }
      split.
      - unfold participation_of, participants_of. rewrite Hps.
        now apply fold_left_kept.
      - rewrite (war_after_eq member_tag w ps Hps).
        replace (map (participant_after member_tag) ps) with ps.
        + now rewrite (dict_set_same_value _ _ _ Hps).
        + clear Hps Hall. induction Hnone as [|p ps Hp _ IH];
            [reflexivity|].
          cbn [map]. unfold participant_after at 1. rewrite Hp.
          now f_equal. }
    clear Hwf Habsent. f_equal. f_equal.
    + induction wars as [|war wars IH]; [reflexivity|].
      cbn [map List.length repeat]. f_equal.
      * apply Hwar. now left.
      * apply IH. intros war' Hin. apply Hwar. now right.
    + f_equal. induction wars as [|war wars IH]; [reflexivity|].
      cbn [map]. f_equal.
      * apply Hwar. now left.
      * apply IH. intros war' Hin. apply Hwar. now right.
  - unfold member_danger.
    rewrite count_statuses_spec.
    + cbn [rbind Nat.add].
      rewrite !count_status_all_na by discriminate.
      cbn [Nat.ltb Nat.leb Nat.eqb]. rewrite Hd. cbn [rbind].
      now destruct (py_eq donations (VInt 0)).
    + apply forallb_forall. intros r Hin. apply repeat_spec in Hin.
      now subst r.
Qed.

Lemma absent_member_danger_witness :
  member_warlog (VStr "#B") (VList Demo.wars)
  = Ok (repeat na_placeholder 3, VList Demo.wars) /\
  member_danger (Demo.member "#B" "member" 0) (repeat na_placeholder 3)
  = Ok true.
Proof.
  apply (absent_member_danger (Demo.member "#B" "member" 0) (VStr "#B")
           Demo.wars (VInt 0)); try reflexivity.
  intros war p Hwar Hp.
  repeat (destruct Hwar as [<-|Hwar];
          [repeat (destruct Hp as [<-|Hp]; [reflexivity|]);
           now destruct Hp|]).
  now destruct Hwar.
Defined.

Lemma count_statuses_ok_blind (records : list value) :
  forall good ok ok' bad,
    same_good_bad (count_statuses records good ok bad)
                  (count_statuses records good ok' bad).
Proof.
  induction records as [|war records IH]; intros good ok ok' bad.
  - cbn. auto.
  - cbn [count_statuses].
    destruct (py_eq war VNone); [apply IH|].
    destruct (subscript war "status") as [s|e]; cbn [rbind]; [|reflexivity].
    destruct (py_eq s (VStr "good")); [apply IH|].
    destruct (py_eq s (VStr "ok")); [apply IH|].
    destruct (py_eq s (VStr "bad")); apply IH.
Qed.

Lemma same_good_bad_trans (r1 r2 r3 : result (nat * nat * nat)) :
  same_good_bad r1 r2 -> same_good_bad r2 r3 -> same_good_bad r1 r3.
Proof.
  destruct r1 as [[[g1 o1] b1]|e1], r2 as [[[g2 o2] b2]|e2],
           r3 as [[[g3 o3] b3]|e3]; cbn; intuition congruence.
Qed.

Lemma same_good_bad_refl (r : result (nat * nat * nat)) : same_good_bad r r.
Proof. destruct r as [[[g o] b]|e]; cbn; auto. Qed.

Lemma count_statuses_drop_neutral (r : value) (pre post : list value) :
  neutral_record r ->
  forall good ok bad,
    same_good_bad (count_statuses (pre ++ r :: post) good ok bad)
                  (count_statuses (pre ++ post) good ok bad).
Proof.
  intros Hr. induction pre as [|war pre IH]; intros good ok bad.
  - cbn [app count_statuses].
    destruct Hr as [-> | (d & s & -> & Hs & Hgood & Hbad)].
    + cbn [py_eq]. apply same_good_bad_refl.
    + cbn [py_eq subscript]. rewrite Hs. cbn [rbind]. rewrite Hgood, Hbad.
      destruct (py_eq s (VStr "ok")); [|apply same_good_bad_refl].
      apply count_statuses_ok_blind.
  - cbn [app count_statuses].
    destruct (py_eq war VNone); [apply IH|].
    destruct (subscript war "status") as [s|e]; cbn [rbind]; [|reflexivity].
    destruct (py_eq s (VStr "good")); [apply IH|].
    destruct (py_eq s (VStr "ok")); [apply IH|].
    destruct (py_eq s (VStr "bad")); apply IH.
Qed.

(** X7: a record that is [None], or whose status is neither [good] nor
    [bad] ([na], [ok], anything else), never changes the outcome of
    [member_danger], wherever it stands in the list and whatever the other
    records are. *)
Theorem member_danger_ignores_neutral (member r : value)
    (pre post : list value) :
  neutral_record r ->
  member_danger member (pre ++ r :: post) = member_danger member (pre ++ post).
Proof.
  intros Hr. unfold member_danger.
  pose proof (count_statuses_drop_neutral r pre post Hr 0 0 0) as Hsame.
  destruct (count_statuses (pre ++ r :: post) 0 0 0) as [[[g1 o1] b1]|e1],
           (count_statuses (pre ++ post) 0 0 0) as [[[g2 o2] b2]|e2];
    cbn in Hsame; try contradiction.
  - destruct Hsame as [-> ->]. reflexivity.
  - now subst e2.
Qed.

Lemma member_danger_ignores_neutral_witness :
  member_danger (Demo.member "#A" "member" 0)
    [VDict [("status", VStr "bad")]; VDict [("status", VStr "ok")];
     VDict [("status", VStr "good")]]
  = member_danger (Demo.member "#A" "member" 0)
      [VDict [("status", VStr "bad")]; VDict [("status", VStr "good")]].
Proof.
  apply (member_danger_ignores_neutral (Demo.member "#A" "member" 0)
           (VDict [("status", VStr "ok")])
           [VDict [("status", VStr "bad")]]
           [VDict [("status", VStr "good")]]).
  right. exists [("status", VStr "ok")], (VStr "ok"). repeat split.
Defined.

Lemma count_status_permutation (s : string) (l l' : list value) :
  Permutation l l' -> count_status s l = count_status s l'.
Proof.
  unfold count_status. intros Hperm.
  induction Hperm as [|x l l' _ IH|x y l|l l' l'' _ IH1 _ IH2].
  - reflexivity.
  - cbn [filter]. destruct (has_status s x); cbn [List.length]; now rewrite IH.
  - cbn [filter]. destruct (has_status s x), (has_status s y); reflexivity.
  - now rewrite IH1.
Qed.

(** X8: on well-formed records the outcome of [member_danger] does not
    depend on the order of the wars. *)
Theorem member_danger_permutation (member : value) (l l' : list value) :
  forallb record_wf l = true ->
  Permutation l l' ->
  member_danger member l = member_danger member l'.
Proof.
  intros Hwf Hperm.
  assert (forallb record_wf l' = true) as Hwf'.
  { rewrite forallb_forall in *. intros r Hin. apply Hwf.
    eapply Permutation_in; [apply Permutation_sym, Hperm | exact Hin]. }
  unfold member_danger.
  rewrite (count_statuses_spec l Hwf 0 0 0).
  rewrite (count_statuses_spec l' Hwf' 0 0 0).
  now rewrite !(count_status_permutation _ l l' Hperm).
Qed.

Lemma member_danger_permutation_witness :
  member_danger (Demo.member "#A" "member" 0)
    [VDict [("status", VStr "bad")]; VDict [("status", VStr "good")]]
  = member_danger (Demo.member "#A" "member" 0)
      [VDict [("status", VStr "good")]; VDict [("status", VStr "bad")]].
Proof.
  apply (member_danger_permutation (Demo.member "#A" "member" 0)).
  - reflexivity.
  - apply perm_swap.
Defined.

(** ** The rows of the dashboard *)

Lemma member_danger_donations_only (m m' : value) (records : list value) :
  subscript m "donations" = subscript m' "donations" ->
  member_danger m records = member_danger m' records.
Proof.
  intros Hd. unfold member_danger.
  destruct (count_statuses records 0 0 0) as [[[good ok] bad]|e];
    cbn [rbind]; [|reflexivity].
  destruct (Nat.ltb good bad); [reflexivity|].
  destruct (Nat.eqb good 0); [|reflexivity].
  now rewrite Hd.
Qed.

Lemma member_row_run (d : dict) (t r n : value) (wars : list value) :
  dict_get "tag" d = Some t ->
  dict_get "role" d = Some r ->
  dict_get "donations" d = Some n ->
  forallb war_wf wars = true ->
  exists flag,
    member_danger (VDict d) (map (participation_of t) wars) = Ok flag /\
    member_row (VDict d) (VList wars)
    = Ok (VDict (row_dict d (map (participation_of t) wars) flag r),
          VList (map (war_after t) wars)).
Proof.
  intros Ht Hr Hn Hwf.
  destruct (member_danger_returns (VDict d) (map (participation_of t) wars) n)
    as [flag Hflag].
  { now apply participation_of_wf. }
  { cbn [subscript]. now rewrite Hn. }
  exists flag. split; [exact Hflag|].
  unfold member_row. cbn [subscript]. rewrite Ht. cbn [rbind].
  rewrite (member_warlog_spec t wars Hwf). cbn [rbind setitem].
  rewrite (member_danger_donations_only _ (VDict d))
    by (cbn [subscript]; now other_key).
  rewrite Hflag. cbn [rbind setitem subscript].
  repeat other_key. rewrite Hr. cbn [rbind]. unfold row_dict.
  destruct (py_eq r (VStr "leader") || py_eq r (VStr "coLeader"));
    cbn [rbind subscript]; repeat other_key; rewrite Hr; cbn [rbind];
    destruct (py_eq r (VStr "coLeader")); reflexivity.
Qed.

Lemma row_dict_other (d : dict) (records : list value) (flag : bool)
    (role : value) (k : string) :
  ~ In k row_keys ->
  dict_get k (row_dict d records flag role) = dict_get k d.
Proof.
  intros Hk. unfold row_keys in Hk. cbn [In] in Hk.
  assert (forall k', In k' row_keys -> k' <> k) as Hne.
  { intros k' Hin Heq. subst k'. apply Hk. cbn [In row_keys] in Hin.
    tauto. }
  unfold row_dict.
  destruct (py_eq role (VStr "coLeader"));
    rewrite !dict_get_set_other; try reflexivity;
    apply Hne; cbn; tauto.
Qed.

Lemma row_dict_warlog (d : dict) (records : list value) (flag : bool)
    (role : value) :
  dict_get "warlog" (row_dict d records flag role) = Some (VList records) /\
  dict_get "danger" (row_dict d records flag role) = Some (VBool flag).
Proof.
  unfold row_dict.
  destruct (py_eq role (VStr "coLeader")); split;
    repeat other_key; now rewrite dict_get_set_same.
Qed.

Lemma member_rows_from (wars : list value) (members : list value) :
  forallb war_wf wars = true ->
  forallb member_wf members = true ->
  forall cur,
    same_records wars cur ->
    exists rows cur',
      member_rows members (VList cur) = Ok (rows, VList cur') /\
      Forall2 (row_from wars) members rows.
Proof.
  intros Hwars. induction members as [|member members IH];
    intros Hm cur [Hcur Hsame].
  - exists [], cur. split; [reflexivity | constructor].
  - simpl in Hm. apply andb_prop in Hm as [Hmember Hrest].
    destruct (member_wf_inv member Hmember)
      as (d & t & r & n & -> & Ht & Hr & Hn).
    destruct (member_row_run d t r n cur Ht Hr Hn Hcur) as (flag & Hflag & Hrow).
    destruct (IH Hrest (map (war_after t) cur)) as (rows & cur' & Hrows & Hall).
    { split; [now apply warlog_after_wf|]. intros t'.
      rewrite <- Hsame, map_map. apply map_ext_in. intros war Hin.
      apply participation_of_after.
      rewrite forallb_forall in Hcur. now apply Hcur. }
    eexists _, cur'. cbn [member_rows]. rewrite Hrow. cbn [rbind].
    rewrite Hrows. cbn [rbind]. split; [reflexivity|].
    constructor; [|exact Hall]. rewrite Hsame in Hflag |- *. split.
    + intros k Hk. cbn [subscript]. now rewrite row_dict_other.
    + exists t, (map (participation_of t) wars),
        (VList (map (war_after t) wars)), flag.
      destruct (row_dict_warlog d (map (participation_of t) wars) flag r)
        as [Hw Hdg].
      cbn [subscript]. rewrite Ht, Hw, Hdg.
      repeat split; try reflexivity; [|exact Hflag].
      now apply member_warlog_spec.
Qed.

(** X9: the loop gives one row per member, in the order of the member
    list; a row keeps every key of its member but [warlog], [danger],
    [leadership] and [role], its [warlog] and [danger] are what
    [member_warlog] and [member_danger] give for that member on the war log
    as fetched (the statuses written for earlier members do not show), and
    the clan afterwards carries the rows as its member list, its other keys
    as they were. *)
Theorem member_dash_rows (clan : dict) (members wars : list value) :
  dict_get "memberList" clan = Some (VList members) ->
  forallb member_wf members = true ->
  forallb war_wf wars = true ->
  exists rows clan' warlog',
    member_dash (VDict clan) (VList wars) = Ok (rows, clan', warlog') /\
    subscript clan' "memberList" = Ok (VList rows) /\
    (forall k, k <> "memberList" ->
               subscript clan' k = subscript (VDict clan) k) /\
    Forall2
      (fun member row =>
         (forall k, ~ In k ["warlog"; "danger"; "leadership"; "role"] ->
                    subscript row k = subscript member k) /\
         exists tag records warlog1 flag,
           subscript member "tag" = Ok tag /\
           member_warlog tag (VList wars) = Ok (records, warlog1) /\
           subscript row "warlog" = Ok (VList records) /\
           member_danger member records = Ok flag /\
           subscript row "danger" = Ok (VBool flag))
      members rows.
Proof.
  intros Hlist Hm Hwf.
  destruct (member_rows_from wars members Hwf Hm wars)
    as (rows & wars' & Hrows & Hall).
  { split; [exact Hwf | reflexivity]. }
  unfold member_dash. cbn [subscript]. rewrite Hlist. cbn [rbind py_iter].
  rewrite Hrows. cbn [rbind].
  eexists _, _, _. split; [reflexivity|]. cbn [subscript].
  rewrite dict_get_set_same. split; [reflexivity|]. split.
  - intros k Hk. now rewrite dict_get_set_other by congruence.
  - exact Hall.
Qed.

Lemma member_dash_rows_witness :
  exists rows clan' warlog',
    member_dash Demo.clan Demo.warlog = Ok (rows, clan', warlog') /\
    subscript clan' "memberList" = Ok (VList rows) /\
    (forall k, k <> "memberList" ->
               subscript clan' k = subscript Demo.clan k) /\
    Forall2
      (fun member row =>
         (forall k, ~ In k ["warlog"; "danger"; "leadership"; "role"] ->
                    subscript row k = subscript member k) /\
         exists tag records warlog1 flag,
           subscript member "tag" = Ok tag /\
           member_warlog tag Demo.warlog = Ok (records, warlog1) /\
           subscript row "warlog" = Ok (VList records) /\
           member_danger member records = Ok flag /\
           subscript row "danger" = Ok (VBool flag))
      [Demo.member "#A" "coLeader" 100; Demo.member "#B" "member" 0] rows.
Proof.
  apply (member_dash_rows
           [("tag", VStr "#C"); ("name", VStr "Clan");
            ("description", VStr "from the API");
            ("requiredTrophies", VInt 1000);
            ("memberList", VList [Demo.member "#A" "coLeader" 100;
                                  Demo.member "#B" "member" 0])]
           _ Demo.wars);
    reflexivity.
Defined.

(** ** warlog_dates *)

(** X10: [s.split('.')[0]] is the text before the first dot: it has no dot,
    and the stamp is that text alone or that text, a dot and a rest. *)
Theorem before_dot_spec (s : string) :
  ~ In "."%char (list_ascii_of_string (before_dot s)) /\
  (s = before_dot s \/
   exists rest, s = (before_dot s ++ "." ++ rest)%string).
Proof.
  induction s as [|c s [IHno IHsplit]]; cbn [before_dot].
  - split; [intros []|now left].
  - destruct (Ascii.eqb c ".") eqn:Hc.
    + apply Ascii.eqb_eq in Hc. subst c. split; [intros []|].
      right. now exists s.
    + cbn [list_ascii_of_string In]. split.
      * intros [Heq|Hin]; [|now apply IHno].
        subst c. discriminate.
      * destruct IHsplit as [Heq|[rest Heq]].
        -- left. now f_equal.
        -- right. exists rest. cbn [String.append]. now f_equal.
Qed.

Lemma before_dot_idempotent (s : string) :
  before_dot (before_dot s) = before_dot s.
Proof.
  induction s as [|c s IH]; cbn [before_dot]; [reflexivity|].
  destruct (Ascii.eqb c ".") eqn:Hc; [reflexivity|].
  cbn [before_dot]. now rewrite Hc, IH.
Qed.

(** X11: on a list of wars [warlog_dates] returns labels exactly when every
    war has a string [createdDate] whose text before the first dot the
    date parser accepts, and then there is one label per war, in the order
    of the wars, each the parser's label for that text. *)
Theorem warlog_dates_spec (E : externals) (wars labels : list value) :
  warlog_dates E (VList wars) = Ok labels <->
  Forall2 (fun war label =>
             exists s l,
               subscript war "createdDate" = Ok (VStr s) /\
               strptime_strftime E (before_dot s) = Some l /\
               label = VStr l)
          wars labels.
Proof.
  unfold warlog_dates. cbn [py_iter rbind]. revert labels.
  induction wars as [|war wars IH]; intros labels; cbn [warlog_dates_loop].
  - split.
    + intros H. inversion H. constructor.
    + intros H. now inversion H.
  - split.
    + intros Hrun.
      destruct (subscript war "createdDate") as [created|e] eqn:Hs;
        [|discriminate].
      cbn [rbind] in Hrun.
      destruct created as [|b|n|s|l|d]; try discriminate.
      cbn [rbind] in Hrun.
      destruct (strptime_strftime E (before_dot s)) as [label|] eqn:Hparse;
        [|discriminate].
      cbn [of_option rbind] in Hrun.
      destruct (warlog_dates_loop E wars) as [rest|e]; [|discriminate].
      cbn [rbind] in Hrun. inversion Hrun. subst labels.
      constructor; [now exists s, label|]. now apply IH.
    + intros Hall. inversion Hall as [|war' label wars' rest Hwar Hrest];
        subst.
      destruct Hwar as (s & l & Hs & Hparse & ->).
      rewrite Hs. cbn [rbind]. rewrite Hparse. cbn [of_option rbind].
      apply IH in Hrest. rewrite Hrest. reflexivity.
Qed.

(** ** Description resolution *)

(** X12: resolving the description changes nothing in the world, and a clan
    without a [description] key makes it raise that [KeyError] whether or
    not a description file is supplied, and whether or not it exists. *)
Theorem resolve_description_frame (E : externals) (clan : value)
    (description_path : option path) (w : world) :
  snd (resolve_description E clan description_path w) = w /\
  (forall e,
      subscript clan "description" = Err e ->
      fst (resolve_description E clan description_path w) = Err e).
Proof.
  unfold resolve_description, bind, lift. split.
  - destruct (subscript clan "description") as [description|e];
      [|reflexivity].
    destruct description_path as [[|c rest]|]; try reflexivity.
    unfold isfile, read_text, fscall, ret.
    destruct (fs w (expanduser E (c :: rest))) as [[st data|st]|] eqn:Hp;
      try reflexivity.
    destruct (fault E (Read (expanduser E (c :: rest)))); [reflexivity|].
    rewrite Hp. cbn [snd]. apply with_fs_same.
  - intros e Herr. now rewrite Herr.
Qed.

Lemma resolve_description_frame_witness :
  fst (resolve_description (Demo.env 200 "clan") (VDict [])
         (Some ["home"; "about.txt"]) Demo.start)
  = Err (KeyError "description").
Proof.
  apply (proj2 (resolve_description_frame (Demo.env 200 "clan") (VDict [])
                  (Some ["home"; "about.txt"]) Demo.start)).
  reflexivity.
Defined.

(** ** The requests of a run *)

Lemma asks_nothing {A : Type} (m : M A) :
  (forall w, requests (snd (m w)) = requests w) -> asks [] m.
Proof.
  intros Hm w. exists [], []. repeat split; auto.
  now rewrite Hm, app_nil_r.
Qed.

Lemma asks_bind {A B : Type} (n1 n2 : list (string * list (string * string)))
    (m : M A) (k : A -> M B) :
  asks n1 m -> (forall a, asks n2 (k a)) -> asks (n1 ++ n2) (bind m k).
Proof.
  intros Hm Hk w. unfold bind.
  destruct (Hm w) as (l1 & r1 & Hn1 & Hreq1 & Hok1).
  destruct (m w) as [[a|e] w1]; cbn [fst snd is_ok] in *.
  - specialize (Hok1 eq_refl). subst r1. rewrite app_nil_r in Hn1.
    subst l1.
    destruct (Hk a w1) as (l2 & r2 & Hn2 & Hreq2 & Hok2).
    exists (n1 ++ l2), r2. rewrite Hreq2, Hreq1, Hn2, !app_assoc.
    repeat split; auto.
  - exists l1, (r1 ++ n2). rewrite Hn1, app_assoc.
    split; [reflexivity|]. split; [exact Hreq1 | discriminate].
Qed.

Lemma asks_then {A B : Type} (n : list (string * list (string * string)))
    (m : M A) (k : A -> M B) :
  asks [] m -> (forall a, asks n (k a)) -> asks n (bind m k).
Proof. intros Hm Hk. now apply (asks_bind [] n). Qed.

Lemma asks_first {A B : Type} (n : list (string * list (string * string)))
    (m : M A) (k : A -> M B) :
  asks n m -> (forall a, asks [] (k a)) -> asks n (bind m k).
Proof.
  intros Hm Hk. rewrite <- (app_nil_r n). now apply asks_bind.
Qed.

Section Requests.

Variable E : externals.

Lemma fscall_silent {A : Type} (op : fsop)
    (act : filesystem -> result A * filesystem) :
  asks [] (fscall E op act).
Proof.
  apply asks_nothing. intros w. unfold fscall.
  destruct (fault E op); [reflexivity|].
  now destruct (act (fs w)).
Qed.

Lemma copytree_silent (src dst : path) : asks [] (copytree E src dst).
Proof. apply asks_nothing. intros w. apply copytree_shape. Qed.

Lemma rmtree_silent (p : path) : asks [] (rmtree E p).
Proof. apply asks_nothing. intros w. apply rmtree_shape. Qed.

Lemma lift_silent {A : Type} (r : result A) : asks [] (lift r).
Proof. now apply asks_nothing. Qed.

Lemma ret_silent {A : Type} (a : A) : asks [] (ret a).
Proof. now apply asks_nothing. Qed.

Lemma requests_get_asks (url : string) (headers : list (string * string)) :
  asks [(url, headers)] (requests_get E url headers).
Proof.
  intros w. exists [(url, headers)], []. repeat split; auto.
Qed.

Lemma get_clan_asks (api_key clan_id : string) :
  asks [(("https://api.clashroyale.com/v1/clans/"
          ++ quote_plus E clan_id)%string, api_headers api_key)]
       (get_clan E api_key clan_id).
Proof.
  unfold get_clan. apply asks_first; [apply requests_get_asks|].
  intros r. apply asks_then; [apply lift_silent|]. intros clan.
  apply ret_silent.
Qed.

Lemma get_warlog_asks (api_key clan_id : string) :
  asks [(("https://api.clashroyale.com/v1/clans/"
          ++ quote_plus E clan_id ++ "/warlog?limit=20")%string,
         api_headers api_key)]
       (get_warlog E api_key clan_id).
Proof.
  unfold get_warlog. apply asks_first; [apply requests_get_asks|].
  intros r. apply asks_then; [apply lift_silent|]. intros warlog.
  apply lift_silent.
Qed.

Lemma write_object_to_file_silent (p : path) (obj : value) :
  asks [] (write_object_to_file E p obj).
Proof.
  unfold write_object_to_file.
  apply asks_then; [apply fscall_silent|]. intros _.
  apply asks_then; [destruct obj; now apply asks_nothing|]. intros t.
  apply fscall_silent.
Qed.

Lemma resolve_description_silent (clan : value)
    (description_path : option path) :
  asks [] (resolve_description E clan description_path).
Proof.
  unfold resolve_description.
  apply asks_then; [apply lift_silent|]. intros description.
  destruct description_path as [[|c rest]|]; try apply ret_silent.
  apply asks_then; [now apply asks_nothing|]. intros found.
  destruct found; [|apply ret_silent].
  apply asks_then; [apply fscall_silent|]. intros content. apply ret_silent.
Qed.

Lemma render_dashboard_silent (members : list value)
    (clan_name clan_id clan_description clan_min_trophies : value)
    (clan_stats : string) (war_dates : list value) :
  asks [] (render_dashboard E members clan_name clan_id clan_description
             clan_min_trophies clan_stats war_dates).
Proof.
  unfold render_dashboard, render_template.
  apply asks_then; [apply lift_silent|]. intros member_table.
  apply asks_then; [apply lift_silent|]. intros title. apply lift_silent.
Qed.

Lemma stage_asks (tempdir : path) (api_key clan_id : string)
    (logo_path favicon_path description_path : option path) :
  asks [(("https://api.clashroyale.com/v1/clans/"
          ++ quote_plus E clan_id)%string, api_headers api_key);
        (("https://api.clashroyale.com/v1/clans/"
          ++ quote_plus E clan_id ++ "/warlog?limit=20")%string,
         api_headers api_key)]
       (stage E tempdir api_key clan_id logo_path favicon_path
          description_path).
Proof.
  unfold stage.
  apply asks_then; [apply fscall_silent|]. intros _.
  apply asks_then; [apply copytree_silent|]. intros _.
  apply asks_then;
    [unfold copy_asset; destruct logo_path as [[|c r]|];
     apply fscall_silent|]. intros _.
  apply asks_then;
    [unfold copy_asset; destruct favicon_path as [[|c r]|];
     apply fscall_silent|]. intros _.
  apply (asks_bind [_] [_]); [apply get_clan_asks|]. intros clan.
  apply asks_then; [apply write_object_to_file_silent|]. intros _.
  apply asks_then; [apply resolve_description_silent|]. intros description.
  apply asks_first; [apply get_warlog_asks|]. intros warlog.
  apply asks_then; [apply write_object_to_file_silent|]. intros _.
  apply asks_then; [apply lift_silent|]. intros [[rows clan'] warlog'].
  apply asks_then; [apply lift_silent|]. intros stats_html.
  apply asks_then; [apply lift_silent|]. intros name.
  apply asks_then; [apply lift_silent|]. intros tag.
  apply asks_then; [apply lift_silent|]. intros trophies.
  apply asks_then; [apply lift_silent|]. intros dates.
  apply asks_then; [apply render_dashboard_silent|]. intros html.
  apply write_object_to_file_silent.
Qed.

Lemma publish_silent (tempdir output_path : path) :
  asks [] (publish E tempdir output_path).
Proof.
  unfold publish.
  apply asks_then; [now apply asks_nothing|]. intros present.
  apply asks_then; [|intros _; apply copytree_silent].
  destruct present; [|apply ret_silent].
  apply asks_then; [apply fscall_silent|]. intros _. apply rmtree_silent.
Qed.

End Requests.

(** X13: a run issues at most two requests, the clan request and then the
    war-log request, each at most once; a run that returns has issued
    both. *)
Theorem build_dashboard_requests (E : externals) (api_key clan_id : string)
    (logo_path favicon_path description_path : option path)
    (output_path : path) (w : world) :
  exists sent rest,
    [(("https://api.clashroyale.com/v1/clans/"
       ++ quote_plus E clan_id)%string, api_headers api_key);
     (("https://api.clashroyale.com/v1/clans/"
       ++ quote_plus E clan_id ++ "/warlog?limit=20")%string,
      api_headers api_key)] = sent ++ rest /\
    requests (snd (build_dashboard E api_key clan_id logo_path favicon_path
                     description_path output_path w))
    = requests w ++ sent /\
    (fst (build_dashboard E api_key clan_id logo_path favicon_path
            description_path output_path w) = Ok tt ->
     rest = []).
Proof.
  unfold build_dashboard.
  destruct (fscall_silent E Mkdtemp
              (fun f => (Ok (mkdtemp_path E),
                         fs_set (mkdtemp_path E) (Dir mode_tempdir) f)) w)
    as (l0 & r0 & Hn0 & Hreq0 & _).
  symmetry in Hn0. apply app_eq_nil in Hn0 as [-> ->].
  rewrite app_nil_r in Hreq0. fold (mkdtemp E) in Hreq0.
  destruct (mkdtemp E w) as [[tempdir|e] w1]; cbn [snd] in Hreq0.
  2:{ eexists [], _. split; [reflexivity|]. cbn [fst snd].
      rewrite Hreq0, app_nil_r. split; [reflexivity | discriminate]. }
  unfold try_finally.
  pose proof (asks_first _ _ _
                (stage_asks E tempdir api_key clan_id logo_path favicon_path
                   description_path)
                (fun _ => publish_silent E tempdir output_path) w1)
    as (sent & rest & Hn & Hreq & Hok).
  destruct (bind _ _ w1) as [r w2]; cbn [fst snd] in Hreq, Hok.
  destruct (rmtree_silent E tempdir w2) as (l3 & r3 & Hn3 & Hreq3 & _).
  symmetry in Hn3. apply app_eq_nil in Hn3 as [-> ->].
  rewrite app_nil_r in Hreq3.
  exists sent, rest. split; [exact Hn|].
  destruct (rmtree E tempdir w2) as [[u|e] w3]; cbn [fst snd] in *.
  - rewrite Hreq3, Hreq, Hreq0. split; [reflexivity|].
    intros Hr. apply Hok. now rewrite Hr.
  - rewrite Hreq3, Hreq, Hreq0. split; [reflexivity | discriminate].
Qed.

(** ** The publish step, run and inverted *)

Lemma bind_ok {A B : Type} (m : M A) (k : A -> M B) (w w' : world) (b : B) :
  bind m k w = (Ok b, w') ->
  exists a w1, m w = (Ok a, w1) /\ k a w1 = (Ok b, w').
Proof.
  unfold bind. destruct (m w) as [[a|e] w1]; [|discriminate].
  intros H. now exists a, w1.
Qed.

Lemma fscall_ok (E : externals) {A : Type} (op : fsop)
    (act : filesystem -> result A * filesystem) (w w' : world) (a : A) :
  fscall E op act w = (Ok a, w') ->
  exists f', act (fs w) = (Ok a, f') /\ w' = with_fs w f'.
Proof.
  unfold fscall. destruct (fault E op); [discriminate|].
  destruct (act (fs w)) as [r f']. intros H. inversion H. subst.
  now exists f'.
Qed.

Lemma copystat_ok (E : externals) (src dst : path) (w w' : world) :
  copystat E src dst w = (Ok tt, w') ->
  exists n m,
    fs w src = Some n /\ fs w dst = Some m /\
    w' = with_fs w (fs_set dst (node_with_stat (node_stat n) m) (fs w)).
Proof.
  intros H. apply fscall_ok in H as (f' & Hact & ->).
  destruct (fs w src) as [n|]; [|discriminate].
  destruct (fs w dst) as [m|]; [|discriminate].
  inversion Hact. now exists n, m.
Qed.

Lemma rmtree_ok (E : externals) (p : path) (w w' : world) :
  rmtree E p w = (Ok tt, w') ->
  is_dir (fs w p) /\ w' = with_fs w (fs_rmtree p (fs w)).
Proof.
  unfold rmtree. destruct (fs w p) as [[st data|st]|]; try discriminate.
  destruct (fault E (Rmtree p)); [discriminate|].
  destruct (root E || removable (fs w) p); [|discriminate].
  intros H. inversion H. now split.
Qed.

Lemma copytree_ok (E : externals) (src dst : path) (w w' : world) :
  copytree E src dst w = (Ok tt, w') ->
  is_dir (fs w src) /\ fs w dst = None /\
  exists f',
    makedirs_fs (List.length dst) dst (fs w) = (Ok tt, f') /\
    w' = with_fs w (fs_copytree src dst f').
Proof.
  unfold copytree. destruct (fs w src) as [[st data|st]|]; try discriminate.
  destruct (fs w dst) as [n|]; [discriminate|].
  destruct (negb (root E || owner_r st)); [discriminate|].
  destruct (makedirs_fs (List.length dst) dst (fs w)) as [[[]|e] f'];
    [|discriminate].
  destruct (fault E (Copytree src dst)).
  { destruct (copied E src dst []); discriminate. }
  destruct (root E || readable f' src); [|discriminate].
  intros H. inversion H. repeat split. now exists f'.
Qed.

Lemma path_eqb_apart (p q : path) : under p q = false -> path_eqb p q = false.
Proof.
  intros Hnot. destruct (path_eqb p q) eqn:Heq; [|reflexivity].
  apply path_eqb_eq in Heq. subst q. now rewrite under_refl in Hnot.
Qed.

Lemma path_eqb_below (p rel : path) :
  rel <> [] -> path_eqb p (p ++ rel) = false.
Proof.
  intros Hrel. destruct (path_eqb p (p ++ rel)) eqn:Heq; [|reflexivity].
  apply path_eqb_eq in Heq. rewrite <- (app_nil_r p) in Heq at 1.
  apply app_inv_head in Heq. now subst rel.
Qed.

Lemma path_eqb_other (p q : path) : q <> p -> path_eqb p q = false.
Proof.
  intros Hne. destruct (path_eqb p q) eqn:Heq; [|reflexivity].
  apply path_eqb_eq in Heq. congruence.
Qed.

Lemma unrelated_sym (p q : path) : unrelated p q = unrelated q p.
Proof. unfold unrelated. apply andb_comm. Qed.

Lemma unrelated_not_under (p q : path) :
  unrelated p q = true -> under p q = false /\ under q p = false.
Proof.
  unfold unrelated. intros H. apply andb_prop in H as [H1 H2].
  now destruct (under p q), (under q p).
Qed.

Lemma strip_prefix_refl (p : path) : strip_prefix p p = Some [].
Proof.
  induction p as [|x p IH]; simpl; [reflexivity|].
  now rewrite String.eqb_refl.
Qed.

Lemma under_antisym (p q : path) :
  under p q = true -> under q p = true -> p = q.
Proof.
  intros Hpq Hqp. apply under_inv in Hpq as [r ->].
  apply under_inv in Hqp as [t Ht].
  apply (f_equal (@List.length string)) in Ht.
  rewrite !length_app in Ht.
  destruct r; [now rewrite app_nil_r | simpl in Ht; lia].
Qed.


(** The file system the copy of the publish step starts from. *)
Lemma publish_before_copy (E : externals) (out tempdir : path)
    (w w2 : world) (present : bool) :
  is_dir (fs w tempdir) ->
  present = match fs w out with Some _ => true | None => false end ->
  (if present then bind (copystat E out tempdir) (fun _ => rmtree E out)
   else ret tt) w = (Ok tt, w2) ->
  fs w2 = match fs w out with
          | Some old =>
              fs_rmtree out (fs_set tempdir (Dir (node_stat old)) (fs w))
          | None => fs w
          end.
Proof.
  intros Hdir -> Hpre. destruct (fs w out) as [old|] eqn:Hout.
  - apply bind_ok in Hpre as ([] & w3 & Hstat & Hrm).
    apply copystat_ok in Hstat as (n & m & Hn & Hm & ->).
    apply rmtree_ok in Hrm as (_ & ->). cbn [fs with_fs].
    rewrite Hout in Hn. inversion Hn. subst n.
    rewrite Hm in Hdir. now destruct m.
  - unfold ret in Hpre. now inversion Hpre.
Qed.

Lemma publish_ok (E : externals) (tempdir output_path : path)
    (w w' : world) :
  unrelated tempdir (expanduser E output_path) = true ->
  is_dir (fs w tempdir) ->
  publish E tempdir output_path w = (Ok tt, w') ->
  (forall rel, rel <> [] ->
               fs w' (expanduser E output_path ++ rel)
               = fs w (tempdir ++ rel)) /\
  fs w' (expanduser E output_path)
  = match fs w (expanduser E output_path) with
    | Some old => Some (Dir (node_stat old))
    | None => fs w tempdir
    end /\
  (forall q, under (expanduser E output_path) q = false ->
             under q (expanduser E output_path) = false ->
             q <> tempdir ->
             fs w' q = fs w q) /\
  (forall q, under q (expanduser E output_path) = true ->
             q <> expanduser E output_path ->
             fs w' q = fs w q \/
             (fs w q = None /\ fs w' q = Some (Dir mode_dir))).
Proof.
  intros Hapart Hdir Hrun. unfold publish in Hrun.
  remember (expanduser E output_path) as out eqn:Hout_def. clear Hout_def.
  destruct (unrelated_not_under _ _ Hapart) as [Htd_out Hout_td].
  assert (forall rel, under out (tempdir ++ rel) = false) as Hstaged.
  { intros rel. apply (unrelated_outside out tempdir).
    - now rewrite unrelated_sym.
    - apply under_app. }
  assert (forall rel, under (tempdir ++ rel) out = false) as Hnot_parent.
  { intros rel. destruct (under (tempdir ++ rel) out) eqn:H; [|reflexivity].
    rewrite (under_trans _ _ _ (under_app tempdir rel) H) in Htd_out.
    discriminate. }
  apply bind_ok in Hrun as (present & w1 & Hex & Hrun).
  unfold exists_ in Hex. inversion Hex as [[Hpresent Hw1]]. subst w1.
  clear Hex. symmetry in Hpresent.
  apply bind_ok in Hrun as ([] & w2 & Hpre & Hcopy).
  pose proof (publish_before_copy E out tempdir w w2 present Hdir Hpresent
                Hpre) as Hw2.
  apply copytree_ok in Hcopy as (_ & _ & f' & Hmk & ->).
  pose proof (makedirs_fs_changes _ _ _ _ _ Hmk) as Hch.
  assert (forall q, under q out = false -> f' q = fs w2 q) as Hsame.
  { intros q Hq. destruct (Hch q) as [H|(H & _)]; congruence. }
  assert (forall q, under out q = false -> q <> tempdir ->
                    fs w2 q = fs w q) as Hold.
  { intros q Hq Hne. rewrite Hw2. destruct (fs w out) as [old|];
      [|reflexivity].
    rewrite fs_rmtree_at, Hq, fs_set_at.
    now rewrite (path_eqb_other tempdir q Hne). }
  cbn [fs with_fs]. repeat split.
  - intros rel Hrel. rewrite fs_copytree_at, strip_prefix_app.
    rewrite Hsame by apply Hnot_parent. apply Hold; [apply Hstaged|].
    intros H. rewrite <- (app_nil_r tempdir) in H at 2.
    apply app_inv_head in H. contradiction.
  - rewrite fs_copytree_at, strip_prefix_refl, app_nil_r.
    rewrite Hsame by exact Htd_out. rewrite Hw2.
    destruct (fs w out) as [old|]; [|reflexivity].
    now rewrite fs_rmtree_at, Hout_td, fs_set_at, path_eqb_refl.
  - intros q Hq Hqo Hne. rewrite fs_copytree_at. unfold under in Hq.
    destruct (strip_prefix out q) eqn:Hstrip; [discriminate|].
    rewrite Hsame by exact Hqo. apply Hold; [|exact Hne].
    unfold under. now rewrite Hstrip.
  - intros q Hq Hne.
    assert (under out q = false) as Hnot.
    { destruct (under out q) eqn:H; [|reflexivity].
      contradiction Hne. symmetry. now apply under_antisym. }
    assert (q <> tempdir) as Hne'.
    { intros ->. congruence. }
    rewrite fs_copytree_at. unfold under in Hnot.
    destruct (strip_prefix out q) eqn:Hstrip; [discriminate|].
    rewrite <- (Hold q) by (unfold under; now rewrite ?Hstrip).
    destruct (Hch q) as [H|(_ & H1 & H2)]; [now left | now right].
Qed.

(** X14: when the publish step returns, every path below the output path
    holds what the staged tree holds at the same place below the temporary
    directory, so nothing of an earlier output survives; the output
    directory itself has the stat of the earlier output when there was one;
    no path that is neither above nor below the output path changes, but
    for the stat of the temporary directory; and a path above the output
    path is as it was, or was missing and is now a directory of the
    default mode. *)
Theorem publish_replaces_output (E : externals) (tempdir output_path : path)
    (w w' : world) :
  unrelated tempdir (expanduser E output_path) = true ->
  is_dir (fs w tempdir) ->
  publish E tempdir output_path w = (Ok tt, w') ->
  (forall rel, rel <> [] ->
               fs w' (expanduser E output_path ++ rel)
               = fs w (tempdir ++ rel)) /\
  fs w' (expanduser E output_path)
  = match fs w (expanduser E output_path) with
    | Some old => Some (Dir (node_stat old))
    | None => fs w tempdir
    end /\
  (forall q, under (expanduser E output_path) q = false ->
             under q (expanduser E output_path) = false ->
             q <> tempdir ->
             fs w' q = fs w q) /\
  (forall q, under q (expanduser E output_path) = true ->
             q <> expanduser E output_path ->
             fs w' q = fs w q \/
             (fs w q = None /\ fs w' q = Some (Dir mode_dir))).
Proof. apply publish_ok. Qed.

Lemma publish_replaces_output_witness :
  fs (snd (publish (Demo.env 200 "clan") ["pkg"; "static"] ["out"]
             Demo.start)) (["out"] ++ ["crtools-logo.png"])
  = Demo.disk (["pkg"; "static"] ++ ["crtools-logo.png"]).
Proof.
  apply (proj1 (publish_replaces_output (Demo.env 200 "clan")
                  ["pkg"; "static"] ["out"] Demo.start
                  (snd (publish (Demo.env 200 "clan") ["pkg"; "static"]
                          ["out"] Demo.start))
                  eq_refl I eq_refl)).
  discriminate.
Defined.

Example publish_makes_parents :
  let run := publish (Demo.env 200 "clan") ["pkg"; "static"]
               ["srv"; "www"; "out"] Demo.start in
  fst run = Ok tt /\
  fs (snd run) ["srv"] = Some (Dir 493) /\
  fs (snd run) ["srv"; "www"] = Some (Dir 493) /\
  fs (snd run) ["srv"; "www"; "out"; "crtools-logo.png"]
  = Some (File 420 "logo").
Proof. repeat split; vm_compute; reflexivity. Qed.



(** The demo run with a copy that stops after the top directory: the page
    is at the output path, the logs are not, and the earlier page is
    gone. *)
Example build_dashboard_copy_stops :
  let run := build_dashboard
               (Demo.failing (Demo.env 200 "clan") Demo.copy_to_out_fails)
               "key" "#C" None None None ["out"] Demo.start in
  fst run = Err (OSError "ENOSPC") /\
  fs (snd run) ["out"; "index.html"] = Some (File 420 "<page.html.j2>") /\
  fs (snd run) ["out"; "log"; "clan.json"] = None /\
  fs (snd run) ["tmp"; "x1traasorg"] = None.
Proof. repeat split; vm_compute; reflexivity. Qed.

(** ** What a run that returns has published *)

Lemma lift_ok {A : Type} (r : result A) (w w' : world) (a : A) :
  lift r w = (Ok a, w') -> r = Ok a /\ w' = w.
Proof. unfold lift. intros H. now inversion H. Qed.

Lemma makedirs_ok (E : externals) (tempdir : path) (x : string)
    (rest : path) (w w' : world) :
  is_dir (fs w tempdir) ->
  makedirs E (tempdir ++ x :: rest) w = (Ok tt, w') ->
  forall q, inside tempdir q = false -> fs w' q = fs w q.
Proof.
  intros Hdir H. apply fscall_ok in H as (f' & Hact & ->).
  intros q Hq. cbn [fs with_fs].
  destruct (makedirs_fs_below _ _ _ _ _ _ _ (is_dir_exists _ Hdir) Hact q)
    as [H|(H & _)]; congruence.
Qed.

Lemma copyfile_ok (E : externals) (src dst : path) (w w' : world) :
  copyfile E src dst w = (Ok tt, w') ->
  (exists data, file_at w src data /\ file_at w' dst data) /\
  forall q, q <> dst -> fs w' q = fs w q.
Proof.
  intros H. apply fscall_ok in H as (f' & Hact & ->).
  destruct (fs w src) as [[st data|st]|] eqn:Hsrc; try discriminate.
  assert (exists st', f' = fs_set dst (File st' data) (fs w)) as [st' ->].
  { destruct (fs w dst) as [[st' data'|st']|]; inversion Hact; eauto. }
  split.
  - exists data. split; [now exists st|]. exists st'. cbn [fs with_fs].
    rewrite fs_set_at. now rewrite path_eqb_refl.
  - intros q Hq. cbn [fs with_fs]. rewrite fs_set_at.
    now rewrite (path_eqb_other dst q Hq).
Qed.

Lemma write_text_ok (E : externals) (p : path) (s : string) (w w' : world) :
  write_object_to_file E p (VStr s) w = (Ok tt, w') ->
  file_at w' p s /\ forall q, q <> p -> fs w' q = fs w q.
Proof.
  intros H. unfold write_object_to_file in H.
  apply bind_ok in H as ([] & w1 & Hopen & H).
  apply bind_ok in H as (t & w2 & Htext & Hwrite).
  unfold is_text, ret in Htext. inversion Htext. subst t w2.
  apply fscall_ok in Hopen as (f1 & Hact1 & ->).
  apply fscall_ok in Hwrite as (f2 & Hact2 & ->).
  cbn [fs with_fs] in *.
  assert (forall q, q <> p -> f1 q = fs w q) as Hf1.
  { intros q Hq.
    destruct (fs w p) as [[st data|st]|]; inversion Hact1;
      rewrite fs_set_at; now rewrite (path_eqb_other p q Hq). }
  destruct (f1 p) as [[st data|st]|]; try discriminate.
  inversion Hact2. subst f2. split.
  - exists st. cbn [fs with_fs]. rewrite fs_set_at.
    now rewrite path_eqb_refl.
  - intros q Hq. rewrite fs_set_at. rewrite (path_eqb_other p q Hq).
    now apply Hf1.
Qed.

Lemma get_clan_ok (E : externals) (api_key clan_id : string)
    (w w' : world) (clan : value) :
  get_clan E api_key clan_id w = (Ok clan, w') ->
  fs w' = fs w /\ forall w0, fst (get_clan E api_key clan_id w0) = Ok clan.
Proof.
  unfold get_clan, bind, requests_get, lift, ret.
  destruct (of_option (http_get E _ _) RequestException) as [r|e];
    [|discriminate].
  destruct (of_option (json_loads E (text r)) JSONDecodeError) as [c|e];
    [|discriminate].
  intros H. inversion H. now split.
Qed.

Lemma get_warlog_ok (E : externals) (api_key clan_id : string)
    (w w' : world) (items : value) :
  get_warlog E api_key clan_id w = (Ok items, w') ->
  fs w' = fs w /\
  forall w0, fst (get_warlog E api_key clan_id w0) = Ok items.
Proof.
  unfold get_warlog, bind, requests_get, lift.
  destruct (of_option (http_get E _ _) RequestException) as [r|e];
    [|discriminate].
  destruct (of_option (json_loads E (text r)) JSONDecodeError) as [c|e];
    [|discriminate].
  intros H. inversion H as [[Hitems Hw]]. split; [reflexivity|].
  intros w0. cbn [fst]. congruence.
Qed.

Lemma resolve_description_world (E : externals) (clan : value)
    (description_path : option path) (w : world) :
  snd (resolve_description E clan description_path w) = w.
Proof.
  unfold resolve_description, bind, lift.
  destruct (subscript clan "description") as [description|e];
    [|reflexivity].
  destruct description_path as [[|c rest]|]; try reflexivity.
  unfold isfile, read_text, fscall, ret.
  destruct (fs w (expanduser E (c :: rest))) as [[st data|st]|] eqn:Hp;
    try reflexivity.
  destruct (fault E (Read (expanduser E (c :: rest)))); [reflexivity|].
  rewrite Hp. cbn [snd]. apply with_fs_same.
Qed.

Lemma render_dashboard_ok (E : externals) (members : list value)
    (clan_name clan_id clan_description clan_min_trophies : value)
    (clan_stats : string) (war_dates : list value) (w w' : world)
    (html : string) :
  render_dashboard E members clan_name clan_id clan_description
    clan_min_trophies clan_stats war_dates w = (Ok html, w') ->
  w' = w /\ exists context, render E "page.html.j2" context = Some html.
Proof.
  unfold render_dashboard, render_template. intros H.
  apply bind_ok in H as (table & w1 & Htable & H).
  apply lift_ok in Htable as [_ ->].
  apply bind_ok in H as (title & w2 & Htitle & H).
  apply lift_ok in Htitle as [_ ->].
  apply lift_ok in H as [Hpage ->]. split; [reflexivity|].
  eexists. destruct (render E "page.html.j2" _) as [page|] eqn:Hr;
    [|discriminate].
  cbn [of_option] in Hpage. inversion Hpage. subst page. exact Hr.
Qed.

Ltac other_path :=
  let H := fresh in
  intros H; apply app_inv_head in H; discriminate H.

Lemma copy_asset_ok (E : externals) (user_path : option path)
    (bundled dest : path) (w w' : world) :
  copy_asset E user_path bundled dest w = (Ok tt, w') ->
  (exists data,
      file_at w (asset_source E user_path bundled) data /\
      file_at w' dest data) /\
  forall q, q <> dest -> fs w' q = fs w q.
Proof.
  unfold copy_asset, asset_source.
  destruct user_path as [[|c rest]|]; apply copyfile_ok.
Qed.

Lemma below_outside (tempdir src : path) (x : string) (rel : path) :
  under tempdir src = false -> src <> tempdir ++ x :: rel.
Proof.
  intros Hout Heq. subst src. rewrite under_app in Hout. discriminate.
Qed.

Lemma stage_ok (E : externals) (tempdir : path) (api_key clan_id : string)
    (logo_path favicon_path description_path : option path)
    (w w' : world) :
  is_dir (fs w tempdir) ->
  stage E tempdir api_key clan_id logo_path favicon_path description_path w
  = (Ok tt, w') ->
  (exists clan items html context,
      (forall w0, fst (get_clan E api_key clan_id w0) = Ok clan) /\
      (forall w0, fst (get_warlog E api_key clan_id w0) = Ok items) /\
      render E "page.html.j2" context = Some html /\
      file_at w' (tempdir ++ ["index.html"]) html /\
      file_at w' (tempdir ++ ["log"; "clan.json"]) (json_dumps E clan) /\
      file_at w' (tempdir ++ ["log"; "warlog.json"]) (json_dumps E items)) /\
  (under tempdir
     (asset_source E logo_path ["static"; "crtools-logo.png"]) = false ->
   exists data,
     file_at w (asset_source E logo_path ["static"; "crtools-logo.png"])
             data /\
     file_at w' (tempdir ++ ["clan_logo.png"]) data) /\
  (under tempdir
     (asset_source E favicon_path ["static"; "crtools-favicon.ico"])
   = false ->
   exists data,
     file_at w (asset_source E favicon_path ["static"; "crtools-favicon.ico"])
             data /\
     file_at w' (tempdir ++ ["favicon.ico"]) data) /\
  (forall rel,
      under tempdir (package_dir E ++ "static" :: rel) = false ->
      fs w' (tempdir ++ "static" :: rel)
      = fs w (package_dir E ++ "static" :: rel)).
Proof.
  intros Hdir H. unfold stage in H. unfold join in H.
  rewrite <- !app_assoc in H. cbn [app] in H.
  apply bind_ok in H as ([] & w1 & Hlog & H).
  apply bind_ok in H as ([] & w2 & Hstatic & H).
  apply bind_ok in H as ([] & w3 & Hlogo & H).
  apply bind_ok in H as ([] & w4 & Hicon & H).
  apply bind_ok in H as (clan & w5 & Hclan & H).
  apply bind_ok in H as ([] & w6 & Hclanlog & H).
  apply bind_ok in H as (description & w7 & Hdesc & H).
  apply bind_ok in H as (items & w8 & Hitems & H).
  apply bind_ok in H as ([] & w9 & Hwarlog & H).
  apply bind_ok in H as ([[rows clan'] items'] & w10 & Hdash & H).
  apply bind_ok in H as (stats & w11 & Hstats & H).
  apply bind_ok in H as (name & w12 & Hname & H).
  apply bind_ok in H as (tag & w13 & Htag & H).
  apply bind_ok in H as (trophies & w14 & Htrophies & H).
  apply bind_ok in H as (dates & w15 & Hdates & H).
  apply bind_ok in H as (html & w16 & Hhtml & Hindex).
  apply lift_ok in Hdash as [_ ->]. apply lift_ok in Hstats as [_ ->].
  apply lift_ok in Hname as [_ ->]. apply lift_ok in Htag as [_ ->].
  apply lift_ok in Htrophies as [_ ->]. apply lift_ok in Hdates as [_ ->].
  apply render_dashboard_ok in Hhtml as [-> [context Hpage]].
  apply write_text_ok in Hindex as [Hindex F9].
  apply write_text_ok in Hwarlog as [Hwarlog F8].
  apply get_warlog_ok in Hitems as [F7 Hitems].
  pose proof (resolve_description_world E clan description_path w6) as F6.
  rewrite Hdesc in F6. cbn [snd] in F6. subst w7.
  apply write_text_ok in Hclanlog as [Hclanlog F5].
  apply get_clan_ok in Hclan as [F4 Hclan].
  apply copy_asset_ok in Hicon as [(icon & Hicon_src & Hicon) F3].
  apply copy_asset_ok in Hlogo as [(logo & Hlogo_src & Hlogo) F2].
  apply copytree_ok in Hstatic as (_ & _ & f' & Hmk & ->).
  pose proof (makedirs_ok E _ _ _ _ _ Hdir Hlog) as F0.
  assert (forall q, under tempdir q = false -> inside tempdir q = false)
    as Hout_in.
  { intros q Hq. unfold inside. now rewrite Hq. }
  assert (forall q, inside tempdir q = false -> f' q = fs w1 q) as F1.
  { intros q Hq.
    assert (fs w1 tempdir <> None) as Hdir1.
    { rewrite F0 by apply inside_irrefl. now apply is_dir_exists. }
    change (tempdir ++ "static" :: nil) with (tempdir ++ ["static"]) in Hmk.
    destruct (makedirs_fs_below _ _ _ _ _ _ _ Hdir1 Hmk q) as [H|(H & _)];
      congruence. }
  assert (forall q, q <> tempdir ++ ["index.html"] ->
                    q <> tempdir ++ ["log"; "warlog.json"] ->
                    q <> tempdir ++ ["log"; "clan.json"] ->
                    fs w' q = fs w4 q) as Flate.
  { intros q H1 H2 H3.
    now rewrite (F9 q H1), (F8 q H2), F7, (F5 q H3), F4. }
  assert (forall q, under tempdir q = false ->
                    fs (with_fs w1
                          (fs_copytree (package_dir E ++ ["static"])
                             (tempdir ++ ["static"]) f')) q
                    = fs w q) as Fearly.
  { intros q Hq. cbn [fs with_fs]. rewrite fs_copytree_at.
    destruct (strip_prefix (tempdir ++ ["static"]) q) as [rel|] eqn:Hrel.
    - apply strip_prefix_inv in Hrel. subst q.
      rewrite <- app_assoc, under_app in Hq. discriminate.
    - rewrite F1, F0 by now apply Hout_in. reflexivity. }
  repeat split.
  - exists clan, items, html, context. repeat split; try assumption.
    + destruct Hclanlog as [st Hfile]. exists st.
      rewrite F9 by other_path. rewrite F8 by other_path.
      now rewrite F7.
    + destruct Hwarlog as [st Hfile]. exists st.
      now rewrite F9 by other_path.
  - intros Hout. exists logo. split.
    + destruct Hlogo_src as [st Hfile]. exists st.
      now rewrite <- (Fearly _ Hout).
    + destruct Hlogo as [st Hfile]. exists st.
      rewrite Flate by other_path. now rewrite F3 by other_path.
  - intros Hout. exists icon. split.
    + destruct Hicon_src as [st Hfile]. exists st.
      rewrite <- (Fearly _ Hout).
      now rewrite <- F2 by (now apply below_outside).
    + destruct Hicon as [st Hfile]. exists st.
      now rewrite Flate by other_path.
  - intros rel Hout.
    rewrite Flate by other_path.
    rewrite F3 by other_path. rewrite F2 by other_path.
    cbn [fs with_fs]. rewrite fs_copytree_at.
    replace (tempdir ++ "static" :: rel)
      with ((tempdir ++ ["static"]) ++ rel)
      by (now rewrite <- app_assoc).
    rewrite strip_prefix_app, <- app_assoc. cbn [app].
    rewrite F1, F0 by now apply Hout_in. reflexivity.
Qed.

Lemma build_dashboard_ok (E : externals) (api_key clan_id : string)
    (logo_path favicon_path description_path : option path)
    (output_path : path) (w w' : world) :
  unrelated (mkdtemp_path E) (expanduser E output_path) = true ->
  build_dashboard E api_key clan_id logo_path favicon_path description_path
    output_path w = (Ok tt, w') ->
  exists staged,
    stage E (mkdtemp_path E) api_key clan_id logo_path favicon_path
      description_path
      (with_fs w (fs_set (mkdtemp_path E) (Dir mode_tempdir) (fs w)))
    = (Ok tt, staged) /\
    forall rel, rel <> [] ->
                fs w' (expanduser E output_path ++ rel)
                = fs staged (mkdtemp_path E ++ rel).
Proof.
  intros Hapart. unfold build_dashboard.
  destruct (fault E Mkdtemp) as [what|] eqn:Hmk.
  { rewrite (mkdtemp_fails E w what Hmk). discriminate. }
  rewrite (mkdtemp_ok E w Hmk).
  set (w1 := with_fs w (fs_set (mkdtemp_path E) (Dir mode_tempdir) (fs w))).
  unfold try_finally.
  destruct (bind _ _ w1) as [r w2] eqn:Hbody.
  destruct (rmtree E (mkdtemp_path E) w2) as [[[]|e] w3] eqn:Hrm;
    [|discriminate].
  intros H. inversion H. subst r w3.
  apply bind_ok in Hbody as ([] & staged & Hstage & Hpublish).
  apply rmtree_ok in Hrm as (_ & ->).
  destruct (stage_staged E (mkdtemp_path E) api_key clan_id logo_path
              favicon_path description_path w1) as [Hbelow _].
  rewrite Hstage in Hbelow. cbn [snd] in Hbelow.
  destruct (Hbelow (mkdtemp_dir E w)) as [_ Hdir].
  destruct (publish_ok E _ _ _ _ Hapart Hdir Hpublish) as (Hcopy & _ & _).
  exists staged. split; [exact Hstage|].
  intros rel Hrel. cbn [fs with_fs]. rewrite fs_rmtree_at.
  rewrite (unrelated_outside _ _ _ Hapart (under_app _ rel)).
  now apply Hcopy.
Qed.

(** X16: a run that returns has left at the output path the page the page
    template rendered as [index.html], and in [log] the dumps of the clan
    and of the war-log items the two fetches returned: the logs are
    published with the dashboard. *)
Theorem build_dashboard_publishes (E : externals) (api_key clan_id : string)
    (logo_path favicon_path description_path : option path)
    (output_path : path) (w w' : world) :
  unrelated (mkdtemp_path E) (expanduser E output_path) = true ->
  build_dashboard E api_key clan_id logo_path favicon_path description_path
    output_path w = (Ok tt, w') ->
  exists clan items html context,
    fst (get_clan E api_key clan_id w) = Ok clan /\
    fst (get_warlog E api_key clan_id w) = Ok items /\
    render E "page.html.j2" context = Some html /\
    file_at w' (expanduser E output_path ++ ["index.html"]) html /\
    file_at w' (expanduser E output_path ++ ["log"; "clan.json"])
            (json_dumps E clan) /\
    file_at w' (expanduser E output_path ++ ["log"; "warlog.json"])
            (json_dumps E items).
Proof.
  intros Hapart Hrun.
  destruct (build_dashboard_ok E _ _ _ _ _ _ _ _ Hapart Hrun)
    as (staged & Hstage & Hcopy).
  destruct (stage_ok E _ _ _ _ _ _ _ _ (mkdtemp_dir E w) Hstage)
    as ((clan & items & html & context & Hclan & Hitems & Hpage
         & Hindex & Hclanlog & Hwarlog) & _).
  exists clan, items, html, context.
  unfold file_at in *. rewrite !Hcopy by discriminate.
  repeat split; auto.
Qed.

Lemma build_dashboard_publishes_witness :
  exists clan items html context,
    fst (get_clan (Demo.env 200 "clan") "key" "#C" Demo.start) = Ok clan /\
    fst (get_warlog (Demo.env 200 "clan") "key" "#C" Demo.start)
    = Ok items /\
    render (Demo.env 200 "clan") "page.html.j2" context = Some html /\
    file_at (snd (build_dashboard (Demo.env 200 "clan") "key" "#C" None None
                    None ["out"] Demo.start))
            (["out"] ++ ["index.html"]) html /\
    file_at (snd (build_dashboard (Demo.env 200 "clan") "key" "#C" None None
                    None ["out"] Demo.start))
            (["out"] ++ ["log"; "clan.json"])
            (json_dumps (Demo.env 200 "clan") clan) /\
    file_at (snd (build_dashboard (Demo.env 200 "clan") "key" "#C" None None
                    None ["out"] Demo.start))
            (["out"] ++ ["log"; "warlog.json"])
            (json_dumps (Demo.env 200 "clan") items).
Proof.
  apply (build_dashboard_publishes (Demo.env 200 "clan") "key" "#C" None
           None None ["out"] Demo.start
           (snd (build_dashboard (Demo.env 200 "clan") "key" "#C" None None
                   None ["out"] Demo.start)));
    reflexivity.
Defined.

(** X17: a run that returns has left at the output path, as
    [clan_logo.png] and [favicon.ico], the content of the user's file when
    a path was given and of the bundled default otherwise (an empty path
    counts as none), and below [static] a copy of the bundled static tree,
    all as they were when the run started. *)
Theorem build_dashboard_assets (E : externals) (api_key clan_id : string)
    (logo_path favicon_path description_path : option path)
    (output_path : path) (w w' : world) :
  unrelated (mkdtemp_path E) (expanduser E output_path) = true ->
  build_dashboard E api_key clan_id logo_path favicon_path description_path
    output_path w = (Ok tt, w') ->
  (under (mkdtemp_path E)
     (asset_source E logo_path ["static"; "crtools-logo.png"]) = false ->
   exists data,
     file_at w (asset_source E logo_path ["static"; "crtools-logo.png"])
             data /\
     file_at w' (expanduser E output_path ++ ["clan_logo.png"]) data) /\
  (under (mkdtemp_path E)
     (asset_source E favicon_path ["static"; "crtools-favicon.ico"])
   = false ->
   exists data,
     file_at w (asset_source E favicon_path ["static"; "crtools-favicon.ico"])
             data /\
     file_at w' (expanduser E output_path ++ ["favicon.ico"]) data) /\
  (forall rel,
      under (mkdtemp_path E) (package_dir E ++ "static" :: rel) = false ->
      fs w' (expanduser E output_path ++ "static" :: rel)
      = fs w (package_dir E ++ "static" :: rel)).
Proof.
  intros Hapart Hrun.
  destruct (build_dashboard_ok E _ _ _ _ _ _ _ _ Hapart Hrun)
    as (staged & Hstage & Hcopy).
  destruct (stage_ok E _ _ _ _ _ _ _ _ (mkdtemp_dir E w) Hstage)
    as (_ & Hlogo & Hicon & Hstatic).
  assert (forall q, under (mkdtemp_path E) q = false ->
            fs (with_fs w (fs_set (mkdtemp_path E) (Dir mode_tempdir) (fs w)))
               q = fs w q) as Hstart.
  { intros q Hq. cbn [fs with_fs]. rewrite fs_set_at.
    now rewrite (path_eqb_apart _ _ Hq). }
  unfold file_at in *. repeat split.
  - intros Hout. destruct (Hlogo Hout) as (data & Hsrc & Hdst).
    exists data. rewrite Hcopy by discriminate.
    rewrite (Hstart _ Hout) in Hsrc. now split.
  - intros Hout. destruct (Hicon Hout) as (data & Hsrc & Hdst).
    exists data. rewrite Hcopy by discriminate.
    rewrite (Hstart _ Hout) in Hsrc. now split.
  - intros rel Hout. rewrite Hcopy by discriminate.
    rewrite (Hstatic rel Hout). now apply Hstart.
Qed.

Lemma build_dashboard_assets_witness :
  exists data,
    file_at Demo.start ["home"; "about.txt"] data /\
    file_at (snd (build_dashboard (Demo.env 200 "clan") "key" "#C"
                    (Some ["home"; "about.txt"]) None None ["out"]
                    Demo.start))
            (["out"] ++ ["clan_logo.png"]) data.
Proof.
  apply (proj1 (build_dashboard_assets (Demo.env 200 "clan") "key" "#C"
                  (Some ["home"; "about.txt"]) None None ["out"] Demo.start
                  (snd (build_dashboard (Demo.env 200 "clan") "key" "#C"
                          (Some ["home"; "about.txt"]) None None ["out"]
                          Demo.start))
                  eq_refl eq_refl)).
  reflexivity.
Defined.

(** ** An exception before the publish step *)

Lemma fs_get_in (f : filesystem) (q : path) (n : node) :
  f q = Some n -> In (q, n) f.
Proof.
  induction f as [|[p m] f IH]; cbn [fs_get fst snd]; [discriminate|].
  destruct (path_eqb p q) eqn:Heq.
  - apply path_eqb_eq in Heq. subst q. intros H. inversion H. now left.
  - intros H. right. now apply IH.
Qed.

Lemma vacant_none (f : filesystem) (p q : path) :
  vacant f p = true -> under p q = true -> f q = None.
Proof.
  intros Hvac Hq. destruct (f q) as [n|] eqn:Hn; [|reflexivity].
  apply fs_get_in in Hn. unfold vacant in Hvac.
  rewrite forallb_forall in Hvac. specialize (Hvac _ Hn).
  cbn [fst] in Hvac. rewrite Hq in Hvac. discriminate.
Qed.

Lemma open_tree_dirs (f : filesystem) (p : path) :
  open_tree f p = true -> open_dirs f p.
Proof.
  intros Hopen q st Hq Hn. apply fs_get_in in Hn. unfold open_tree in Hopen.
  rewrite forallb_forall in Hopen. specialize (Hopen _ Hn).
  cbn [fst snd] in Hopen. now rewrite Hq in Hopen.
Qed.

(** A tree whose directories all have open modes can be removed. *)
Lemma open_removable (f : filesystem) (p : path) :
  open_dirs f p -> removable f p = true.
Proof.
  intros Hopen. unfold removable. apply forallb_forall. intros e _.
  destruct (under p (fst e)) eqn:Hq; [|reflexivity]. cbn [negb orb].
  unfold may_empty. destruct (f (fst e)) as [[st data|st]|] eqn:Hn;
    try reflexivity.
  specialize (Hopen _ _ Hq Hn). unfold open_mode in Hopen.
  apply andb_prop in Hopen as [Hrw Hx]. apply andb_prop in Hrw as [Hr Hw].
  rewrite Hr, Hw, Hx. apply orb_true_r.
Qed.

Section Tidy.

Variable E : externals.
Variable tempdir : path.
Hypothesis static_apart :
  unrelated tempdir (package_dir E ++ ["static"]) = true.

Local Abbreviation static := (package_dir E ++ ["static"]).
Local Abbreviation tidy := (fun f f' : filesystem =>
  fs_below tempdir f f' /\ fs_open tempdir static f f').
Local Abbreviation tidied :=
  (steps (stays_open tempdir static) (fun _ : exn => True)).

Lemma static_outside (q : path) : under static q = true ->
  under tempdir q = false.
Proof. apply unrelated_outside. exact static_apart. Qed.

Lemma tidy_refl (f : filesystem) : tidy f f.
Proof. split; [apply fs_below_refl|]. intros _ H _. exact H. Qed.

Lemma tidy_trans (f1 f2 f3 : filesystem) :
  tidy f1 f2 -> tidy f2 f3 -> tidy f1 f3.
Proof.
  intros [B12 O12] [B23 O23].
  split; [eapply fs_below_trans; eassumption|].
  intros Hdir Htd Hst. destruct (B12 Hdir) as [F12 D2].
  apply O23; [exact D2 | now apply O12 |].
  intros q st Hq Hn. rewrite F12 in Hn by now apply static_outside.
  exact (Hst q st Hq Hn).
Qed.

Lemma stays_open_refl (w : world) : stays_open tempdir static w w.
Proof. apply tidy_refl. Qed.

Lemma stays_open_trans (w1 w2 w3 : world) :
  stays_open tempdir static w1 w2 -> stays_open tempdir static w2 w3 ->
  stays_open tempdir static w1 w3.
Proof. apply tidy_trans. Qed.

Lemma set_tidy (p : path) (n : node) (f : filesystem) :
  below tempdir p ->
  (forall st, n = Dir st -> open_mode st = true) ->
  tidy f (fs_set p n f).
Proof.
  intros Hp Hn. split; [now apply set_fs_below|].
  intros _ Htd _ q st Hq Hnode. rewrite fs_set_at in Hnode.
  destruct (path_eqb p q); [|exact (Htd q st Hq Hnode)].
  inversion Hnode. now apply Hn.
Qed.

Lemma makedirs_fs_tidy (n : nat) (p : path) (f : filesystem) :
  below tempdir p -> tidy f (snd (makedirs_fs n p f)).
Proof.
  intros Hp. split; [now apply makedirs_fs_stays_below|].
  intros _ Htd _ q st Hq Hnode.
  destruct (makedirs_fs n p f) as [r f'] eqn:Hrun. cbn [snd] in Hnode.
  destruct (makedirs_fs_changes _ _ _ _ _ Hrun q) as [H|(_ & _ & H)].
  - rewrite H in Hnode. exact (Htd q st Hq Hnode).
  - rewrite H in Hnode. inversion Hnode. reflexivity.
Qed.

Lemma graft_tidy (part : path -> bool) (dst : path) (f : filesystem) :
  below tempdir dst -> tidy f (fs_graft part static dst f).
Proof.
  intros Hp. split; [now apply graft_fs_below|].
  intros _ Htd Hst q st Hq Hnode. rewrite fs_graft_at in Hnode.
  destruct (strip_prefix dst q) as [rel|]; [|exact (Htd q st Hq Hnode)].
  destruct (part rel); [|discriminate].
  exact (Hst _ st (under_app _ rel) Hnode).
Qed.

Lemma fscall_tidied {A : Type} (op : fsop)
    (act : filesystem -> result A * filesystem) :
  (forall f, tidy f (snd (act f))) -> tidied (fscall E op act).
Proof.
  intros Hact w. split; [|easy]. unfold fscall.
  destruct (fault E op); [apply stays_open_refl|].
  specialize (Hact (fs w)). now destruct (act (fs w)).
Qed.

Lemma same_fs_tidied {A : Type} (m : M A) :
  (forall w, fs (snd (m w)) = fs w) -> tidied m.
Proof.
  intros Hm w. split; [|easy]. unfold stays_open, stays_below.
  rewrite Hm. apply tidy_refl.
Qed.

Lemma tidied_bind {A B : Type} (m : M A) (k : A -> M B) :
  tidied m -> (forall a, tidied (k a)) -> tidied (bind m k).
Proof. apply steps_bind, stays_open_trans. Qed.

Lemma makedirs_tidied (p : path) : below tempdir p -> tidied (makedirs E p).
Proof. intros Hp. apply fscall_tidied. intros f. now apply makedirs_fs_tidy. Qed.

Lemma copytree_tidied (dst : path) :
  below tempdir dst -> tidied (copytree E static dst).
Proof.
  intros Hp w. split; [|easy].
  destruct (copytree_shape E static dst w) as (_ & _ & Hfs).
  unfold stays_open, stays_below.
  destruct Hfs as [->|(r & f' & Hmk & Hfs)]; [apply tidy_refl|].
  pose proof (makedirs_fs_tidy (List.length dst) dst (fs w) Hp) as Hmade.
  rewrite Hmk in Hmade. cbn [snd] in Hmade.
  destruct Hfs as [->|(part & ->)]; [exact Hmade|].
  eapply tidy_trans; [exact Hmade|]. now apply graft_tidy.
Qed.

Ltac files_only :=
  repeat match goal with
         | |- context [match ?x with _ => _ end] => destruct x
         end;
  cbn [snd];
  first [apply tidy_refl | apply set_tidy; [assumption | discriminate]].

Lemma copyfile_tidied (src dst : path) :
  below tempdir dst -> tidied (copyfile E src dst).
Proof. intros Hp. apply fscall_tidied. intros f. files_only. Qed.

Lemma open_w_tidied (p : path) : below tempdir p -> tidied (open_w E p).
Proof. intros Hp. apply fscall_tidied. intros f. files_only. Qed.

Lemma write_tidied (p : path) (s : string) :
  below tempdir p -> tidied (write E p s).
Proof. intros Hp. apply fscall_tidied. intros f. files_only. Qed.

Lemma write_text_tidied (p : path) (s : string) :
  below tempdir p -> tidied (write_object_to_file E p (VStr s)).
Proof.
  intros Hp. unfold write_object_to_file.
  apply tidied_bind; [now apply open_w_tidied|]. intros _.
  apply tidied_bind; [now apply same_fs_tidied|]. intros t.
  now apply write_tidied.
Qed.

Lemma get_clan_tidied (api_key clan_id : string) :
  tidied (get_clan E api_key clan_id).
Proof.
  apply same_fs_tidied. intros w.
  unfold get_clan, bind, requests_get, lift, ret.
  destruct (of_option (http_get E _ _) RequestException) as [r|e];
    [|reflexivity].
  now destruct (of_option (json_loads E (text r)) JSONDecodeError).
Qed.

Lemma get_warlog_tidied (api_key clan_id : string) :
  tidied (get_warlog E api_key clan_id).
Proof.
  apply same_fs_tidied. intros w.
  unfold get_warlog, bind, requests_get, lift.
  destruct (of_option (http_get E _ _) RequestException) as [r|e];
    [|reflexivity].
  now destruct (of_option (json_loads E (text r)) JSONDecodeError).
Qed.

Lemma render_dashboard_tidied (members : list value)
    (clan_name clan_id clan_description clan_min_trophies : value)
    (clan_stats : string) (war_dates : list value) :
  tidied (render_dashboard E members clan_name clan_id clan_description
            clan_min_trophies clan_stats war_dates).
Proof.
  unfold render_dashboard, render_template.
  apply tidied_bind; [now apply same_fs_tidied|]. intros member_table.
  apply tidied_bind; [now apply same_fs_tidied|]. intros title.
  now apply same_fs_tidied.
Qed.

Lemma copy_asset_tidied (user_path : option path) (bundled dest : path) :
  below tempdir dest -> tidied (copy_asset E user_path bundled dest).
Proof.
  intros Hd. unfold copy_asset.
  destruct user_path as [[|c rest]|]; now apply copyfile_tidied.
Qed.

Lemma stage_tidied (api_key clan_id : string)
    (logo_path favicon_path description_path : option path) :
  tidied (stage E tempdir api_key clan_id logo_path favicon_path
            description_path).
Proof.
  unfold stage.
  apply tidied_bind; [apply makedirs_tidied; below_tac|]. intros _.
  apply tidied_bind; [apply copytree_tidied; below_tac|]. intros _.
  apply tidied_bind; [apply copy_asset_tidied; below_tac|]. intros _.
  apply tidied_bind; [apply copy_asset_tidied; below_tac|]. intros _.
  apply tidied_bind; [apply get_clan_tidied|]. intros clan.
  apply tidied_bind; [apply write_text_tidied; below_tac|]. intros _.
  apply tidied_bind.
  { apply same_fs_tidied. intros w.
    now rewrite resolve_description_world. }
  intros description.
  apply tidied_bind; [apply get_warlog_tidied|]. intros warlog.
  apply tidied_bind; [apply write_text_tidied; below_tac|]. intros _.
  apply tidied_bind; [now apply same_fs_tidied|].
  intros [[rows clan'] warlog'].
  apply tidied_bind; [now apply same_fs_tidied|]. intros stats_html.
  apply tidied_bind; [now apply same_fs_tidied|]. intros name.
  apply tidied_bind; [now apply same_fs_tidied|]. intros tag.
  apply tidied_bind; [now apply same_fs_tidied|]. intros trophies.
  apply tidied_bind; [now apply same_fs_tidied|]. intros dates.
  apply tidied_bind; [apply render_dashboard_tidied|]. intros html.
  apply write_text_tidied. below_tac.
Qed.

End Tidy.

(** X18: an exception before the publish step.  When [mkdtemp] has made a
    new directory, apart from the output path and from the bundled static
    tree, the directories of that tree have modes that let their owner
    read, write and search, and the cleanup call meets no failure of its
    own, an exception raised before the publish step reaches the caller
    with the file system as it was before the run: the output path is
    untouched and nothing is left at or below the temporary directory. *)
Theorem build_dashboard_staging_failure (E : externals)
    (api_key clan_id : string)
    (logo_path favicon_path description_path : option path)
    (output_path : path) (w : world) (e : exn) :
  unrelated (mkdtemp_path E) (expanduser E output_path) = true ->
  unrelated (mkdtemp_path E) (package_dir E ++ ["static"]) = true ->
  vacant (fs w) (mkdtemp_path E) = true ->
  open_tree (fs w) (package_dir E ++ ["static"]) = true ->
  fault E Mkdtemp = None ->
  fault E (Rmtree (mkdtemp_path E)) = None ->
  fst (stage E (mkdtemp_path E) api_key clan_id logo_path favicon_path
         description_path (snd (mkdtemp E w))) = Err e ->
  fst (build_dashboard E api_key clan_id logo_path favicon_path
         description_path output_path w) = Err e /\
  (forall q,
      under (expanduser E output_path) q = true ->
      fs (snd (build_dashboard E api_key clan_id logo_path favicon_path
                 description_path output_path w)) q = fs w q) /\
  (forall q,
      under (mkdtemp_path E) q = true ->
      fs (snd (build_dashboard E api_key clan_id logo_path favicon_path
                 description_path output_path w)) q = None) /\
  (forall q,
      fs (snd (build_dashboard E api_key clan_id logo_path favicon_path
                 description_path output_path w)) q = fs w q).
Proof.
  intros Hapart Hstatic Hnew Hopen Hmk Hclean Hraise.
  unfold build_dashboard. rewrite (mkdtemp_ok E w Hmk) in *.
  cbn [snd] in Hraise.
  remember (mkdtemp_path E) as tempdir eqn:Htd.
  set (w1 := with_fs w (fs_set tempdir (Dir mode_tempdir) (fs w))) in *.
  assert (is_dir (fs w1 tempdir)) as Hdir1.
  { subst tempdir. apply mkdtemp_dir. }
  assert (forall q, under tempdir q = false -> fs w1 q = fs w q) as Hout1.
  { intros q Hq. unfold w1. cbn [fs with_fs]. rewrite fs_set_at.
    now rewrite (path_eqb_apart _ _ Hq). }
  assert (open_dirs (fs w1) tempdir) as Htidy1.
  { intros q st Hq Hn. unfold w1 in Hn. cbn [fs with_fs] in Hn.
    rewrite fs_set_at in Hn. destruct (path_eqb tempdir q).
    - inversion Hn. reflexivity.
    - rewrite (vacant_none _ _ _ Hnew Hq) in Hn. discriminate. }
  assert (open_dirs (fs w1) (package_dir E ++ ["static"])) as Hstatic1.
  { intros q st Hq Hn.
    rewrite Hout1 in Hn by exact (unrelated_outside _ _ _ Hstatic Hq).
    exact (open_tree_dirs _ _ Hopen q st Hq Hn). }
  destruct (stage_tidied E tempdir Hstatic api_key clan_id logo_path
              favicon_path description_path w1) as [[Hbelow Htidy] _].
  unfold try_finally, bind.
  destruct (stage E tempdir api_key clan_id logo_path favicon_path
              description_path w1) as [[u|e'] w2]; cbn [fst snd] in *;
    [discriminate|].
  inversion Hraise. subst e'.
  destruct (Hbelow Hdir1) as [Hframe Hdir2].
  specialize (Htidy Hdir1 Htidy1 Hstatic1).
  rewrite (cleanup_removes E tempdir w2 Hclean Hdir2)
    by (rewrite (open_removable _ _ Htidy); apply orb_true_r).
  cbn [fst snd fs with_fs].
  assert (forall q, fs_rmtree tempdir (fs w2) q = fs w q) as Hsame.
  { intros q. rewrite fs_rmtree_at. destruct (under tempdir q) eqn:Hq.
    - symmetry. exact (vacant_none _ _ _ Hnew Hq).
    - now rewrite Hframe, Hout1. }
  split; [reflexivity|]. split; [intros q _; apply Hsame|].
  split; [|exact Hsame].
  intros q Hq. rewrite Hsame. exact (vacant_none _ _ _ Hnew Hq).
Qed.

Lemma build_dashboard_staging_failure_witness :
  fst (build_dashboard (Demo.env 404 "{}") "key" "#C" None None None
         ["out"] Demo.start) = Err (KeyError "description") /\
  (forall q,
      under ["out"] q = true ->
      fs (snd (build_dashboard (Demo.env 404 "{}") "key" "#C" None None None
                 ["out"] Demo.start)) q = Demo.disk q) /\
  (forall q,
      under ["tmp"; "x1traasorg"] q = true ->
      fs (snd (build_dashboard (Demo.env 404 "{}") "key" "#C" None None None
                 ["out"] Demo.start)) q = None) /\
  (forall q,
      fs (snd (build_dashboard (Demo.env 404 "{}") "key" "#C" None None None
                 ["out"] Demo.start)) q = Demo.disk q).
Proof.
  apply (build_dashboard_staging_failure (Demo.env 404 "{}") "key" "#C"
           None None None ["out"] Demo.start (KeyError "description"));
    reflexivity.
Defined.

(** ** A cleanup that cannot remove the temporary directory *)

Lemma copystat_run (E : externals) (src dst : path) (w : world)
    (n m : node) :
  fault E (Copystat src dst) = None ->
  fs w src = Some n -> fs w dst = Some m ->
  copystat E src dst w
  = (Ok tt, with_fs w (fs_set dst (node_with_stat (node_stat n) m) (fs w))).
Proof.
  intros Hfault Hn Hm. unfold copystat, fscall. now rewrite Hfault, Hn, Hm.
Qed.

Lemma rmtree_outside (E : externals) (p : path) (w : world) (q : path) :
  under p q = false -> fs (snd (rmtree E p w)) q = fs w q.
Proof.
  intros Hq. destruct (rmtree_shape E p w) as (_ & _ & [->|(keep & Hk & ->)]);
    [reflexivity|].
  rewrite fs_keep_at. now rewrite (Hk q Hq).
Qed.

Lemma copytree_outside (E : externals) (src dst : path) (w : world)
    (q : path) :
  under dst q = false -> fs w q <> None ->
  fs (snd (copytree E src dst w)) q = fs w q.
Proof.
  intros Hq Hthere.
  destruct (copytree_shape E src dst w)
    as (_ & _ & [->|(r & f' & Hmk & Hfs)]); [reflexivity|].
  pose proof (makedirs_fs_keeps (List.length dst) dst (fs w) q Hthere) as H.
  rewrite Hmk in H. cbn [snd] in H.
  destruct Hfs as [->|(part & ->)]; [exact H|].
  rewrite fs_graft_at. unfold under in Hq.
  now destruct (strip_prefix dst q).
Qed.

Lemma not_removable (f : filesystem) (p : path) (st : Z) :
  f p = Some (Dir st) -> has_entry f p = true ->
  owner_w st && owner_x st = false ->
  removable f p = false.
Proof.
  intros Hp Hentry Hmode. destruct (removable f p) eqn:H; [|reflexivity].
  unfold removable in H. rewrite forallb_forall in H.
  specialize (H _ (fs_get_in _ _ _ Hp)). cbn [fst] in H.
  rewrite under_refl in H. unfold may_empty in H.
  rewrite Hp, Hentry, Hmode in H. cbn [negb orb] in H.
  now rewrite andb_false_r in H.
Qed.

(** For a user other than root, a directory with an entry and without
    write or search permission stops [rmtree], and stays. *)
Lemma rmtree_stuck (E : externals) (p : path) (w : world) (st : Z)
    (x : string) (n : node) :
  root E = false ->
  fs w p = Some (Dir st) -> fs w (p ++ [x]) = Some n ->
  owner_w st && owner_x st = false ->
  (exists what, fst (rmtree E p w) = Err (OSError what)) /\
  fs (snd (rmtree E p w)) p = Some (Dir st).
Proof.
  intros Hroot Hp Hx Hmode. unfold rmtree. rewrite Hp, Hroot.
  rewrite (not_removable _ _ _ Hp
             (has_entry_below _ _ _ _ Hx (inside_app p x [])) Hmode).
  cbn [orb].
  destruct (fault E (Rmtree p)) as [what|]; cbn [fst snd fs with_fs];
    (split; [eexists; reflexivity|]);
    now rewrite fs_rmpart_at, inside_irrefl.
Qed.

(** X19: the temporary directory is left behind.  For a user other than
    root, when the staging has succeeded and the output path exists with a
    mode that lacks the owner's write or search permission (a directory of
    mode 0o555, or any regular file of the usual mode 0o644), the publish
    step gives the temporary directory that mode, and the run ends in the
    [OSError] of the cleanup with the temporary directory still there,
    whatever the publish step did in between. *)
Theorem build_dashboard_cleanup_fails (E : externals)
    (api_key clan_id : string)
    (logo_path favicon_path description_path : option path)
    (output_path : path) (w : world) (old : node) :
  root E = false ->
  unrelated (mkdtemp_path E) (expanduser E output_path) = true ->
  fault E Mkdtemp = None ->
  fst (stage E (mkdtemp_path E) api_key clan_id logo_path favicon_path
         description_path (snd (mkdtemp E w))) = Ok tt ->
  fs w (expanduser E output_path) = Some old ->
  owner_w (node_stat old) && owner_x (node_stat old) = false ->
  fault E (Copystat (expanduser E output_path) (mkdtemp_path E)) = None ->
  (exists what,
      fst (build_dashboard E api_key clan_id logo_path favicon_path
             description_path output_path w) = Err (OSError what)) /\
  fs (snd (build_dashboard E api_key clan_id logo_path favicon_path
             description_path output_path w)) (mkdtemp_path E)
  = Some (Dir (node_stat old)).
Proof.
  intros Hroot Hapart Hmk Hstaged Hout Hmode Hstat.
  remember (build_dashboard E api_key clan_id logo_path favicon_path
              description_path output_path w) as run eqn:Hrun.
  unfold build_dashboard in Hrun. rewrite (mkdtemp_ok E w Hmk) in *.
  cbn [snd] in Hstaged.
  pose proof (mkdtemp_dir E w) as Hdir1.
  remember (mkdtemp_path E) as tempdir eqn:Htd. clear Htd.
  remember (expanduser E output_path) as out eqn:Hout_def.
  destruct (unrelated_not_under _ _ Hapart) as [Htd_out Hout_td].
  set (w1 := with_fs w (fs_set tempdir (Dir mode_tempdir) (fs w))) in *.
  destruct (stage_staged E tempdir api_key clan_id logo_path favicon_path
              description_path w1) as [Hbelow _].
  destruct (stage E tempdir api_key clan_id logo_path favicon_path
              description_path w1) as [[[]|e] w2] eqn:Hstage;
    cbn [fst snd] in *; [|discriminate].
  destruct (Hbelow Hdir1) as [Hframe Hdir2].
  destruct (stage_ok E _ _ _ _ _ _ _ _ Hdir1 Hstage)
    as ((_ & _ & html & _ & _ & _ & _ & (st_page & Hpage) & _) & _).
  assert (fs w2 out = Some old) as Hout2.
  { rewrite (Hframe out Htd_out). unfold w1. cbn [fs with_fs].
    rewrite fs_set_at. now rewrite (path_eqb_apart _ _ Htd_out). }
  destruct (fs w2 tempdir) as [[st0 d0|st0]|] eqn:Hm; try contradiction.
  unfold try_finally, bind at 1 in Hrun. rewrite Hstage in Hrun.
  unfold publish, bind, exists_ in Hrun. rewrite <- Hout_def, Hout2 in Hrun.
  rewrite (copystat_run E out tempdir w2 _ _ Hstat Hout2 Hm) in Hrun.
  cbn [node_with_stat] in Hrun.
  set (w3 := with_fs w2 _) in Hrun.
  assert (fs w3 tempdir = Some (Dir (node_stat old))) as Htd3.
  { unfold w3. cbn [fs with_fs]. rewrite fs_set_at.
    now rewrite path_eqb_refl. }
  assert (fs w3 (tempdir ++ ["index.html"]) = Some (File st_page html))
    as Hpage3.
  { unfold w3. cbn [fs with_fs]. rewrite fs_set_at.
    rewrite path_eqb_below by discriminate. exact Hpage. }
  assert (under out (tempdir ++ ["index.html"]) = false) as Hpage_out.
  { apply (unrelated_outside out tempdir); [|apply under_app].
    now rewrite unrelated_sym. }
  clearbody w3.
  pose proof (rmtree_outside E out w3 _ Hout_td) as Htd4.
  pose proof (rmtree_outside E out w3 _ Hpage_out) as Hpage4.
  rewrite Htd3 in Htd4. rewrite Hpage3 in Hpage4.
  assert (exists r5 w5,
             run = (let (r0, w'') := rmtree E tempdir w5 in
                    match r0 with
                    | Ok _ => (r5, w'')
                    | Err e => (Err e, w'')
                    end) /\
             fs w5 tempdir = Some (Dir (node_stat old)) /\
             fs w5 (tempdir ++ ["index.html"])
             = Some (File st_page html)) as (r5 & w5 & -> & Htd5 & Hpage5).
  { destruct (rmtree E out w3) as [[[]|e4] w4]; cbn [snd] in Htd4, Hpage4.
    - pose proof (copytree_outside E tempdir out w4 _ Hout_td) as Htd5.
      pose proof (copytree_outside E tempdir out w4 _ Hpage_out) as Hpage5.
      rewrite Htd4 in Htd5. rewrite Hpage4 in Hpage5.
      specialize (Htd5 ltac:(discriminate)).
      specialize (Hpage5 ltac:(discriminate)).
      destruct (copytree E tempdir out w4) as [r5 w5]; cbn [snd] in *.
      now exists r5, w5.
    - now exists (Err e4), w4. }
  destruct (rmtree_stuck E tempdir w5 _ _ _ Hroot Htd5 Hpage5 Hmode)
    as [[what Herr] Hleft].
  destruct (rmtree E tempdir w5) as [r6 w6]; cbn [fst snd] in *.
  subst r6. split; [now exists what | exact Hleft].
Qed.

Lemma build_dashboard_cleanup_fails_witness :
  (exists what,
      fst (build_dashboard (Demo.env 200 "clan") "key" "#C" None None None
             ["out"] {| fs := Demo.sealed; requests := [] |})
      = Err (OSError what)) /\
  fs (snd (build_dashboard (Demo.env 200 "clan") "key" "#C" None None None
             ["out"] {| fs := Demo.sealed; requests := [] |}))
     ["tmp"; "x1traasorg"]
  = Some (Dir (node_stat (Dir 365))).
Proof.
  apply (build_dashboard_cleanup_fails (Demo.env 200 "clan") "key" "#C"
           None None None ["out"] {| fs := Demo.sealed; requests := [] |}
           (Dir 365));
    vm_compute; reflexivity.
Defined.
